(** * cherry.experience_replay: Transition and ExperienceReplay

    A shallow embedding of [cherry/experience_replay.py].

    Python objects live in a heap of references, so that aliasing, object
    identity and in-place mutation are those of the program:
    - a [Transition] is its instance dictionary ([__dict__]), a finite map
      from attribute names to values;
    - the list held by [ExperienceReplay._storage] is a heap object of its
      own, holding references to the stored transitions;
    - an [ExperienceReplay] is a heap object with the three attributes
      [_storage], [vectorized] and [device].
    Methods are computations in a state-and-exception monad over a world
    made of the heap, the state of the global [random] generator and the
    files written by [th.save].

    Attribute lookup is Python's: [getattr] on a transition reads the
    instance dictionary first and the class after it, so that a field
    named like a method of the class, or like [_reserved_names], hides
    it, and [self.to(...)] calls what the instance holds under [to] when
    it holds something.  The values of this model are data, none of them
    is callable.  Names with two leading underscores belong to Python's
    object protocol ([__class__], [__dict__], ...); what they denote
    depends on the interpreter, and no field and no accessor considered
    here carries one ([dunder]).

    Tensors belong to the numeric backend (torch).  They are modelled by a
    shape, the row-major list of their cells, a dtype and a device.  Cells
    are exact integers: rounding of floating-point casts is outside the
    model, only the dtype tag records a cast. *)

From Stdlib Require Import ZArith Lia.
From stdpp Require Import base option list gmap strings fin_maps pretty list_monad.

Local Open Scope string_scope.
Local Open Scope list_scope.

(** ** Python exceptions *)

Inductive exn : Type :=
| AttributeError (msg : string)
| AssertionError (msg : string)
| IndexError
| ValueError
| TypeError
| RuntimeError
| UnboundLocalError
| FileNotFoundError.

(** ** Pure computations that may raise *)

Inductive result (A : Type) : Type :=
| OK (a : A)
| Err (e : exn).
Arguments OK {A} a.
Arguments Err {A} e.

#[global] Instance result_ret : MRet result := fun A a => OK a.
#[global] Instance result_bind : MBind result :=
  fun A B f m => match m with OK a => f a | Err e => Err e end.

(** [l[i]] on a Python list: negative indices count from the end, anything
    out of range raises [IndexError]. *)
Definition py_index {A : Type} (l : list A) (i : Z) : result A :=
  let n := Z.of_nat (length l) in
  let j := if (i <? 0)%Z then (i + n)%Z else i in
  if ((0 <=? j) && (j <? n))%Z then
    match l !! Z.to_nat j with
    | Some x => OK x
    | None => Err IndexError
    end
  else Err IndexError.

(** [range(a, b)] *)
Definition py_range (a b : Z) : list Z :=
  (fun i => a + Z.of_nat i)%Z <$> seq 0 (Z.to_nat (b - a)).

(** [enumerate(l)] *)
Definition enumerate {A : Type} (l : list A) : list (Z * A) :=
  zip (py_range 0 (Z.of_nat (length l))) l.

(** ** The numeric backend *)

Inductive dtype : Type :=
| float16 | float32 | float64 | int64 | uint8 | bool8.

#[global] Instance dtype_eq_dec : EqDecision dtype.
Proof. solve_decision. Defined.

Record tensor : Type := mkTensor {
  shape : list nat;
  data : list Z;
  dtype_of : dtype;
  tdevice : string;
}.

#[global] Instance tensor_eq_dec : EqDecision tensor.
Proof. solve_decision. Defined.

Definition prod_shape (s : list nat) : nat := foldr Nat.mul 1 s.

Definition is_floating_point (t : tensor) : bool :=
  match dtype_of t with
  | float16 | float32 | float64 => true
  | _ => false
  end.

(** [t.to(device, dtype, non_blocking)]: [None] leaves the device or the
    dtype as it is. *)
Definition tensor_to (device : option string) (dt : option dtype)
    (non_blocking : bool) (t : tensor) : tensor :=
  {| shape := shape t;
     data := data t;
     dtype_of := default (dtype_of t) dt;
     tdevice := default (tdevice t) device |}.

Definition tensor_half (t : tensor) : tensor :=
  {| shape := shape t; data := data t; dtype_of := float16; tdevice := tdevice t |}.

Definition tensor_double (t : tensor) : tensor :=
  {| shape := shape t; data := data t; dtype_of := float64; tdevice := tdevice t |}.

(** [t[i]]: indexing along the leading axis drops that axis. *)
Definition tensor_getitem (t : tensor) (i : Z) : result tensor :=
  match shape t with
  | [] => Err IndexError
  | n :: rest =>
      let j := if (i <? 0)%Z then (i + Z.of_nat n)%Z else i in
      if ((0 <=? j) && (j <? Z.of_nat n))%Z then
        let stride := prod_shape rest in
        OK {| shape := rest;
              data := take stride (drop (Z.to_nat j * stride) (data t));
              dtype_of := dtype_of t;
              tdevice := tdevice t |}
      else Err IndexError
  end.


(** [t.view] with the new shape *)
Definition tensor_view (t : tensor) (new_shape : list nat) : result tensor :=
  if bool_decide (prod_shape new_shape = prod_shape (shape t)) then
    OK {| shape := new_shape; data := data t; dtype_of := dtype_of t; tdevice := tdevice t |}
  else Err RuntimeError.

(** [t.sum().int().item()] *)
Definition tensor_sum (t : tensor) : Z := foldr Z.add 0%Z (data t).

(** [bool(t)]: only a tensor of one cell has a truth value. *)
Definition tensor_bool (t : tensor) : result bool :=
  match data t with
  | [x] => OK (negb (x =? 0)%Z)
  | _ => Err RuntimeError
  end.

(** Iterating a tensor yields its slices along the leading axis. *)
Definition tensor_iter (t : tensor) : result (list tensor) :=
  match shape t with
  | [] => Err TypeError
  | n :: _ => mapM (tensor_getitem t) (py_range 0 (Z.of_nat n))
  end.

(** ** Values held by attributes *)

Inductive value : Type :=
| VNone
| VTensor (t : tensor)
| VDevice (d : string)
| VNames (l : list string)
| VObject (o : nat)
| VClassAttr (name : string).

#[global] Instance value_eq_dec : EqDecision value.
Proof. solve_decision. Defined.

#[global] Instance dtype_countable : Countable dtype.
Proof.
  refine (inj_countable'
            (fun d => match d with
                      | float16 => 0 | float32 => 1 | float64 => 2
                      | int64 => 3 | uint8 => 4 | bool8 => 5
                      end)
            (fun n => match n with
                      | 0 => float16 | 1 => float32 | 2 => float64
                      | 3 => int64 | 4 => uint8 | _ => bool8
                      end) _).
  by intros [].
Defined.

#[global] Instance tensor_countable : Countable tensor.
Proof.
  refine (inj_countable'
            (fun t => (shape t, data t, dtype_of t, tdevice t))
            (fun '(s, d, dt, dev) => mkTensor s d dt dev) _).
  by intros [].
Defined.

#[global] Instance value_countable : Countable value.
Proof.
  refine (inj_countable'
            (fun v => match v with
                      | VNone => inl (inl ())
                      | VTensor t => inl (inr t)
                      | VDevice d => inr (inl d)
                      | VNames l => inr (inr (inl l))
                      | VObject o => inr (inr (inr (inl o)))
                      | VClassAttr name => inr (inr (inr (inr name)))
                      end)
            (fun x => match x with
                      | inl (inl ()) => VNone
                      | inl (inr t) => VTensor t
                      | inr (inl d) => VDevice d
                      | inr (inr (inl l)) => VNames l
                      | inr (inr (inr (inl o))) => VObject o
                      | inr (inr (inr (inr name))) => VClassAttr name
                      end) _).
  by intros [].
Defined.

(** [VDevice d] is the [th.device] named [d].  [VObject] stands for any
    other Python object that is data (a distribution, ...): it is no
    tensor, it cannot be converted into one, it cannot be indexed, it is
    no container and it cannot be called.  [VClassAttr name] is what
    attribute lookup finds on the class [Transition] under the name of
    one of its methods, when the instance holds nothing of that name: the
    bound method.  The code of this module reads such a value (in
    [_access_property] and in [_apply]) and never calls one; for its
    operations it is, like an opaque object, no tensor, and it cannot be
    indexed. *)

(** [name not in v] *)
Definition py_not_in (name : string) (v : value) : result bool :=
  match v with
  | VNames l => OK (bool_decide (name ∉ l))
  | VTensor _ => Err RuntimeError
  | _ => Err TypeError
  end.

(** The names of Python's object protocol. *)
Definition dunder (name : string) : bool := String.prefix "__" name.

Definition as_tensor (v : value) : result tensor :=
  match v with
  | VTensor t => OK t
  | _ => Err TypeError
  end.

(** [th.cat(values, dim=0)] *)
Definition th_cat (values : list value) : result tensor :=
  ts ← mapM as_tensor values;
  match ts with
  | [] => Err RuntimeError
  | t0 :: _ =>
      match shape t0 with
      | [] => Err RuntimeError
      | _ :: tail0 =>
          if forallb (fun t => bool_decide (tail (shape t) = tail0 ∧ shape t ≠ []
                                            ∧ tdevice t = tdevice t0)) ts
          then OK {| shape := foldr Nat.add 0 ((fun t => hd 0 (shape t)) <$> ts) :: tail0;
                     data := concat (data <$> ts);
                     dtype_of := dtype_of t0;
                     tdevice := tdevice t0 |}
          else Err RuntimeError
      end
  end.


(** [for x in l: acc = f(acc, x)] in either monad *)
Fixpoint foldlM {M : Type → Type} `{!MBind M, !MRet M} {A B : Type}
    (f : A → B → M A) (a : A) (l : list B) : M A :=
  match l with
  | [] => mret a
  | x :: l => a' ← f a x; foldlM f a' l
  end.

(** A Python [dict] with string keys, in insertion order: keyword
    arguments and the dictionaries the methods build. *)
Fixpoint dict_set (d : list (string * value)) (k : string) (v : value) :
    list (string * value) :=
  match d with
  | [] => [(k, v)]
  | (k', v') :: d' =>
      if decide (k' = k) then (k, v) :: d' else (k', v') :: dict_set d' k v
  end.

Fixpoint dict_get (d : list (string * value)) (k : string) : option value :=
  match d with
  | [] => None
  | (k', v') :: d' => if decide (k' = k) then Some v' else dict_get d' k
  end.

(** [fn(value) if isinstance(value, th.Tensor) else value] *)
Definition map_value (fn : tensor → tensor) (v : value) : value :=
  match v with
  | VTensor t => VTensor (fn t)
  | _ => v
  end.


(** ** The heap and the world *)

Definition ref := nat.

Record Replay : Type := mkReplay {
  _storage : ref;
  vectorized : bool;
  device : value;
}.

Inductive obj : Type :=
| OTransition (d : gmap string value)
| OList (l : list ref)
| OReplay (r : Replay).

(** [rng] is the list of the numbers that the global generator of [random]
    will produce; [fs] maps the path of a file to its bytes, read as one
    binary number. *)
Record world : Type := mkWorld {
  heap : gmap ref obj;
  rng : list Z;
  fs : gmap string positive;
}.

Definition set_heap (f : gmap ref obj → gmap ref obj) (w : world) : world :=
  {| heap := f (heap w); rng := rng w; fs := fs w |}.

(** ** Computations over the world *)

Inductive outcome (A : Type) : Type :=
| Return (a : A) (w : world)
| Raise (e : exn) (w : world).
Arguments Return {A} a w.
Arguments Raise {A} e w.

Record M (A : Type) : Type := mkM { run : world → outcome A }.
Arguments mkM {A} _.
Arguments run {A} _ _.

#[global] Instance M_ret : MRet M := fun A a => mkM (fun w => Return a w).
#[global] Instance M_bind : MBind M := fun A B f m =>
  mkM (fun w =>
         match run m w with
         | Return a w' => run (f a) w'
         | Raise e w' => Raise e w'
         end).

Definition raise {A : Type} (e : exn) : M A := mkM (fun w => Raise e w).

Definition lift {A : Type} (r : result A) : M A :=
  mkM (fun w => match r with OK a => Return a w | Err e => Raise e w end).

(** [try: m except AttributeError: h] *)
Definition try_except_AttributeError {A : Type} (m : M A) (h : M A) : M A :=
  mkM (fun w =>
         match run m w with
         | Raise (AttributeError _) w' => run h w'
         | o => o
         end).

(** Creating an object: its reference is one the heap does not hold yet. *)
Definition alloc (o : obj) : M ref :=
  mkM (fun w => let r := fresh (dom (heap w)) in
                Return r (set_heap (insert r o) w)).

Definition store (r : ref) (o : obj) : M unit :=
  mkM (fun w => Return () (set_heap (insert r o) w)).

Definition get_transition (r : ref) : M (gmap string value) :=
  mkM (fun w =>
         match heap w !! r with
         | Some (OTransition d) => Return d w
         | _ => Raise TypeError w
         end).

Definition get_list (r : ref) : M (list ref) :=
  mkM (fun w =>
         match heap w !! r with
         | Some (OList l) => Return l w
         | _ => Raise TypeError w
         end).

Definition get_replay (r : ref) : M Replay :=
  mkM (fun w =>
         match heap w !! r with
         | Some (OReplay b) => Return b w
         | _ => Raise TypeError w
         end).

(** [random.randint(a, b)]: an integer of [[a, b]], both ends included,
    decided by the next number of the generator; [ValueError] on an empty
    range. *)
Definition randint (a b : Z) : M Z :=
  mkM (fun w =>
         if (b <? a)%Z then Raise ValueError w
         else match rng w with
              | [] => Return a w
              | r :: rest =>
                  Return (a + r mod (b - a + 1))%Z
                         {| heap := heap w; rng := rest; fs := fs w |}
              end).

(** ** Helpers of [cherry] that the module imports *)

(** Modelled from the spec: [cherry._utils._istensorable] is not in this
    file.  It is the predicate "used before opportunistically converting
    auxiliary field values"; among the values of this model the tensors
    are the array-convertible ones. *)
Definition _istensorable (v : value) : bool :=
  match v with
  | VTensor _ => true
  | _ => false
  end.

(** Modelled from the spec: [cherry.totensor] is not in this file.  It
    "converts a scalar/list/native-array into a backend array"; the values
    of this model are backend arrays already, or objects it cannot
    convert, and both come back as they are. *)
Definition totensor (v : value) : value := v.

(** Modelled from the spec: [cherry._utils._min_size] is not in this file.
    Batched access "reshapes so non-scalar per-Record field shapes are
    preserved after stacking": the size of a tensor without its leading
    axes of size one, and [(1,)] for a tensor without axes. *)
Fixpoint strip_ones (s : list nat) : list nat :=
  match s with
  | 1 :: (_ :: _) as rest => strip_ones rest
  | _ => s
  end.

Definition _min_size (v : value) : result (list nat) :=
  match v with
  | VTensor t =>
      let true_size := shape t in
      if (length true_size <? 1)%nat then OK [1] else OK (strip_ones true_size)
  | _ => Err (AttributeError "object has no attribute 'size'")
  end.

(** [t.reshape(num_envs, -1)] *)
Definition reshape_rows (num_envs : nat) (v : value) : result value :=
  match v with
  | VTensor t =>
      let n := prod_shape (shape t) in
      if bool_decide (num_envs ≠ 0 ∧ (n `mod` num_envs = 0)%nat) then
        OK (VTensor {| shape := [num_envs; (n `div` num_envs)%nat]; data := data t;
                       dtype_of := dtype_of t; tdevice := tdevice t |})
      else Err RuntimeError
  | _ => Err (AttributeError "object has no attribute 'reshape'")
  end.

(** [v.shape[0]] *)
Definition shape0 (v : value) : result nat :=
  match v with
  | VTensor t =>
      match shape t with
      | n :: _ => OK n
      | [] => Err IndexError
      end
  | _ => Err (AttributeError "object has no attribute 'shape'")
  end.

(** The device argument as [th._C._nn._parse_to] reads it. *)
Definition parse_device (v : value) : result (option string) :=
  match v with
  | VNone => OK None
  | VDevice d => OK (Some d)
  | _ => Err TypeError
  end.

Definition device_value (d : option string) : value :=
  match d with
  | None => VNone
  | Some s => VDevice s
  end.

(** ** class Transition *)

Module Transition.

Definition _reserved_names : list string := ["device"; "_fields"].

Definition core_fields : list string :=
  ["state"; "action"; "reward"; "next_state"; "done"].

(** The methods of the class, two leading underscores apart. *)
Definition method_names : list string :=
  ["cpu"; "cuda"; "_apply"; "to"; "half"; "double"].

(** What attribute lookup finds on the class: the tuple
    [_reserved_names] and the methods. *)
Definition class_attribute (name : string) : option value :=
  if decide (name = "_reserved_names") then Some (VNames _reserved_names)
  else if bool_decide (name ∈ method_names) then Some (VClassAttr name)
  else None.

(** The methods below work on the instance dictionary of [self] and
    return the dictionary as they leave it. *)

(** [getattr(self, name)]: the instance dictionary, then the class. *)
Definition getattr (self : gmap string value) (name : string) : result value :=
  match self !! name with
  | Some v => OK v
  | None =>
      match class_attribute name with
      | Some v => OK v
      | None => Err (AttributeError
                       ("'Transition' object has no attribute '" +:+ name +:+ "'"))
      end
  end.

(** [self._fields], which the methods use as a list of names *)
Definition get_fields (self : gmap string value) : result (list string) :=
  v ← getattr self "_fields";
  match v with
  | VNames l => OK l
  | _ => Err TypeError
  end.

Definition __setattr__ (self : gmap string value) (name : string) (v : value) :
    result (gmap string value) :=
  reserved ← getattr self "_reserved_names";
  free ← py_not_in name reserved;
  self ← (if (free : bool) then
            fields ← get_fields self;
            if bool_decide (name ∉ fields)
            then OK (<["_fields" := VNames (fields ++ [name])]> self)
            else OK self
          else OK self);
  OK (<[name := v]> self).

Definition __init__ (state action reward next_state done device : value)
    (infos : list (string * value)) : result (gmap string value) :=
  self ← __setattr__ ∅ "_fields" (VNames core_fields);
  let values := [state; action; reward; next_state; done] in
  self ← foldlM (fun self '(key, val) => __setattr__ self key val)
           self (zip core_fields values);
  let info_keys := infos.*1 in
  fields ← get_fields self;
  self ← __setattr__ self "_fields" (VNames (fields ++ info_keys));
  self ← foldlM (fun self '(key, val) => __setattr__ self key val) self infos;
  __setattr__ self "device" device.

(** [Transition] called on a dictionary of keywords: Python binds them
    to the parameters of [__init__]; what is left is [infos], in the order of [kwargs]. *)
Definition required (kwargs : list (string * value)) (name : string) : result value :=
  match dict_get kwargs name with
  | Some v => OK v
  | None => Err TypeError
  end.

Definition call (kwargs : list (string * value)) : result (gmap string value) :=
  if bool_decide ("self" ∈ kwargs.*1) then Err TypeError else
  state ← required kwargs "state";
  action ← required kwargs "action";
  reward ← required kwargs "reward";
  next_state ← required kwargs "next_state";
  done ← required kwargs "done";
  let device := default VNone (dict_get kwargs "device") in
  let infos := filter (fun p => p.1 ∉ "device" :: core_fields) kwargs in
  __init__ state action reward next_state done device infos.

(** From here on [self] is a reference.  [new] is the call of the class:
    the creation of an object of the heap and its [__init__]. *)

Definition new (kwargs : list (string * value)) : M ref :=
  d ← lift (call kwargs);
  alloc (OTransition d).

(** [getattr(sars, name)] on an element of a storage.  A storage holds
    transitions; of another object the model has no attribute to read. *)
Definition getattr_ref (sars : ref) (name : string) : M value :=
  mkM (fun w =>
         match heap w !! sars with
         | Some (OTransition d) => run (lift (getattr d name)) w
         | _ => Raise (AttributeError ("object has no attribute '" +:+ name +:+ "'")) w
         end).

(** [sars.name = v] *)
Definition setattr_ref (sars : ref) (name : string) (v : value) : M unit :=
  d ← get_transition sars;
  d' ← lift (__setattr__ d name v);
  store sars (OTransition d').

Definition _apply (self : ref) (fn : tensor → tensor) (device : value) : M ref :=
  d ← get_transition self;
  device ← lift (match device with VNone => getattr d "device" | _ => OK device end);
  fields ← lift (get_fields d);
  new_transition ←
    lift (foldlM (fun nt field =>
                    value ← getattr d field;
                    OK (dict_set nt field (map_value fn value)))
            [("device", device)] fields);
  new new_transition.

(** [self.name(...)], [body] being the call of the method [name] of the
    class.  Python looks [name] up on the instance first: when the
    instance dictionary holds a value under [name], that value is what
    is called in place of the method, and calling a value that is data
    raises [TypeError].  (A bound method kept under the name of a method
    would be called instead; no record considered here holds anything
    under such a name, see [wf_record].) *)
Definition call_method {A : Type} (self : ref) (name : string) (body : M A) : M A :=
  d ← get_transition self;
  match d !! name with
  | Some _ => raise TypeError
  | None => body
  end.

Definition to (self : ref) (device : option string) (dt : option dtype)
    (non_blocking : bool) : M ref :=
  call_method self "_apply"
    (_apply self
       (fun t => tensor_to device (if is_floating_point t then dt else None)
                   non_blocking t)
       (device_value device)).

Definition cpu (self : ref) : M ref :=
  call_method self "to" (to self (Some "cpu") None false).

Definition cuda (self : ref) (index : nat) (dt : option dtype) (non_blocking : bool) :
    M ref :=
  call_method self "to" (to self (Some ("cuda:" +:+ pretty index)) dt non_blocking).

Definition half (self : ref) : M ref :=
  call_method self "_apply"
    (_apply self (fun t => if is_floating_point t then tensor_half t else t) VNone).

Definition double (self : ref) : M ref :=
  call_method self "_apply"
    (_apply self (fun t => if is_floating_point t then tensor_double t else t) VNone).

End Transition.

(** ** class ExperienceReplay *)

(** A subscript: an integer or a slice [start:stop]. *)
Inductive key : Type :=
| KInt (i : Z)
| KSlice (start stop : option Z).

(** [l[start:stop]] on a Python list *)
Definition slice_bound (n : Z) (dflt : Z) (b : option Z) : Z :=
  match b with
  | None => dflt
  | Some i => if (i <? 0)%Z then Z.max (i + n) 0 else Z.min i n
  end.

Definition py_slice {A : Type} (l : list A) (start stop : option Z) : list A :=
  let n := Z.of_nat (length l) in
  let a := slice_bound n 0%Z start in
  let b := slice_bound n n stop in
  take (Z.to_nat (b - a)) (drop (Z.to_nat a) l).

Module ExperienceReplay.

(** [ExperienceReplay(storage, device, vectorized)], that is the creation
    of the object and its [__init__]: without a storage the replay gets a
    new empty list, with one it keeps the very list it is given. *)
Definition new (storage : option ref) (device : value) (vectorized : bool) : M ref :=
  storage ← match storage with
            | None => alloc (OList [])
            | Some s => mret s
            end;
  alloc (OReplay {| _storage := storage; vectorized := vectorized; device := device |}).

Definition _access_property (self : ref) (name : string) : M tensor :=
  values ← try_except_AttributeError
             (b ← get_replay self;
              storage ← get_list (_storage b);
              mapM (fun sars => Transition.getattr_ref sars name) storage)
             (let msg := "Attribute " +:+ name +:+ " not in replay." in
              raise (AttributeError msg));
  v0 ← lift (py_index values 0);
  true_size ← lift (_min_size v0);
  cat ← lift (th_cat values);
  lift (tensor_view cat (length values :: true_size)).

Definition __len__ (self : ref) : M Z :=
  b ← get_replay self;
  storage ← get_list (_storage b);
  mret (Z.of_nat (length storage)).

Definition __add__ (self other : ref) : M ref :=
  b ← get_replay self;
  o ← get_replay other;
  if bool_decide (vectorized b = vectorized o) then
    l1 ← get_list (_storage b);
    l2 ← get_list (_storage o);
    storage ← alloc (OList (l1 ++ l2));
    new (Some storage) (device b) (vectorized b)
  else raise (AssertionError "Cannot add vectorized and non-vectorized replays.").

(** [self._storage += other._storage] extends the list object of [self]
    in place. *)
Definition __iadd__ (self other : ref) : M ref :=
  b ← get_replay self;
  o ← get_replay other;
  l1 ← get_list (_storage b);
  l2 ← get_list (_storage o);
  store (_storage b) (OList (l1 ++ l2));;
  mret self.

(** [self.__getattr__(attr)()]: the function that the method returns,
    called. *)
Definition __getattr__ (self : ref) (attr : string) : M tensor :=
  _access_property self attr.

(** The names that normal lookup finds on a replay, two leading
    underscores apart: its three instance attributes, the methods of the
    class and the methods of [list]. *)
Definition attribute_names : list string :=
  ["_storage"; "vectorized"; "device";
   "_access_property"; "save"; "load"; "append"; "sample"; "empty"; "flatten";
   "cpu"; "cuda"; "to"; "half"; "double";
   "clear"; "copy"; "count"; "extend"; "index"; "insert"; "pop"; "remove";
   "reverse"; "sort"].

(** [self.attr()].  Python calls [__getattr__] only when normal lookup
    does not find [attr]; for a name that it finds, and for the names of
    the object protocol, the call is not one of batched access: [None]. *)
Definition call_attribute (self : ref) (attr : string) : option (M tensor) :=
  if bool_decide (attr ∈ attribute_names) || dunder attr then None
  else Some (__getattr__ self attr).

Definition __getitem__ (self : ref) (k : key) : M ref :=
  b ← get_replay self;
  storage ← get_list (_storage b);
  match k with
  | KInt i => lift (py_index storage i)
  | KSlice start stop =>
      value ← alloc (OList (py_slice storage start stop));
      new (Some value) (device b) (vectorized b)
  end.

Definition __getslice__ (self : ref) (i j : Z) : M ref :=
  __getitem__ self (KSlice (Some i) (Some j)).

(** The records that iterating the replay yields, in order. *)
Definition __iter__ (self : ref) : M (list ref) :=
  n ← __len__ self;
  mapM (fun i => __getitem__ self (KInt i)) (py_range 0 n).

(** [self._storage = storage] *)
Definition set_storage (self : ref) (storage : ref) : M unit :=
  b ← get_replay self;
  store self (OReplay {| _storage := storage; vectorized := vectorized b;
                         device := device b |}).

Section persistence.
(** [th.save] and [th.load] are torch's: a serializer of the list of
    stored records into the bytes of a file, and its reader. *)
Variable th_dumps : list (gmap string value) → positive.
Variable th_loads : positive → option (list (gmap string value)).

Definition save (self : ref) (path : string) : M unit :=
  b ← get_replay self;
  storage ← get_list (_storage b);
  records ← mapM get_transition storage;
  mkM (fun w => Return () {| heap := heap w; rng := rng w;
                             fs := <[path := th_dumps records]> (fs w) |}).

(** Every record read from the file is a new object. *)
Definition load (self : ref) (path : string) : M unit :=
  bytes ← mkM (fun w => match fs w !! path with
                        | Some bytes => Return bytes w
                        | None => Raise FileNotFoundError w
                        end);
  records ← match th_loads bytes with
            | Some records => mret records
            | None => raise RuntimeError
            end;
  storage ← mapM (fun d => alloc (OTransition d)) records;
  l ← alloc (OList storage);
  set_storage self l.
End persistence.

(** [self._storage.append(sars)] *)
Definition list_append (l : ref) (x : ref) : M unit :=
  xs ← get_list l;
  store l (OList (xs ++ [x])).

Definition append (self : ref) (state action reward next_state done : value)
    (infos : list (string * value)) : M unit :=
  let infos := (fun '(key, v) => (key, if _istensorable v then totensor v else v))
                 <$> infos in
  let state := totensor state in
  let action := totensor action in
  let reward := totensor reward in
  let next_state := totensor next_state in
  let done := totensor done in
  b ← get_replay self;
  '(action, reward, done) ←
    (if vectorized b then
       num_envs ← lift (shape0 state);
       action ← lift (reshape_rows num_envs action);
       reward ← lift (reshape_rows num_envs reward);
       done ← lift (reshape_rows num_envs done);
       mret (action, reward, done)
     else mret (action, reward, done));
  sars ← Transition.new
           ([("state", state); ("action", action); ("reward", reward);
             ("next_state", next_state); ("done", done)] ++ infos);
  device ← lift (parse_device (device b));
  sars ← Transition.call_method sars "to" (Transition.to sars device None false);
  list_append (_storage b) sars.


(** The first loop of the episode branch: from the last row of [dones]
    to the first, stop at the terminal row that has [end_] terminal
    rows after it.  [None] when the loop ends without [break], which
    leaves [end_idx] unbound. *)
Fixpoint find_end_idx (rows : list (Z * tensor)) (end_ count : Z) : result (option Z) :=
  match rows with
  | [] => OK None
  | (idx, d) :: rows =>
      b ← tensor_bool d;
      if (b : bool) then
        if (count >=? end_)%Z then OK (Some idx)
        else find_end_idx rows end_ (count + 1)%Z
      else find_end_idx rows end_ count
  end.

(** The second loop: from [end_idx - 1] down, put the indices in front
    of [indices] until [size] terminal rows have been met. *)
Fixpoint fill_indices (dones : tensor) (idxs : list Z) (size count : Z)
    (indices : list Z) : result (list Z) :=
  match idxs with
  | [] => OK indices
  | idx :: idxs =>
      d ← tensor_getitem dones idx;
      b ← tensor_bool d;
      if (b : bool) then
        let count := (count + 1)%Z in
        if (count >=? size)%Z then OK indices
        else fill_indices dones idxs size count (idx :: indices)
      else fill_indices dones idxs size count (idx :: indices)
  end.

Definition episode_indices (self : ref) (size : Z) : M (list Z) :=
  all_dones ← __getattr__ self "done";
  let num_episodes := tensor_sum all_dones in
  end_ ← randint (size - 1) (num_episodes - size);
  dones ← __getattr__ self "done";
  rows ← lift (tensor_iter dones);
  end_idx ← lift (find_end_idx (reverse (enumerate rows)) end_ 0);
  match end_idx with
  | None => raise UnboundLocalError
  | Some end_idx =>
      lift (fill_indices dones (reverse (py_range 0 end_idx)) size 0 [end_idx])
  end.

(** "Fill the sample": the records at [indices], in a new list, in a new
    replay. *)
Definition fill_sample (self : ref) (indices : list Z) : M ref :=
  storage ← mapM (fun idx => __getitem__ self (KInt idx)) indices;
  storage ← alloc (OList storage);
  b ← get_replay self;
  new (Some storage) VNone (vectorized b).

(** [sample], with [self.sample] of its body as the parameter [rec]. *)
Definition sample_body (rec : ref → Z → bool → bool → M ref)
    (self : ref) (size : Z) (contiguous episodes : bool) : M ref :=
  n ← __len__ self;
  if ((n <? 1) || (size <? 1))%Z then
    b ← get_replay self;
    new None VNone (vectorized b)
  else if episodes then
    b ← get_replay self;
    if vectorized b then
      raise (AssertionError "Cannot sample episodes from vectorized replay yet.")
    else if ((1 <? size)%Z && negb contiguous) then
      replay ← new None VNone false;
      samples ← mapM (fun _ : Z => rec self 1%Z false true) (py_range 0 size);
      foldlM __add__ replay samples
    else
      indices ← episode_indices self size;
      fill_sample self indices
  else
    n ← __len__ self;
    let length := (n - 1)%Z in
    indices ← (if contiguous then
                 start ← randint 0 (length - size);
                 mret (py_range start (start + size))
               else
                 mapM (fun _ : Z => randint 0 length) (py_range 0 size));
    fill_sample self indices.

(** The only call of [self.sample] inside [sample] asks for one episode,
    and a call for one episode makes no further call: two levels of the
    body are the whole function. *)
Definition sample (self : ref) (size : Z) (contiguous episodes : bool) : M ref :=
  sample_body (sample_body (fun _ _ _ _ => raise RuntimeError))
    self size contiguous episodes.

Definition empty (self : ref) : M unit :=
  l ← alloc (OList []);
  set_storage self l.



Definition to (self : ref) (device : option string) (dt : option dtype)
    (non_blocking : bool) : M ref :=
  b ← get_replay self;
  l ← get_list (_storage b);
  storage ← mapM (fun sars => Transition.call_method sars "to"
                                (Transition.to sars device dt non_blocking)) l;
  storage ← alloc (OList storage);
  new (Some storage) (device_value device) (vectorized b).

Definition cpu (self : ref) : M ref := to self (Some "cpu") None false.

Definition cuda (self : ref) (index : nat) (dt : option dtype) (non_blocking : bool) :
    M ref :=
  to self (Some ("cuda:" +:+ pretty index)) dt non_blocking.

Definition half (self : ref) : M ref :=
  b ← get_replay self;
  l ← get_list (_storage b);
  storage ← mapM (fun sars => Transition.call_method sars "half"
                                (Transition.half sars)) l;
  storage ← alloc (OList storage);
  new (Some storage) (device b) (vectorized b).

Definition double (self : ref) : M ref :=
  b ← get_replay self;
  l ← get_list (_storage b);
  storage ← mapM (fun sars => Transition.call_method sars "double"
                                (Transition.double sars)) l;
  storage ← alloc (OList storage);
  new (Some storage) (device b) (vectorized b).

End ExperienceReplay.

(** ** Reading the world *)

Definition replay_of (w : world) (self : ref) : option Replay :=
  match heap w !! self with
  | Some (OReplay b) => Some b
  | _ => None
  end.

Definition list_of (w : world) (r : ref) : option (list ref) :=
  match heap w !! r with
  | Some (OList l) => Some l
  | _ => None
  end.

Definition transition_of (w : world) (r : ref) : option (gmap string value) :=
  match heap w !! r with
  | Some (OTransition d) => Some d
  | _ => None
  end.

(** The records of a replay, as references, in storage order. *)
Definition storage_of (w : world) (self : ref) : option (list ref) :=
  b ← replay_of w self; list_of w (_storage b).

(** The records behind a list of references. *)
Definition records_of (w : world) (l : list ref) : option (list (gmap string value)) :=
  mapM (transition_of w) l.

(** [x] is the record stored at index [i] of [l], counted from 0. *)
Definition at_index (l : list ref) (i : Z) (x : ref) : Prop :=
  (0 ≤ i)%Z ∧ l !! Z.to_nat i = Some x.

(** [w'] has every object of [w] as it was. *)
Definition extends (w w' : world) : Prop :=
  ∀ x, x ∈ dom (heap w) → heap w' !! x = heap w !! x.

(** [w'] has every object of [w] as it was, the object [s] apart. *)
Definition extends_except (s : ref) (w w' : world) : Prop :=
  ∀ x, x ∈ dom (heap w) → x ≠ s → heap w' !! x = heap w !! x.

(** The world after a new list holding [l] and a new replay over that list
    have been created, and the reference of the replay. *)
Definition with_new_replay (w : world) (l : list ref) (dev : value) (vec : bool) :
    ref * world :=
  let s := fresh (dom (heap w)) in
  let w1 := set_heap (insert s (OList l)) w in
  let r := fresh (dom (heap w1)) in
  (r, set_heap (insert r (OReplay {| _storage := s; vectorized := vec; device := dev |})) w1).

(** ** The random generator *)

(** The number [random.randint(a, b)] returns on a non-empty range when
    the generator is in state [tape], and the world once it is drawn. *)
Definition drawn (a b : Z) (tape : list Z) : Z :=
  (a + hd 0 tape mod (b - a + 1))%Z.

Definition consume (w : world) : world :=
  {| heap := heap w; rng := tail (rng w); fs := fs w |}.

(** [k] successive draws of [random.randint(a, b)]. *)
Fixpoint draws (a b : Z) (k : nat) (tape : list Z) : list Z :=
  match k with
  | O => []
  | S k => drawn a b tape :: draws a b k (tail tape)
  end.

Definition consume_n (k : nat) (w : world) : world :=
  {| heap := heap w; rng := drop k (rng w); fs := fs w |}.

(** ** Terminal flags *)

(** The terminal flag of a record as [append] stores it in a replay that
    is not vectorized: a tensor of shape [(1, 1)] holding 0 or 1. *)
Definition flag_of (dev : string) (t : tensor) : option bool :=
  if decide (shape t = [1; 1] ∧ tdevice t = dev) then
    match data t with
    | [0%Z] => Some false
    | [1%Z] => Some true
    | _ => None
    end
  else None.

Definition done_flag (w : world) (dev : string) (x : ref) : option bool :=
  rec ← transition_of w x;
  v ← rec !! "done";
  match v with
  | VTensor t => flag_of dev t
  | _ => None
  end.

(** The flags of the records [l], when each has one, all on device [dev]. *)
Definition done_flags (w : world) (dev : string) (l : list ref) : option (list bool) :=
  mapM (done_flag w dev) l.

Fixpoint count_true (ds : list bool) : nat :=
  match ds with
  | [] => 0
  | d :: ds => (if d then 1 else 0) + count_true ds
  end.

Definition is_flag (dev : string) (t : tensor) (d : bool) : Prop :=
  shape t = [1; 1] ∧ data t = [Z.b2z d] ∧ tdevice t = dev.

(** The tensor [self.done()] of a replay whose records carry the flags
    [ds]: one row per record. *)
Definition stacked_flags (dt : dtype) (dev : string) (ds : list bool) : tensor :=
  {| shape := [length ds; 1]; data := Z.b2z <$> ds; dtype_of := dt; tdevice := dev |}.

(** A row of that tensor. *)
Definition flag_row (dt : dtype) (dev : string) (d : bool) : tensor :=
  {| shape := [1]; data := [Z.b2z d]; dtype_of := dt; tdevice := dev |}.

(** ** Records and their transfers *)

(** The names of the fields of a record. *)
Definition record_fields (t : gmap string value) : option (list string) :=
  match t !! "_fields" with
  | Some (VNames l) => Some l
  | _ => None
  end.

(** The names that a field does not carry here: [device], [_fields] and
    [self], which a keyword of [__init__] cannot carry as a field; the
    names of the attributes of the class, which a field of that name
    would hide from the methods that use them; the names of the object
    protocol. *)
Definition unusable_names : list string :=
  ["device"; "_fields"; "self"; "_reserved_names"] ++ Transition.method_names.

Definition field_name (f : string) : Prop :=
  (f ∉ unusable_names) ∧ dunder f = false.

(** A Python list.  [cherry.totensor] converts lists, and a list of
    names is no array: such an auxiliary value is left out of what is
    said of [append]. *)
Definition is_list (v : value) : bool :=
  match v with
  | VNames _ => true
  | _ => false
  end.

#[global] Instance field_name_dec (f : string) : Decision (field_name f).
Proof. unfold field_name. apply _. Defined.

(** A record as [__init__] builds it and as attribute assignments extend
    it: the field list starts with the five core names and has no
    duplicate, every field has a usable name, and the attributes are the
    fields, [_fields] and [device]. *)
Definition wf_record (t : gmap string value) : Prop :=
  match record_fields t with
  | Some l =>
      take 5 l = Transition.core_fields
      ∧ NoDup l
      ∧ Forall field_name l
      ∧ dom t = list_to_set ("_fields" :: "device" :: l)
  | None => False
  end.

#[global] Instance wf_record_dec (t : gmap string value) : Decision (wf_record t).
Proof. unfold wf_record. destruct (record_fields t); apply _. Defined.

(** The dictionary of the record that a transfer builds from [t]: [fn] on
    every tensor, the other values as they are, and the device tag. *)
Definition transferred (fn : tensor → tensor) (dev : value) (t : gmap string value) :
    gmap string value :=
  <["device" := dev]> (map_value fn <$> t).

(** The dictionary that [__init__] builds. *)
Definition core_dict (state action reward next_state done : value) :
    gmap string value :=
  list_to_map
    [("_fields", VNames Transition.core_fields); ("state", state); ("action", action);
     ("reward", reward); ("next_state", next_state); ("done", done)].

Definition insert_all (kvs : list (string * value)) (m : gmap string value) :
    gmap string value :=
  foldl (fun m kv => <[kv.1 := kv.2]> m) m kvs.

Definition init_dict (state action reward next_state done device : value)
    (infos : list (string * value)) : gmap string value :=
  <["device" := device]>
    (insert_all infos
       (<["_fields" := VNames (Transition.core_fields ++ infos.*1)]>
          (core_dict state action reward next_state done))).

(** The backend-transfer operations of a record, and their calls
    [self.to(...)], [self.cpu()], ... *)
Inductive transfer : Type :=
| To (device : option string) (dt : option dtype) (non_blocking : bool)
| Cpu
| Cuda (index : nat) (dt : option dtype) (non_blocking : bool)
| Half
| Double.

Definition run_transfer (op : transfer) (self : ref) : M ref :=
  match op with
  | To device dt non_blocking =>
      Transition.call_method self "to" (Transition.to self device dt non_blocking)
  | Cpu => Transition.call_method self "cpu" (Transition.cpu self)
  | Cuda index dt non_blocking =>
      Transition.call_method self "cuda" (Transition.cuda self index dt non_blocking)
  | Half => Transition.call_method self "half" (Transition.half self)
  | Double => Transition.call_method self "double" (Transition.double self)
  end.

(** What the operation does to a tensor: a move to the device, with a
    cast for the floating-point tensors only. *)
Definition to_fn (device : option string) (dt : option dtype) (non_blocking : bool)
    (t : tensor) : tensor :=
  tensor_to device (if is_floating_point t then dt else None) non_blocking t.

Definition transfer_fn (op : transfer) (t : tensor) : tensor :=
  match op with
  | To device dt non_blocking => to_fn device dt non_blocking t
  | Cpu => to_fn (Some "cpu") None false t
  | Cuda index dt non_blocking => to_fn (Some ("cuda:" +:+ pretty index)) dt non_blocking t
  | Half => if is_floating_point t then tensor_half t else t
  | Double => if is_floating_point t then tensor_double t else t
  end.

(** The device tag of the result, [old] being the tag of the original. *)
Definition transfer_tag (op : transfer) (old : value) : value :=
  match op with
  | To (Some d) _ _ => VDevice d
  | To None _ _ => old
  | Cpu => VDevice "cpu"
  | Cuda index _ _ => VDevice ("cuda:" +:+ pretty index)
  | Half | Double => old
  end.

(** ** Serialization *)

(** A serializer with its reader: the records as one binary number. *)
Definition bits_dumps (records : list (gmap string value)) : positive := encode records.

Definition bits_loads (bits : positive) : option (list (gmap string value)) := decode bits.

(** ** Flattened records *)





(** The size of the leading axis of a field. *)
Definition leading_axis (v : option value) : option nat :=
  match v with
  | Some (VTensor x) => head (shape x)
  | _ => None
  end.


(** A record of a vectorized replay over [envs] environments: every field
    is a tensor whose leading axis has size [envs]. *)
Definition vector_record (envs : nat) (rec : gmap string value) : Prop :=
  wf_record rec
  ∧ match record_fields rec with
    | Some l => Forall (fun f => leading_axis (rec !! f) = Some envs) l
    | None => False
    end.

#[global] Instance vector_record_dec (envs : nat) (rec : gmap string value) :
  Decision (vector_record envs rec).
Proof. unfold vector_record. destruct (record_fields rec); apply _. Defined.


(** The world after [append] has stored a record in a flat replay whose
    list [lst] held [acc]: [t1] is the record that [append] builds, [t2]
    the one it stores. *)
Definition append_world (w : world) (lst : ref) (acc : list ref)
    (t1 t2 : gmap string value) : ref * world :=
  let r1 := fresh (dom (heap w)) in
  let w1 := set_heap (insert r1 (OTransition t1)) w in
  let r2 := fresh (dom (heap w1)) in
  let w2 := set_heap (insert r2 (OTransition t2)) w1 in
  (r2, set_heap (insert lst (OList (acc ++ [r2]))) w2).

(** ** Worlds used as examples *)

Definition scalar (x : Z) : value :=
  VTensor {| shape := [1; 1]; data := [x]; dtype_of := float32; tdevice := "cpu" |}.

(** A record as [append] stores it: state [s], next state [s + 1], and the
    terminal flag [d]. *)
Definition ex_record (s d : Z) : gmap string value :=
  list_to_map
    [("_fields", VNames Transition.core_fields);
     ("state", scalar s); ("action", scalar 0); ("reward", scalar 1);
     ("next_state", scalar (s + 1)); ("done", scalar d); ("device", VNone)].

(** A replay (reference 1) of five records, the second and the fourth
    terminal; its list is the object 0. *)
Definition ex_storage : list ref := [2; 3; 4; 5; 6].

Definition ex_replay : Replay :=
  {| _storage := 0; vectorized := false; device := VNone |}.

Definition ex_heap : gmap ref obj :=
  list_to_map
    [(0, OList ex_storage); (1, OReplay ex_replay);
     (2, OTransition (ex_record 10 0)); (3, OTransition (ex_record 11 1));
     (4, OTransition (ex_record 12 0)); (5, OTransition (ex_record 13 1));
     (6, OTransition (ex_record 14 0))].

Definition ex_world (tape : list Z) : world :=
  {| heap := ex_heap; rng := tape; fs := ∅ |}.

(** A record with two auxiliary fields, a tensor and an object that is no
    tensor, alone in a world (reference 0). *)
Definition ex_info_record : gmap string value :=
  list_to_map
    [("_fields", VNames (Transition.core_fields ++ ["log_prob"; "density"]));
     ("state", scalar 10); ("action", scalar 0); ("reward", scalar 1);
     ("next_state", scalar 11); ("done", scalar 0);
     ("log_prob", scalar 5); ("density", VObject 7); ("device", VNone)].

Definition ex_info_world : world :=
  {| heap := {[ 0 := OTransition ex_info_record ]}; rng := []; fs := ∅ |}.

(** An empty replay (reference 1) over the empty list 0. *)
Definition ex_empty_world : world :=
  {| heap := list_to_map [(0, OList []); (1, OReplay ex_replay)]; rng := [3%Z]; fs := ∅ |}.

(** The world [ex_world] with one more replay (reference 8), vectorized,
    over the list 7 that holds one record of two environments. *)
Definition pair_tensor (x y : Z) : value :=
  VTensor {| shape := [2; 1]; data := [x; y]; dtype_of := float32; tdevice := "cpu" |}.

Definition ex_vector_record : gmap string value :=
  list_to_map
    [("_fields", VNames Transition.core_fields);
     ("state", pair_tensor 20 30); ("action", pair_tensor 0 0);
     ("reward", pair_tensor 1 1); ("next_state", pair_tensor 21 31);
     ("done", pair_tensor 0 1); ("device", VNone)].

Definition ex_vector_replay : Replay :=
  {| _storage := 7; vectorized := true; device := VNone |}.

Definition ex_mixed_world : world :=
  {| heap := <[7 := OList [9]]> (<[8 := OReplay ex_vector_replay]>
               (<[9 := OTransition ex_vector_record]> ex_heap));
     rng := []; fs := ∅ |}.

(** The world [ex_world] with one more replay (reference 7) built over
    the list of the replay 1: [ExperienceReplay(replay._storage)]. *)
Definition ex_alias_world : world :=
  {| heap := <[7 := OReplay ex_replay]> ex_heap; rng := []; fs := ∅ |}.

(** An empty replay (reference 1) on the first accelerator, over the
    empty list 0. *)
Definition ex_cuda_replay : Replay :=
  {| _storage := 0; vectorized := false; device := VDevice "cuda:0" |}.

Definition ex_cuda_world : world :=
  {| heap := list_to_map [(0, OList []); (1, OReplay ex_cuda_replay)]; rng := []; fs := ∅ |}.

(** An empty vectorized replay (reference 1) over the empty list 0. *)
Definition ex_vector_empty_world : world :=
  {| heap := list_to_map [(0, OList []);
                          (1, OReplay {| _storage := 0; vectorized := true;
                                         device := VNone |})];
     rng := []; fs := ∅ |}.

(** ** Windows of episodes, transfers of a replay, further examples *)

(** The records of [l] from index [se.1] to index [se.2], both included. *)
Definition window {A : Type} (l : list A) (se : nat * nat) : list A :=
  take (se.2 + 1 - se.1) (drop se.1 l).

(** The records from index [se.1] to index [se.2] of a storage whose
    terminal flags are [ds] are [k] completed episodes: the last one is
    terminal, [k] of them are, and the first one is the first record of
    the storage or follows a terminal record. *)
Definition episodes_window (ds : list bool) (k : nat) (se : nat * nat) : Prop :=
  (se.1 ≤ se.2)%nat
  ∧ ds !! se.2 = Some true
  ∧ count_true (window ds se) = k
  ∧ (se.1 = 0%nat ∨ ds !! (se.1 - 1)%nat = Some true).

(** The world [ex_world] with its last record terminal as well: three
    episodes, that end at the indices 1, 3 and 4. *)
Definition ex_episodes_world (tape : list Z) : world :=
  {| heap := <[6 := OTransition (ex_record 14 1)]> ex_heap; rng := tape; fs := ∅ |}.

(** The backend-transfer operations of a replay. *)
Definition replay_transfer (op : transfer) (self : ref) : M ref :=
  match op with
  | To device dt non_blocking => ExperienceReplay.to self device dt non_blocking
  | Cpu => ExperienceReplay.cpu self
  | Cuda index dt non_blocking => ExperienceReplay.cuda self index dt non_blocking
  | Half => ExperienceReplay.half self
  | Double => ExperienceReplay.double self
  end.

(** The device of the replay that the operation returns, [old] being the
    device of the source: [to] passes the device it parsed, [half] and
    [double] pass [self.device]. *)
Definition replay_tag (op : transfer) (old : value) : value :=
  match op with
  | To device _ _ => device_value device
  | Cpu => VDevice "cpu"
  | Cuda index _ _ => VDevice ("cuda:" +:+ pretty index)
  | Half | Double => old
  end.

(** The record that the operation makes of the record [t]. *)
Definition transfer_record (op : transfer) (t : gmap string value) : gmap string value :=
  transferred (transfer_fn op) (transfer_tag op (default VNone (t !! "device"))) t.

(** [t.reshape(num_envs, -1)] when the number of cells of [t] is a
    multiple of [num_envs]. *)
Definition as_rows (num_envs : nat) (t : tensor) : tensor :=
  {| shape := [num_envs; (prod_shape (shape t) `div` num_envs)%nat]; data := data t;
     dtype_of := dtype_of t; tdevice := tdevice t |}.

(** A tensor of shape [(2,)] and one of shape [(2, 1)], on the CPU. *)
Definition ex_flat_pair (x y : Z) : tensor :=
  {| shape := [2]; data := [x; y]; dtype_of := float32; tdevice := "cpu" |}.

Definition ex_pair (x y : Z) : tensor :=
  {| shape := [2; 1]; data := [x; y]; dtype_of := float32; tdevice := "cpu" |}.

(** A tensor of shape [(1, 1)] on the CPU. *)
Definition ex_cell (x : Z) : tensor :=
  {| shape := [1; 1]; data := [x]; dtype_of := float32; tdevice := "cpu" |}.

(** The tensors that the records [l] hold under the attribute [name],
    when each of them holds one. *)
Definition field_tensors (w : world) (name : string) (l : list ref) :
    option (list tensor) :=
  mapM (fun x => rec ← transition_of w x;
                 v ← rec !! name;
                 match v with
                 | VTensor t => Some t
                 | _ => None
                 end) l.



(** ** Basic facts on running computations *)

(** A decidable fact on concrete names or on a concrete world is settled
    by evaluating its decision procedure. *)
Ltac by_evaluation := apply (bool_decide_unpack _); vm_compute; exact I.

Lemma run_bind {A B : Type} (m : M A) (f : A → M B) (w : world) :
  run (m ≫= f) w =
  match run m w with
  | Return a w' => run (f a) w'
  | Raise e w' => Raise e w'
  end.
Proof. reflexivity. Qed.

Lemma run_ret {A : Type} (a : A) (w : world) : run (mret a) w = Return a w.
Proof. reflexivity. Qed.

Lemma run_lift_OK {A : Type} (a : A) (w : world) : run (lift (OK a)) w = Return a w.
Proof. reflexivity. Qed.

Lemma run_get_replay (w : world) (self : ref) (b : Replay) :
  replay_of w self = Some b → run (get_replay self) w = Return b w.
Proof.
  unfold replay_of, get_replay; simpl.
  destruct (heap w !! self) as [[ | | b']|]; intros H; try discriminate.
  by injection H as ->.
Qed.

Lemma run_get_list (w : world) (r : ref) (l : list ref) :
  list_of w r = Some l → run (get_list r) w = Return l w.
Proof.
  unfold list_of, get_list; simpl.
  destruct (heap w !! r) as [[ | l' | ]|]; intros H; try discriminate.
  by injection H as ->.
Qed.

Lemma run_get_transition (w : world) (r : ref) (d : gmap string value) :
  transition_of w r = Some d → run (get_transition r) w = Return d w.
Proof.
  unfold transition_of, get_transition; simpl.
  destruct (heap w !! r) as [[ d' | | ]|]; intros H; try discriminate.
  by injection H as ->.
Qed.

Lemma storage_of_inv (w : world) (self : ref) (l : list ref) :
  storage_of w self = Some l →
  ∃ b, replay_of w self = Some b ∧ list_of w (_storage b) = Some l.
Proof.
  unfold storage_of. destruct (replay_of w self) as [b|]; simpl; [|done].
  intros H. by exists b.
Qed.

Lemma replay_of_dom (w : world) (self : ref) (b : Replay) :
  replay_of w self = Some b → self ∈ dom (heap w).
Proof.
  unfold replay_of. intros H. apply elem_of_dom.
  destruct (heap w !! self); [by eexists | done].
Qed.

Lemma list_of_dom (w : world) (r : ref) (l : list ref) :
  list_of w r = Some l → r ∈ dom (heap w).
Proof.
  unfold list_of. intros H. apply elem_of_dom.
  destruct (heap w !! r); [by eexists | done].
Qed.

Lemma fresh_ne (h : gmap ref obj) (x : ref) : x ∈ dom h → fresh (dom h) ≠ x.
Proof. intros Hx E. subst x. by apply (is_fresh (dom h)). Qed.

Lemma extends_refl (w : world) : extends w w.
Proof. by intros x _. Qed.

Lemma extends_trans (w1 w2 w3 : world) :
  extends w1 w2 → extends w2 w3 → extends w1 w3.
Proof.
  intros H12 H23 x Hx. rewrite H23, H12; [done | done |].
  apply elem_of_dom. rewrite H12 by done. by apply elem_of_dom.
Qed.

Lemma extends_alloc (w : world) (o : obj) :
  extends w (set_heap (insert (fresh (dom (heap w))) o) w).
Proof.
  intros x Hx. simpl. apply lookup_insert_ne. by apply fresh_ne.
Qed.

Lemma extends_replay_of (w w' : world) (self : ref) (b : Replay) :
  extends w w' → replay_of w self = Some b → replay_of w' self = Some b.
Proof.
  intros Hext H. unfold replay_of. rewrite Hext; [done|].
  by eapply replay_of_dom.
Qed.

Lemma extends_list_of (w w' : world) (r : ref) (l : list ref) :
  extends w w' → list_of w r = Some l → list_of w' r = Some l.
Proof.
  intros Hext H. unfold list_of. rewrite Hext; [done|].
  by eapply list_of_dom.
Qed.

Lemma extends_storage_of (w w' : world) (self : ref) (l : list ref) :
  extends w w' → storage_of w self = Some l → storage_of w' self = Some l.
Proof.
  intros Hext (b & Hb & Hl)%storage_of_inv. unfold storage_of.
  rewrite (extends_replay_of _ _ _ _ Hext Hb). simpl.
  by apply (extends_list_of w).
Qed.

Lemma extends_transition_of (w w' : world) (r : ref) (d : gmap string value) :
  extends w w' → transition_of w r = Some d → transition_of w' r = Some d.
Proof.
  intros Hext H. unfold transition_of. rewrite Hext; [done|].
  apply elem_of_dom. unfold transition_of in H.
  destruct (heap w !! r); [by eexists | done].
Qed.

(** What [with_new_replay] creates, and what it leaves alone. *)
Lemma with_new_replay_spec (w : world) (l : list ref) (dev : value) (vec : bool) :
  ∀ r w', with_new_replay w l dev vec = (r, w') →
  (r ∉ dom (heap w))
  ∧ replay_of w' r
    = Some {| _storage := fresh (dom (heap w)); vectorized := vec; device := dev |}
  ∧ (fresh (dom (heap w)) ∉ dom (heap w))
  ∧ storage_of w' r = Some l
  ∧ extends w w'
  ∧ rng w' = rng w ∧ fs w' = fs w.
Proof.
  unfold with_new_replay. intros r0 w0 [= <- <-]. simpl.
  set (s := fresh (dom (heap w))).
  set (r := fresh (dom (<[s:=OList l]> (heap w)))).
  assert (Hs : s ∉ dom (heap w)) by apply is_fresh.
  assert (Hr : r ∉ dom (<[s:=OList l]> (heap w))) by apply is_fresh.
  assert (Hrs : r ≠ s).
  { intros E. apply Hr. rewrite E, dom_insert_L. set_solver. }
  assert (Hrw : r ∉ dom (heap w)).
  { intros E. apply Hr. rewrite dom_insert_L. set_solver. }
  split_and!; try done.
  - unfold replay_of; simpl. by rewrite lookup_insert_eq.
  - unfold storage_of, replay_of, list_of; simpl.
    rewrite lookup_insert_eq. simpl.
    rewrite lookup_insert_ne by done. by rewrite lookup_insert_eq.
  - intros x Hx. simpl.
    rewrite !lookup_insert_ne; [done | congruence | congruence].
Qed.

Lemma run_new_Some (w : world) (s : ref) (dev : value) (vec : bool) :
  run (ExperienceReplay.new (Some s) dev vec) w =
  Return (fresh (dom (heap w)))
    (set_heap (insert (fresh (dom (heap w)))
                 (OReplay {| _storage := s; vectorized := vec; device := dev |})) w).
Proof. reflexivity. Qed.

Lemma run_alloc_new (w : world) (l : list ref) (dev : value) (vec : bool) :
  run (storage ← alloc (OList l); ExperienceReplay.new (Some storage) dev vec) w =
  Return (with_new_replay w l dev vec).1 (with_new_replay w l dev vec).2.
Proof. reflexivity. Qed.

Lemma run_new_None (w : world) (dev : value) (vec : bool) :
  run (ExperienceReplay.new None dev vec) w =
  Return (with_new_replay w [] dev vec).1 (with_new_replay w [] dev vec).2.
Proof. reflexivity. Qed.

Lemma run_len (w : world) (self : ref) (l : list ref) :
  storage_of w self = Some l →
  run (ExperienceReplay.__len__ self) w = Return (Z.of_nat (length l)) w.
Proof.
  intros (b & Hb & Hl)%storage_of_inv. unfold ExperienceReplay.__len__.
  rewrite run_bind, (run_get_replay _ _ _ Hb), run_bind, (run_get_list _ _ _ Hl).
  reflexivity.
Qed.

(** ** Sampling transitions *)

Lemma run_randint_empty (a b : Z) (w : world) :
  (b < a)%Z → run (randint a b) w = Raise ValueError w.
Proof.
  intros H. unfold randint; simpl.
  by rewrite (proj2 (Z.ltb_lt b a) H).
Qed.

Lemma run_randint (a b : Z) (w : world) :
  (a ≤ b)%Z → run (randint a b) w = Return (drawn a b (rng w)) (consume w).
Proof.
  intros H. unfold randint, drawn, consume; simpl.
  rewrite (proj2 (Z.ltb_ge b a) H).
  destruct w as [h [|r tape] f]; simpl; [|done].
  by rewrite Zmod_0_l, Z.add_0_r.
Qed.

Lemma drawn_range (a b : Z) (tape : list Z) :
  (a ≤ b)%Z → (a ≤ drawn a b tape ≤ b)%Z.
Proof.
  intros H. unfold drawn.
  pose proof (Z.mod_pos_bound (hd 0%Z tape) (b - a + 1)%Z). lia.
Qed.

Lemma py_range_length (a b : Z) : length (py_range a b) = Z.to_nat (b - a).
Proof. unfold py_range. by rewrite length_fmap, length_seq. Qed.

Lemma py_range_lookup (a b : Z) (j : nat) :
  (j < Z.to_nat (b - a))%nat → py_range a b !! j = Some (a + Z.of_nat j)%Z.
Proof.
  intros H. unfold py_range. rewrite list_lookup_fmap, lookup_seq_lt by done.
  reflexivity.
Qed.

Lemma py_range_lookup_inv (a b : Z) (j : nat) (i : Z) :
  py_range a b !! j = Some i → i = (a + Z.of_nat j)%Z ∧ (j < Z.to_nat (b - a))%nat.
Proof.
  intros H. assert (Hj : (j < Z.to_nat (b - a))%nat).
  { rewrite <- py_range_length. by eapply lookup_lt_Some. }
  rewrite py_range_lookup in H by done. split; congruence.
Qed.

Lemma py_index_lookup {A : Type} (l : list A) (i : Z) (x : A) :
  (0 ≤ i)%Z → l !! Z.to_nat i = Some x → py_index l i = OK x.
Proof.
  intros Hi Hx. unfold py_index.
  pose proof (lookup_lt_Some _ _ _ Hx) as Hlt.
  rewrite (proj2 (Z.ltb_ge i 0) Hi).
  rewrite (proj2 (Z.leb_le 0 i) Hi). simpl.
  assert (Hb : (i <? Z.of_nat (length l))%Z = true) by (apply Z.ltb_lt; lia).
  by rewrite Hb, Hx.
Qed.

Lemma run_getitem_int (w : world) (self : ref) (l : list ref) (i : Z) (x : ref) :
  storage_of w self = Some l → py_index l i = OK x →
  run (ExperienceReplay.__getitem__ self (KInt i)) w = Return x w.
Proof.
  intros (b & Hb & Hl)%storage_of_inv Hx. unfold ExperienceReplay.__getitem__.
  rewrite run_bind, (run_get_replay _ _ _ Hb), run_bind, (run_get_list _ _ _ Hl).
  simpl. by rewrite Hx.
Qed.

Lemma run_mapM_getitem (w : world) (self : ref) (l : list ref)
    (indices : list Z) (xs : list ref) :
  storage_of w self = Some l →
  Forall2 (fun i x => py_index l i = OK x) indices xs →
  run (mapM (fun idx => ExperienceReplay.__getitem__ self (KInt idx)) indices) w
  = Return xs w.
Proof.
  intros Hs H. induction H as [|i x indices xs Hi _ IH]; [done|].
  change (mapM ?f (i :: indices)) with (y ← f i; k ← mapM f indices; mret (y :: k)).
  rewrite run_bind, (run_getitem_int _ _ _ _ _ Hs Hi), run_bind, IH.
  reflexivity.
Qed.

Lemma run_fill_sample (w : world) (self : ref) (b : Replay) (l : list ref)
    (indices : list Z) (xs : list ref) :
  replay_of w self = Some b → list_of w (_storage b) = Some l →
  Forall2 (fun i x => py_index l i = OK x) indices xs →
  run (ExperienceReplay.fill_sample self indices) w
  = Return (with_new_replay w xs VNone (vectorized b)).1
           (with_new_replay w xs VNone (vectorized b)).2.
Proof.
  intros Hb Hl H. unfold ExperienceReplay.fill_sample.
  assert (Hs : storage_of w self = Some l).
  { unfold storage_of. rewrite Hb. done. }
  rewrite run_bind, (run_mapM_getitem _ _ _ _ _ Hs H), run_bind.
  change (run (alloc (OList xs)) w)
    with (Return (fresh (dom (heap w)))
            (set_heap (insert (fresh (dom (heap w))) (OList xs)) w)).
  cbv beta iota. rewrite run_bind.
  rewrite (run_get_replay _ _ b).
  - reflexivity.
  - eapply extends_replay_of; [apply extends_alloc | done].
Qed.

(** The records at a run of consecutive indices. *)
Lemma window_Forall2 (l : list ref) (start k : Z) :
  (0 ≤ start)%Z → (0 ≤ k)%Z → (start + k ≤ Z.of_nat (length l))%Z →
  Forall2 (fun i x => py_index l i = OK x)
    (py_range start (start + k)) (take (Z.to_nat k) (drop (Z.to_nat start) l)).
Proof.
  intros Hs Hk Hlen. apply Forall2_same_length_lookup_2.
  - rewrite py_range_length, length_take, length_drop. lia.
  - intros j i x Hi Hx.
    apply py_range_lookup_inv in Hi as [-> Hj].
    apply lookup_take_Some in Hx as [Hx _]. rewrite lookup_drop in Hx.
    apply py_index_lookup; [lia|].
    by replace (Z.to_nat (start + Z.of_nat j)) with (Z.to_nat start + j)%nat by lia.
Qed.

(** What [sample] does on a non-empty replay asked for [k >= 1] contiguous
    transitions, whatever the state of the generator. *)
Lemma sample_contiguous_run (w : world) (self : ref) (b : Replay) (l : list ref) (k : Z) :
  replay_of w self = Some b → list_of w (_storage b) = Some l →
  l ≠ [] → (1 ≤ k)%Z →
  let n := Z.of_nat (length l) in
  run (ExperienceReplay.sample self k true false) w =
  if (n - 1 - k <? 0)%Z then Raise ValueError w
  else
    let start := drawn 0 (n - 1 - k) (rng w) in
    let res := with_new_replay (consume w)
                 (take (Z.to_nat k) (drop (Z.to_nat start) l)) VNone (vectorized b) in
    Return res.1 res.2.
Proof.
  intros Hb Hl Hne Hk n.
  assert (Hs : storage_of w self = Some l).
  { unfold storage_of. rewrite Hb. done. }
  assert (Hn : (1 ≤ n)%Z).
  { subst n. destruct l; [done | simpl; lia]. }
  unfold ExperienceReplay.sample, ExperienceReplay.sample_body at 1.
  rewrite run_bind, (run_len _ _ _ Hs). fold n.
  rewrite (proj2 (Z.ltb_ge n 1) Hn), (proj2 (Z.ltb_ge k 1) Hk). cbv beta iota. simpl orb.
  cbv iota. rewrite run_bind, (run_len _ _ _ Hs). fold n. rewrite run_bind.
  destruct (n - 1 - k <? 0)%Z eqn:Hlt.
  - apply Z.ltb_lt in Hlt. rewrite run_bind, run_randint_empty by lia. done.
  - apply Z.ltb_ge in Hlt. rewrite run_bind, run_randint by lia.
    rewrite run_ret.
    pose proof (drawn_range 0 (n - 1 - k) (rng w) Hlt) as Hd.
    set (start := drawn 0 (n - 1 - k) (rng w)) in *.
    apply (run_fill_sample (consume w) self b l); [done | done |].
    apply window_Forall2; lia.
Qed.

(** The guard of [sample]: on an empty replay, or for a size below one,
    the result is a new empty replay and nothing else happens. *)
Lemma sample_guard_run (w : world) (self : ref) (b : Replay) (l : list ref)
    (size : Z) (contiguous episodes : bool) :
  replay_of w self = Some b → list_of w (_storage b) = Some l →
  l = [] ∨ (size < 1)%Z →
  run (ExperienceReplay.sample self size contiguous episodes) w =
  Return (with_new_replay w [] VNone (vectorized b)).1
         (with_new_replay w [] VNone (vectorized b)).2.
Proof.
  intros Hb Hl Hg.
  assert (Hs : storage_of w self = Some l).
  { unfold storage_of. rewrite Hb. done. }
  unfold ExperienceReplay.sample, ExperienceReplay.sample_body at 1.
  rewrite run_bind, (run_len _ _ _ Hs).
  assert (Hguard : ((Z.of_nat (length l) <? 1) || (size <? 1))%Z = true).
  { apply orb_true_iff. destruct Hg as [-> | Hg].
    - by left.
    - right. by apply Z.ltb_lt. }
  cbv beta iota. rewrite Hguard.
  rewrite run_bind, (run_get_replay _ _ _ Hb). apply run_new_None.
Qed.

(** C4. If the buffer is empty or [size < 1], [sample] returns an empty
    Buffer, without raising, for every combination of the [contiguous] and
    [episodes] flags: the result is a new replay over a new empty list,
    with the [vectorized] flag of the source; no object of the world is
    changed and the random generator is not used. *)
Theorem sample_empty_or_no_size (w : world) (self : ref) (l : list ref)
    (size : Z) (contiguous episodes : bool) :
  storage_of w self = Some l →
  l = [] ∨ (size < 1)%Z →
  ∃ r w',
    run (ExperienceReplay.sample self size contiguous episodes) w = Return r w'
    ∧ storage_of w' r = Some []
    ∧ vectorized <$> replay_of w' r = vectorized <$> replay_of w self
    ∧ (r ∉ dom (heap w))
    ∧ extends w w'
    ∧ rng w' = rng w.
Proof.
  intros (b & Hb & Hl)%storage_of_inv Hg.
  destruct (with_new_replay w [] VNone (vectorized b)) as [r w'] eqn:E.
  exists r, w'.
  pose proof (with_new_replay_spec _ _ _ _ _ _ E) as (Hr & Hrb & _ & Hst & Hext & Hrng & _).
  split_and!; try done.
  - rewrite (sample_guard_run _ _ _ _ _ _ _ Hb Hl Hg), E. done.
  - by rewrite Hrb, Hb.
Qed.

Lemma sample_empty_or_no_size_witness :
  ∃ r w',
    run (ExperienceReplay.sample 1 0 true true) (ex_world [7%Z]) = Return r w'
    ∧ storage_of w' r = Some []
    ∧ vectorized <$> replay_of w' r = vectorized <$> replay_of (ex_world [7%Z]) 1
    ∧ (r ∉ dom (heap (ex_world [7%Z])))
    ∧ extends (ex_world [7%Z]) w'
    ∧ rng w' = rng (ex_world [7%Z]).
Proof.
  apply (sample_empty_or_no_size (ex_world [7%Z]) 1 ex_storage 0 true true).
  - vm_compute. reflexivity.
  - right. lia.
Defined.

(** C1, as the code has it.  For every size [k >= 1]: on an empty buffer
    [sample(size=k, contiguous=True)] returns a new empty Buffer and
    draws nothing.  On a non-empty buffer it fails (the [ValueError] of
    [random.randint] on an empty range, nothing being changed) when
    [(len(buffer) - 1) - k < 0]; otherwise [start] is the number that
    [random.randint(0, (len(buffer) - 1) - k)] returns in that state of
    the generator, one number is consumed, and the result is a new Buffer
    of exactly [k] records, the record at position [j] being the one
    stored at index [start + j]: the original indices are the consecutive
    integers from [start] on.  The source is left as it was. *)
Theorem sample_contiguous_window (w : world) (self : ref) (l : list ref) (k : Z) :
  storage_of w self = Some l → (1 ≤ k)%Z →
  let n := Z.of_nat (length l) in
  match l with
  | [] =>
      ∃ r w',
        run (ExperienceReplay.sample self k true false) w = Return r w'
        ∧ storage_of w' r = Some []
        ∧ rng w' = rng w
        ∧ (r ∉ dom (heap w))
        ∧ extends w w'
  | _ :: _ =>
      if (n - 1 - k <? 0)%Z then
        run (ExperienceReplay.sample self k true false) w = Raise ValueError w
      else
        ∃ start w1 r w' l',
          run (randint 0 (n - 1 - k)) w = Return start w1
          ∧ (0 ≤ start ≤ n - 1 - k)%Z
          ∧ run (ExperienceReplay.sample self k true false) w = Return r w'
          ∧ rng w' = rng w1
          ∧ storage_of w' r = Some l'
          ∧ Z.of_nat (length l') = k
          ∧ (∀ j : nat, (Z.of_nat j < k)%Z →
               is_Some (l' !! j) ∧ l' !! j = l !! (Z.to_nat start + j)%nat)
          ∧ (r ∉ dom (heap w))
          ∧ extends w w'
  end.
Proof.
  intros (b & Hb & Hl)%storage_of_inv Hk n.
  destruct l as [|x0 l0] eqn:El.
  - pose proof (sample_guard_run w self b [] k true false Hb Hl (or_introl eq_refl))
      as Hrun.
    destruct (with_new_replay w [] VNone (vectorized b)) as [r w'] eqn:E.
    pose proof (with_new_replay_spec _ _ _ _ _ _ E) as (Hr & _ & _ & Hst & Hext & Hrng & _).
    exists r, w'. split_and!; done.
  - subst n. rewrite <- El in *.
    assert (Hne : l ≠ []) by (by rewrite El).
    pose proof (sample_contiguous_run w self b l k Hb Hl Hne Hk) as Hrun.
    cbv zeta in Hrun. set (n := Z.of_nat (length l)) in *.
    destruct (n - 1 - k <? 0)%Z eqn:Hlt; [done|].
    apply Z.ltb_ge in Hlt.
    pose proof (drawn_range 0 (n - 1 - k) (rng w) Hlt) as Hd.
    set (start := drawn 0 (n - 1 - k) (rng w)) in *.
    set (l' := take (Z.to_nat k) (drop (Z.to_nat start) l)) in *.
    destruct (with_new_replay (consume w) l' VNone (vectorized b)) as [r w'] eqn:E.
    pose proof (with_new_replay_spec _ _ _ _ _ _ E) as (Hr & _ & _ & Hst & Hext & Hrng & _).
    assert (Hlen : length l' = Z.to_nat k).
    { subst l'. rewrite length_take, length_drop. lia. }
    exists start, (consume w), r, w', l'. split_and!.
    + by apply run_randint.
    + lia.
    + lia.
    + rewrite Hrun; try rewrite E; done.
    + done.
    + done.
    + lia.
    + intros j Hj.
      assert (Hlook : l' !! j = l !! (Z.to_nat start + j)%nat).
      { subst l'. rewrite lookup_take_lt by lia. apply lookup_drop. }
      split; [|done]. apply lookup_lt_is_Some. lia.
    + exact Hr.
    + exact Hext.
Qed.

Lemma sample_contiguous_window_witness :
  ∃ start w1 r w' l',
    run (randint 0 (5 - 1 - 2)) (ex_world [7%Z]) = Return start w1
    ∧ (0 ≤ start ≤ 5 - 1 - 2)%Z
    ∧ run (ExperienceReplay.sample 1 2 true false) (ex_world [7%Z]) = Return r w'
    ∧ rng w' = rng w1
    ∧ storage_of w' r = Some l'
    ∧ Z.of_nat (length l') = 2%Z
    ∧ (∀ j : nat, (Z.of_nat j < 2)%Z →
         is_Some (l' !! j) ∧ l' !! j = ex_storage !! (Z.to_nat start + j)%nat)
    ∧ (r ∉ dom (heap (ex_world [7%Z])))
    ∧ extends (ex_world [7%Z]) w'.
Proof.
  apply (sample_contiguous_window (ex_world [7%Z]) 1 ex_storage 2).
  - vm_compute. reflexivity.
  - lia.
Defined.

(** C1 as stated fails on the empty buffer: there [(len - 1) - k < 0], and
    yet the call for [k = 1] contiguous records does not fail; it returns
    a buffer of no record. *)
Lemma sample_contiguous_empty_buffer :
  storage_of ex_empty_world 1 = Some []
  ∧ (Z.of_nat (length (@nil ref)) - 1 - 1 < 0)%Z
  ∧ ∃ r w', run (ExperienceReplay.sample 1 1 true false) ex_empty_world = Return r w'
            ∧ storage_of w' r = Some [].
Proof.
  split; [by vm_compute|]. split; [simpl; lia|].
  eexists _, _. split; [vm_compute; reflexivity|]. by vm_compute.
Qed.

Lemma at_index_py_index (l : list ref) (i : Z) (x : ref) :
  at_index l i x → py_index l i = OK x.
Proof. intros [Hi Hx]. by apply py_index_lookup. Qed.

Lemma window_at_index (l : list ref) (start k : Z) :
  (0 ≤ start)%Z → (0 ≤ k)%Z → (start + k ≤ Z.of_nat (length l))%Z →
  Forall2 (at_index l)
    (py_range start (start + k)) (take (Z.to_nat k) (drop (Z.to_nat start) l)).
Proof.
  intros Hs Hk Hlen. apply Forall2_same_length_lookup_2.
  - rewrite py_range_length, length_take, length_drop. lia.
  - intros j i x Hi Hx.
    apply py_range_lookup_inv in Hi as [-> Hj].
    apply lookup_take_Some in Hx as [Hx _]. rewrite lookup_drop in Hx.
    split; [lia|].
    by replace (Z.to_nat (start + Z.of_nat j)) with (Z.to_nat start + j)%nat by lia.
Qed.

Lemma py_range_bounds (a b i : Z) : i ∈ py_range a b → (a ≤ i < b)%Z.
Proof.
  intros (j & Hj)%list_elem_of_lookup.
  apply py_range_lookup_inv in Hj as [-> Hj]. lia.
Qed.

(** C10. Whatever the random generator gives, contiguous sampling of
    [k >= 1] transitions either fails or returns records whose indices all
    lie in [[0, len(buffer) - 2]]: the record at the last index is never
    selected.  Asking for [k = len(buffer)] records always fails, although
    the indices [0 .. k-1] are all indices of stored records. *)
Theorem contiguous_never_selects_last (w : world) (self : ref) (l : list ref) (k : Z) :
  storage_of w self = Some l → (1 ≤ k)%Z →
  let n := Z.of_nat (length l) in
  (run (ExperienceReplay.sample self k true false) w = Raise ValueError w
   ∨ ∃ indices r w' l',
       run (ExperienceReplay.sample self k true false) w = Return r w'
       ∧ storage_of w' r = Some l'
       ∧ Forall2 (at_index l) indices l'
       ∧ Forall (fun i => 0 ≤ i ≤ n - 2)%Z indices)
  ∧ (k = n →
     run (ExperienceReplay.sample self k true false) w = Raise ValueError w
     ∧ Z.of_nat (length (py_range 0 k)) = k
     ∧ Forall (fun i => ∃ x, at_index l i x) (py_range 0 k)).
Proof.
  intros Hs Hk n. pose proof Hs as (b & Hb & Hl)%storage_of_inv.
  destruct (decide (l = [])) as [-> | Hne].
  - split; [|simpl in n; lia].
    right.
    destruct (with_new_replay w [] VNone (vectorized b)) as [r w'] eqn:E.
    pose proof (with_new_replay_spec _ _ _ _ _ _ E) as (_ & _ & _ & Hst & _).
    exists [], r, w', []. split_and!; [|done|constructor|constructor].
    rewrite (sample_guard_run _ _ _ _ _ _ _ Hb Hl (or_introl eq_refl)), E. done.
  - pose proof (sample_contiguous_run w self b l k Hb Hl Hne Hk) as Hrun.
    cbv zeta in Hrun. fold n in Hrun.
    split.
    + destruct (n - 1 - k <? 0)%Z eqn:Hlt; [by left|right].
      apply Z.ltb_ge in Hlt.
      pose proof (drawn_range 0 (n - 1 - k) (rng w) Hlt) as Hd.
      set (start := drawn 0 (n - 1 - k) (rng w)) in *.
      set (l' := take (Z.to_nat k) (drop (Z.to_nat start) l)) in *.
      destruct (with_new_replay (consume w) l' VNone (vectorized b)) as [r w'] eqn:E.
      pose proof (with_new_replay_spec _ _ _ _ _ _ E) as (_ & _ & _ & Hst & _).
      exists (py_range start (start + k)), r, w', l'. split_and!.
      * rewrite Hrun; try rewrite E; done.
      * done.
      * apply window_at_index; lia.
      * apply Forall_forall. intros i Hi%py_range_bounds. lia.
    + intros ->.
      assert (Hlt : (n - 1 - n <? 0)%Z = true) by (apply Z.ltb_lt; lia).
      rewrite Hlt in Hrun. split_and!; [done| |].
      * rewrite py_range_length. lia.
      * apply Forall_forall. intros i Hi%py_range_bounds.
        destruct (lookup_lt_is_Some_2 l (Z.to_nat i)) as [x Hx]; [lia|].
        exists x. split; [lia | done].
Qed.

Lemma contiguous_never_selects_last_witness :
  (run (ExperienceReplay.sample 1 5 true false) (ex_world [7%Z])
   = Raise ValueError (ex_world [7%Z])
   ∨ ∃ indices r w' l',
       run (ExperienceReplay.sample 1 5 true false) (ex_world [7%Z]) = Return r w'
       ∧ storage_of w' r = Some l'
       ∧ Forall2 (at_index ex_storage) indices l'
       ∧ Forall (fun i => 0 ≤ i ≤ 5 - 2)%Z indices)
  ∧ (5%Z = 5%Z →
     run (ExperienceReplay.sample 1 5 true false) (ex_world [7%Z])
     = Raise ValueError (ex_world [7%Z])
     ∧ Z.of_nat (length (py_range 0 5)) = 5%Z
     ∧ Forall (fun i => ∃ x, at_index ex_storage i x) (py_range 0 5)).
Proof.
  apply (contiguous_never_selects_last (ex_world [7%Z]) 1 ex_storage 5).
  - vm_compute. reflexivity.
  - lia.
Defined.

(** [[random.randint(a, b) for _ in xs]] *)
Lemma run_mapM_randint (a b : Z) (xs : list Z) (w : world) :
  (a ≤ b)%Z →
  run (mapM (fun _ : Z => randint a b) xs) w
  = Return (draws a b (length xs) (rng w)) (consume_n (length xs) w).
Proof.
  intros Hab. revert w. induction xs as [|x xs IH]; intros w.
  - simpl. unfold consume_n. rewrite drop_0. by destruct w.
  - change (mapM ?f (x :: xs)) with (y ← f x; k ← mapM f xs; mret (y :: k)).
    rewrite run_bind, run_randint by done. rewrite run_bind, IH. simpl.
    unfold consume_n, consume. simpl.
    destruct (rng w); simpl; [|done]. by rewrite drop_nil.
Qed.

Lemma draws_length (a b : Z) (k : nat) (tape : list Z) :
  length (draws a b k tape) = k.
Proof. revert tape. induction k; intros; simpl; [done | by rewrite IHk]. Qed.

Lemma draws_range (a b : Z) (k : nat) (tape : list Z) :
  (a ≤ b)%Z → Forall (fun i => a ≤ i ≤ b)%Z (draws a b k tape).
Proof.
  intros Hab. revert tape. induction k; intros; simpl; constructor.
  - by apply drawn_range.
  - apply IHk.
Qed.

(** The [j]-th index drawn depends on the [j]-th number of the generator
    and on nothing else. *)
Lemma draws_lookup (a b : Z) (k : nat) (tape : list Z) (j : nat) :
  (j < k)%nat →
  draws a b k tape !! j = Some (a + nth j tape 0 mod (b - a + 1))%Z.
Proof.
  revert tape j. induction k as [|k IH]; intros tape j Hj; [lia|].
  destruct j as [|j]; simpl.
  - unfold drawn. by destruct tape.
  - rewrite IH by lia. by destruct tape; [destruct j|].
Qed.

(** Every vector of indices of the range is drawn by some generator. *)
Lemma draws_onto (b : Z) (target : list Z) :
  Forall (fun i => 0 ≤ i ≤ b)%Z target →
  draws 0 b (length target) target = target.
Proof.
  induction 1 as [|i target Hi _ IH]; simpl; [done|].
  rewrite IH. f_equal. unfold drawn. simpl.
  rewrite Z.mod_small by lia. lia.
Qed.

Lemma at_index_total (l : list ref) (indices : list Z) :
  Forall (fun i => 0 ≤ i ≤ Z.of_nat (length l) - 1)%Z indices →
  ∃ xs, Forall2 (at_index l) indices xs.
Proof.
  induction 1 as [|i indices Hi _ [xs IH]]; [by exists []|].
  destruct (lookup_lt_is_Some_2 l (Z.to_nat i)) as [x Hx]; [lia|].
  exists (x :: xs). constructor; [|done]. split; [lia | done].
Qed.

(** What [sample] does on a non-empty replay asked for [k >= 1] transitions
    drawn one by one. *)
Lemma sample_uniform_run (w : world) (self : ref) (b : Replay) (l xs : list ref) (k : Z) :
  replay_of w self = Some b → list_of w (_storage b) = Some l →
  l ≠ [] → (1 ≤ k)%Z →
  let n := Z.of_nat (length l) in
  Forall2 (at_index l) (draws 0 (n - 1) (Z.to_nat k) (rng w)) xs →
  run (ExperienceReplay.sample self k false false) w =
  Return (with_new_replay (consume_n (Z.to_nat k) w) xs VNone (vectorized b)).1
         (with_new_replay (consume_n (Z.to_nat k) w) xs VNone (vectorized b)).2.
Proof.
  intros Hb Hl Hne Hk n Hxs.
  assert (Hs : storage_of w self = Some l).
  { unfold storage_of. rewrite Hb. done. }
  assert (Hn : (1 ≤ n)%Z).
  { subst n. destruct l; [done | simpl; lia]. }
  unfold ExperienceReplay.sample, ExperienceReplay.sample_body at 1.
  rewrite run_bind, (run_len _ _ _ Hs). fold n.
  rewrite (proj2 (Z.ltb_ge n 1) Hn), (proj2 (Z.ltb_ge k 1) Hk). cbv beta iota. simpl orb.
  cbv iota. rewrite run_bind, (run_len _ _ _ Hs). fold n. rewrite run_bind.
  rewrite run_mapM_randint by lia.
  rewrite py_range_length, Z.sub_0_r.
  apply (run_fill_sample (consume_n (Z.to_nat k) w) self b l); [done | done |].
  eapply Forall2_impl; [exact Hxs|]. intros i x. apply at_index_py_index.
Qed.

(** C2. On a non-empty buffer and for every size [k >= 1] (so also for
    every [k <= len(buffer)]), [sample(size=k, contiguous=False)] returns
    a new Buffer of exactly [k] records; each one is the record stored at
    an index of [[0, len(buffer) - 1]], the [j]-th index being decided by
    the [j]-th number of the generator alone; and every vector of [k]
    indices of that range, repeated indices included, is the choice made
    under some state of the generator. *)
Theorem sample_with_replacement (w : world) (self : ref) (l : list ref) (k : Z) :
  storage_of w self = Some l → l ≠ [] → (1 ≤ k)%Z →
  let n := Z.of_nat (length l) in
  ∃ indices r w' l',
    run (ExperienceReplay.sample self k false false) w = Return r w'
    ∧ storage_of w' r = Some l'
    ∧ Z.of_nat (length l') = k
    ∧ Forall2 (at_index l) indices l'
    ∧ Forall (fun x => x ∈ l) l'
    ∧ Forall (fun i => 0 ≤ i ≤ n - 1)%Z indices
    ∧ (∀ j : nat, (Z.of_nat j < k)%Z →
         indices !! j = Some (nth j (rng w) 0 mod n)%Z)
    ∧ (∀ target : list Z,
         Z.of_nat (length target) = k →
         Forall (fun i => 0 ≤ i ≤ n - 1)%Z target →
         rng w = target → indices = target)
    ∧ (r ∉ dom (heap w))
    ∧ extends w w'.
Proof.
  intros (b & Hb & Hl)%storage_of_inv Hne Hk n.
  assert (Hn : (1 ≤ n)%Z).
  { subst n. destruct l; [done | simpl; lia]. }
  set (indices := draws 0 (n - 1) (Z.to_nat k) (rng w)).
  assert (Hrange : Forall (fun i => 0 ≤ i ≤ n - 1)%Z indices).
  { apply draws_range. lia. }
  destruct (at_index_total l indices Hrange) as [xs Hxs].
  pose proof (sample_uniform_run w self b l xs k Hb Hl Hne Hk Hxs) as Hrun.
  destruct (with_new_replay (consume_n (Z.to_nat k) w) xs VNone (vectorized b))
    as [r w'] eqn:E.
  pose proof (with_new_replay_spec _ _ _ _ _ _ E) as (Hr & _ & _ & Hst & Hext & _).
  exists indices, r, w', xs. split_and!.
  - rewrite Hrun; try rewrite E; done.
  - done.
  - rewrite <- (Forall2_length _ _ _ Hxs). subst indices. rewrite draws_length. lia.
  - done.
  - clear -Hxs. induction Hxs as [|i x idxs xs [_ Hx] _ IH]; constructor; [|done].
    by eapply list_elem_of_lookup_2.
  - done.
  - intros j Hj. subst indices. rewrite draws_lookup by lia.
    f_equal. rewrite Z.add_0_l. f_equal. lia.
  - intros target Hlen Ht Htape. subst indices. rewrite Htape.
    replace (Z.to_nat k) with (length target) by lia. by apply draws_onto.
  - exact Hr.
  - exact Hext.
Qed.

Lemma sample_with_replacement_witness :
  ∃ indices r w' l',
    run (ExperienceReplay.sample 1 3 false false) (ex_world [4; 4; 0]%Z) = Return r w'
    ∧ storage_of w' r = Some l'
    ∧ Z.of_nat (length l') = 3%Z
    ∧ Forall2 (at_index ex_storage) indices l'
    ∧ Forall (fun x => x ∈ ex_storage) l'
    ∧ Forall (fun i => 0 ≤ i ≤ 5 - 1)%Z indices
    ∧ (∀ j : nat, (Z.of_nat j < 3)%Z →
         indices !! j = Some (nth j [4; 4; 0]%Z 0 mod 5)%Z)
    ∧ (∀ target : list Z,
         Z.of_nat (length target) = 3%Z →
         Forall (fun i => 0 ≤ i ≤ 5 - 1)%Z target →
         [4; 4; 0]%Z = target → indices = target)
    ∧ (r ∉ dom (heap (ex_world [4; 4; 0]%Z)))
    ∧ extends (ex_world [4; 4; 0]%Z) w'.
Proof.
  apply (sample_with_replacement (ex_world [4; 4; 0]%Z) 1 ex_storage 3).
  - vm_compute. reflexivity.
  - unfold ex_storage. discriminate.
  - lia.
Defined.

(** ** Sampling episodes *)

Lemma flag_of_spec (dev : string) (t : tensor) (d : bool) :
  flag_of dev t = Some d → is_flag dev t d.
Proof.
  unfold flag_of, is_flag. case_decide as H; [|done]. destruct H as [Hs Hd].
  destruct (data t) as [|x [|]]; try done.
  - destruct x as [|[p|p|]|p]; intros [= <-]; done.
  - destruct x as [|[p|p|]|p]; done.
Qed.

Lemma done_flag_spec (w : world) (dev : string) (x : ref) (d : bool) :
  done_flag w dev x = Some d →
  ∃ rec t, transition_of w x = Some rec ∧ rec !! "done" = Some (VTensor t)
           ∧ is_flag dev t d.
Proof.
  unfold done_flag. destruct (transition_of w x) as [rec|] eqn:Hrec; simpl; [|done].
  destruct (rec !! "done") as [[ | t | | | | ]|] eqn:Hdone; simpl; try done.
  intros H%flag_of_spec. by exists rec, t.
Qed.

Lemma run_getattr_ref (w : world) (x : ref) (rec : gmap string value)
    (name : string) (v : value) :
  transition_of w x = Some rec → rec !! name = Some v →
  run (Transition.getattr_ref x name) w = Return v w.
Proof.
  unfold transition_of, Transition.getattr_ref. simpl.
  destruct (heap w !! x) as [[d| |]|]; intros [= ->] Hv; simpl.
  unfold Transition.getattr. by rewrite Hv.
Qed.

Lemma done_flags_values (w : world) (dev : string) (l : list ref) (ds : list bool) :
  done_flags w dev l = Some ds →
  ∃ ts, Forall2 (is_flag dev) ts ds
        ∧ run (mapM (fun sars => Transition.getattr_ref sars "done") l) w
          = Return (VTensor <$> ts) w.
Proof.
  unfold done_flags. intros H%mapM_Some.
  induction H as [|x d l ds Hx _ (ts & Hts & IH)].
  - exists []. split; [constructor | done].
  - apply done_flag_spec in Hx as (rec & t & Hrec & Hdone & Hflag).
    exists (t :: ts). split; [by constructor|].
    change (mapM ?f (x :: l)) with (y ← f x; k ← mapM f l; mret (y :: k)).
    rewrite run_bind, (run_getattr_ref _ _ _ _ _ Hrec Hdone), run_bind, IH.
    reflexivity.
Qed.

Lemma mapM_as_tensor (ts : list tensor) : mapM as_tensor (VTensor <$> ts) = OK ts.
Proof.
  induction ts as [|t ts IH]; [done|].
  change (mapM as_tensor (VTensor <$> t :: ts))
    with (y ← as_tensor (VTensor t); k ← mapM as_tensor (VTensor <$> ts); mret (y :: k)).
  simpl. rewrite IH. reflexivity.
Qed.

Lemma flags_concat (dev : string) (ts : list tensor) (ds : list bool) :
  Forall2 (is_flag dev) ts ds →
  concat (data <$> ts) = Z.b2z <$> ds
  ∧ foldr Nat.add 0 ((fun t => hd 0 (shape t)) <$> ts) = length ds
  ∧ ∀ t0, tdevice t0 = dev →
      forallb (fun t => bool_decide (tail (shape t) = [1] ∧ shape t ≠ []
                                     ∧ tdevice t = tdevice t0)) ts = true.
Proof.
  induction 1 as [|t d ts ds (Hs & Hd & Hdev) _ (IH1 & IH2 & IH3)]; [done|].
  split_and!.
  - rewrite !fmap_cons. cbn [concat]. by rewrite Hd, IH1.
  - rewrite !fmap_cons. cbn [foldr length]. by rewrite Hs, IH2.
  - intros t0 H0. cbn [forallb]. rewrite IH3 by done. rewrite andb_true_r.
    apply bool_decide_eq_true. rewrite Hs, Hdev, H0. done.
Qed.

Lemma th_cat_flags (dev : string) (ts : list tensor) (ds : list bool) :
  Forall2 (is_flag dev) ts ds → ts ≠ [] →
  ∃ dt, th_cat (VTensor <$> ts) = OK (stacked_flags dt dev ds).
Proof.
  intros H Hne. unfold th_cat. rewrite mapM_as_tensor. simpl.
  destruct (flags_concat _ _ _ H) as (Hdata & Hsum & Hall).
  destruct H as [|t0 d0 ts ds (Hs & Hd & Hdev) H]; [done|].
  rewrite Hs. rewrite (Hall t0 Hdev). exists (dtype_of t0).
  unfold stacked_flags. by rewrite Hdata, Hsum, Hdev.
Qed.

Lemma run_access_done (w : world) (self : ref) (dev : string)
    (l : list ref) (ds : list bool) :
  storage_of w self = Some l → l ≠ [] → done_flags w dev l = Some ds →
  ∃ dt, run (ExperienceReplay._access_property self "done") w
        = Return (stacked_flags dt dev ds) w.
Proof.
  intros (b & Hb & Hl)%storage_of_inv Hne Hds.
  destruct (done_flags_values _ _ _ _ Hds) as (ts & Hts & Hrun).
  assert (Hlen : length ts = length l).
  { rewrite (Forall2_length _ _ _ Hts). symmetry.
    by eapply Forall2_length, mapM_Some_1. }
  assert (Htne : ts ≠ []) by (destruct ts, l; done).
  destruct (th_cat_flags _ _ _ Hts Htne) as [dt Hcat]. exists dt.
  unfold ExperienceReplay._access_property. rewrite run_bind.
  unfold try_except_AttributeError at 1. cbn [run].
  rewrite run_bind, (run_get_replay _ _ _ Hb), run_bind, (run_get_list _ _ _ Hl), Hrun.
  destruct Hts as [|t0 d0 ts ds (Hs & Hd & Hdev) Hts]; [done|].
  assert (Hv0 : py_index (VTensor <$> t0 :: ts) 0 = OK (VTensor t0)) by done.
  assert (Hmin : _min_size (VTensor t0) = OK [1]).
  { unfold _min_size. by rewrite Hs. }
  assert (Hview : tensor_view (stacked_flags dt dev (d0 :: ds))
                    (length (VTensor <$> t0 :: ts) :: [1])
                  = OK (stacked_flags dt dev (d0 :: ds))).
  { unfold tensor_view, stacked_flags. cbn [shape data dtype_of tdevice].
    rewrite length_fmap. cbn [length]. rewrite (Forall2_length _ _ _ Hts).
    by rewrite bool_decide_eq_true_2. }
  rewrite run_bind, Hv0, run_lift_OK, run_bind, Hmin, run_lift_OK.
  rewrite run_bind, Hcat, run_lift_OK, Hview. apply run_lift_OK.
Qed.

Lemma tensor_sum_flags (dt : dtype) (dev : string) (ds : list bool) :
  tensor_sum (stacked_flags dt dev ds) = Z.of_nat (count_true ds).
Proof.
  unfold tensor_sum, stacked_flags. cbn [data].
  induction ds as [|d ds IH]; [done|].
  rewrite fmap_cons. cbn [foldr count_true]. rewrite IH. destruct d; simpl; lia.
Qed.

Lemma take_1_drop {A : Type} (l : list A) (i : nat) (x : A) :
  l !! i = Some x → take 1 (drop i l) = [x].
Proof.
  revert i. induction l as [|y l IH]; intros [|i] H; try done.
  - injection H as ->. done.
  - simpl. by apply IH.
Qed.

Lemma stacked_getitem (dt : dtype) (dev : string) (ds : list bool) (i : Z) (d : bool) :
  (0 ≤ i)%Z → ds !! Z.to_nat i = Some d →
  tensor_getitem (stacked_flags dt dev ds) i = OK (flag_row dt dev d).
Proof.
  intros Hi Hd. pose proof (lookup_lt_Some _ _ _ Hd) as Hlt.
  unfold tensor_getitem, stacked_flags, flag_row. cbn [shape data dtype_of tdevice].
  rewrite (proj2 (Z.ltb_ge i 0) Hi), (proj2 (Z.leb_le 0 i) Hi).
  assert (Hb : (i <? Z.of_nat (length ds))%Z = true) by (apply Z.ltb_lt; lia).
  rewrite Hb. cbn [andb prod_shape foldr]. rewrite !Nat.mul_1_r.
  rewrite (take_1_drop (Z.b2z <$> ds) (Z.to_nat i) (Z.b2z d)); [done|].
  by rewrite list_lookup_fmap, Hd.
Qed.

Lemma tensor_bool_flag_row (dt : dtype) (dev : string) (d : bool) :
  tensor_bool (flag_row dt dev d) = OK d.
Proof. by destruct d. Qed.

Lemma mapM_OK {A B : Type} (f : A → result B) (l : list A) (k : list B) :
  Forall2 (fun x y => f x = OK y) l k → mapM f l = OK k.
Proof.
  induction 1 as [|x y l k Hx _ IH]; [done|].
  change (mapM f (x :: l)) with (y ← f x; k ← mapM f l; mret (y :: k)).
  by rewrite Hx; simpl; rewrite IH.
Qed.

Lemma tensor_iter_flags (dt : dtype) (dev : string) (ds : list bool) :
  tensor_iter (stacked_flags dt dev ds) = OK (flag_row dt dev <$> ds).
Proof.
  unfold tensor_iter. cbn [stacked_flags shape].
  apply mapM_OK, Forall2_same_length_lookup_2.
  - rewrite py_range_length, length_fmap. lia.
  - intros j i r Hi Hr. apply py_range_lookup_inv in Hi as [-> Hj].
    rewrite list_lookup_fmap in Hr.
    destruct (ds !! j) as [d|] eqn:Hd; [|done]. injection Hr as <-.
    apply stacked_getitem; [lia|]. by rewrite Z.add_0_l, Nat2Z.id.
Qed.

Lemma py_range_snoc (a b : Z) :
  (a ≤ b)%Z → py_range a (b + 1) = py_range a b ++ [b].
Proof.
  intros H. unfold py_range.
  replace (Z.to_nat (b + 1 - a)) with (Z.to_nat (b - a) + 1)%nat by lia.
  rewrite seq_app, fmap_app. simpl. do 2 f_equal. lia.
Qed.

Lemma py_range_nil (a : Z) : py_range a a = [].
Proof. unfold py_range. by rewrite Z.sub_diag. Qed.

Lemma enumerate_snoc {A : Type} (l : list A) (x : A) :
  enumerate (l ++ [x]) = enumerate l ++ [(Z.of_nat (length l), x)].
Proof.
  unfold enumerate. rewrite length_app. simpl.
  replace (Z.of_nat (length l + 1)) with (Z.of_nat (length l) + 1)%Z by lia.
  rewrite py_range_snoc by lia.
  rewrite zip_with_app; [done|].
  rewrite py_range_length. lia.
Qed.

Lemma count_true_app (l k : list bool) :
  count_true (l ++ k) = (count_true l + count_true k)%nat.
Proof. induction l as [|d l IH]; simpl; [done | rewrite IH; lia]. Qed.

(** The first loop stops at the terminal row that has [end_] terminal
    rows after it. *)
Lemma find_end_idx_spec (dt : dtype) (dev : string) (ds : list bool)
    (end_ count : Z) (e : nat) :
  ds !! e = Some true →
  (Z.of_nat (count_true (drop (S e) ds)) + count = end_)%Z →
  ExperienceReplay.find_end_idx (reverse (enumerate (flag_row dt dev <$> ds))) end_ count
  = OK (Some (Z.of_nat e)).
Proof.
  revert count. induction ds as [|d ds IH] using rev_ind; intros count He Hc; [done|].
  rewrite fmap_app. change (flag_row dt dev <$> [d]) with [flag_row dt dev d].
  rewrite enumerate_snoc, reverse_app, length_fmap.
  change (reverse [?x]) with [x]. cbn [app ExperienceReplay.find_end_idx].
  rewrite tensor_bool_flag_row. cbn [mbind result_bind].
  destruct (decide (e = length ds)) as [-> | Hne].
  - rewrite lookup_app_r, Nat.sub_diag in He by lia. injection He as ->.
    rewrite drop_ge in Hc by (rewrite length_app; simpl; lia).
    simpl in Hc. by rewrite (proj2 (Z.geb_le count end_)) by lia.
  - assert (Hlt : (e < length ds)%nat).
    { apply lookup_lt_Some in He. rewrite length_app in He. simpl in He. lia. }
    rewrite lookup_app_l in He by done.
    rewrite drop_app_le, count_true_app in Hc by lia.
    destruct d; simpl in Hc.
    + assert (Hg : (count >=? end_)%Z = false).
      { destruct (Z.geb_spec count end_); [lia | done]. }
      rewrite Hg. apply IH; [done | lia].
    + apply IH; [done | lia].
Qed.

(** A terminal record with exactly [k] terminal records after it exists
    as soon as there are more than [k] terminal records. *)
Lemma nth_terminal_from_end (ds : list bool) (k : nat) :
  (k < count_true ds)%nat →
  ∃ e, ds !! e = Some true ∧ count_true (drop (S e) ds) = k.
Proof.
  induction ds as [|d ds IH]; simpl; [lia|]. intros Hk.
  destruct (decide (k < count_true ds)%nat) as [Hlt | Hge].
  - destruct (IH Hlt) as (e & He & Hc). by exists (S e).
  - destruct d; [|simpl in Hk; lia]. exists 0%nat. split; [done|].
    simpl. rewrite drop_0. simpl in Hk. lia.
Qed.

(** The start of the episode that ends at [e]: every record from it to
    [e - 1] is not terminal, and it follows a terminal record unless it is
    the first record. *)
Lemma episode_start (ds : list bool) (e : nat) :
  (e < length ds)%nat →
  ∃ s, (s ≤ e)%nat
       ∧ (∀ j, (s ≤ j < e)%nat → ds !! j = Some false)
       ∧ (s = 0%nat ∨ ds !! (s - 1)%nat = Some true).
Proof.
  induction e as [|e IH]; intros He.
  - exists 0%nat. split_and!; [lia | intros; lia | by left].
  - destruct (lookup_lt_is_Some_2 ds e) as [d Hd]; [lia|].
    destruct d.
    + exists (S e). split_and!; [lia | intros; lia |].
      right. by replace (S e - 1)%nat with e by lia.
    + destruct IH as (s & Hs & Hfalse & Hprev); [lia|].
      exists s. split_and!; [lia | | done].
      intros j Hj. destruct (decide (j = e)) as [-> | Hne]; [done|].
      apply Hfalse. lia.
Qed.

Lemma reverse_py_range_S (n : nat) :
  reverse (py_range 0 (Z.of_nat (S n))) = Z.of_nat n :: reverse (py_range 0 (Z.of_nat n)).
Proof.
  replace (Z.of_nat (S n)) with (Z.of_nat n + 1)%Z by lia.
  rewrite py_range_snoc by lia. by rewrite reverse_app.
Qed.

(** The second loop, for one episode: it collects the indices down to the
    start of the episode. *)
Lemma fill_indices_one (dt : dtype) (dev : string) (ds : list bool)
    (s m : nat) (acc : list Z) :
  (∀ j, (s ≤ j < s + m)%nat → ds !! j = Some false) →
  (s = 0%nat ∨ ds !! (s - 1)%nat = Some true) →
  ExperienceReplay.fill_indices (stacked_flags dt dev ds)
    (reverse (py_range 0 (Z.of_nat (s + m)))) 1 0 acc
  = OK (py_range (Z.of_nat s) (Z.of_nat (s + m)) ++ acc).
Proof.
  intros Hfalse Hprev. revert acc Hfalse. induction m as [|m IH]; intros acc Hfalse.
  - rewrite Nat.add_0_r, py_range_nil. destruct Hprev as [-> | Hprev]; [done|].
    destruct s as [|s]; [done|]. rewrite reverse_py_range_S.
    cbn [ExperienceReplay.fill_indices].
    rewrite (stacked_getitem dt dev ds (Z.of_nat s) true); [| lia |].
    + cbn [mbind result_bind]. rewrite tensor_bool_flag_row. done.
    + rewrite Nat2Z.id. by replace (S s - 1)%nat with s in Hprev by lia.
  - replace (s + S m)%nat with (S (s + m)) by lia. rewrite reverse_py_range_S.
    cbn [ExperienceReplay.fill_indices].
    rewrite (stacked_getitem dt dev ds (Z.of_nat (s + m)) false); [| lia |].
    + cbn [mbind result_bind]. rewrite tensor_bool_flag_row. cbn [mbind result_bind].
      rewrite IH by (intros; apply Hfalse; lia).
      replace (Z.of_nat (S (s + m))) with (Z.of_nat (s + m) + 1)%Z by lia.
      rewrite py_range_snoc by lia. by rewrite <- app_assoc.
    + rewrite Nat2Z.id. apply Hfalse. lia.
Qed.

Lemma done_flags_length (w : world) (dev : string) (l : list ref) (ds : list bool) :
  done_flags w dev l = Some ds → length ds = length l.
Proof. intros H. symmetry. by eapply length_mapM. Qed.

(** The indices that the episode branch collects for one episode. *)
Lemma run_episode_indices_one (w : world) (self : ref) (dev : string)
    (l : list ref) (ds : list bool) (e s : nat) :
  storage_of w self = Some l → done_flags w dev l = Some ds →
  (1 ≤ count_true ds)%nat →
  ds !! e = Some true →
  Z.of_nat (count_true (drop (S e) ds))
  = drawn 0 (Z.of_nat (count_true ds) - 1) (rng w) →
  (s ≤ e)%nat →
  (∀ j, (s ≤ j < e)%nat → ds !! j = Some false) →
  (s = 0%nat ∨ ds !! (s - 1)%nat = Some true) →
  run (ExperienceReplay.episode_indices self 1) w
  = Return (py_range (Z.of_nat s) (Z.of_nat e + 1)) (consume w).
Proof.
  intros Hs Hds Hcount He Hend Hse Hfalse Hprev.
  assert (Hne : l ≠ []).
  { apply lookup_lt_Some in He. rewrite (done_flags_length _ _ _ _ Hds) in He.
    destruct l; [simpl in He; lia | done]. }
  destruct (run_access_done w self dev l ds Hs Hne Hds) as [dt Hacc].
  destruct (run_access_done (consume w) self dev l ds Hs Hne Hds) as [dt' Hacc'].
  unfold ExperienceReplay.episode_indices, ExperienceReplay.__getattr__.
  rewrite run_bind, Hacc, run_bind, tensor_sum_flags.
  change (1 - 1)%Z with 0%Z.
  rewrite run_randint by lia.
  rewrite run_bind, Hacc', run_bind, tensor_iter_flags, run_lift_OK, run_bind.
  rewrite (find_end_idx_spec dt' dev ds _ 0 e He) by lia.
  rewrite run_lift_OK.
  replace e with (s + (e - s))%nat at 1 by lia.
  rewrite (fill_indices_one dt' dev ds s (e - s) [Z.of_nat e]); [| | done].
  - rewrite run_lift_OK. f_equal.
    replace (s + (e - s))%nat with e by lia.
    by rewrite py_range_snoc by lia.
  - intros j Hj. apply Hfalse. lia.
Qed.

(** C3. On a replay that is not vectorized, whose records carry terminal
    flags of which at least one is set, [sample(size=1, episodes=True)]
    returns a new Buffer made of the records from index [s] to index [e],
    in order, where the record at [e] is terminal (it is the last of the
    sample), no record from [s] to [e - 1] is terminal, and [s] is 0 or
    the index just after a terminal record: exactly one completed episode.
    The terminal record chosen is the one with [end] terminal records
    after it, [end] being the number drawn in [[0, num_episodes - 1]]. *)
Theorem sample_one_episode (w : world) (self : ref) (b : Replay) (dev : string)
    (l : list ref) (ds : list bool) (contiguous : bool) :
  replay_of w self = Some b → vectorized b = false →
  list_of w (_storage b) = Some l →
  done_flags w dev l = Some ds →
  true ∈ ds →
  ∃ (s e : nat) r w' l',
    run (ExperienceReplay.sample self 1 contiguous true) w = Return r w'
    ∧ storage_of w' r = Some l'
    ∧ (s ≤ e < length l)%nat
    ∧ l' = take (e + 1 - s) (drop s l)
    ∧ length l' = (e + 1 - s)%nat
    ∧ last l' = l !! e
    ∧ ds !! e = Some true
    ∧ (∀ j, (s ≤ j < e)%nat → ds !! j = Some false)
    ∧ (s = 0%nat ∨ ds !! (s - 1)%nat = Some true)
    ∧ Z.of_nat (count_true (drop (S e) ds))
      = drawn 0 (Z.of_nat (count_true ds) - 1) (rng w)
    ∧ (r ∉ dom (heap w))
    ∧ extends w w'.
Proof.
  intros Hb Hvec Hl Hds Htrue.
  assert (Hs : storage_of w self = Some l).
  { unfold storage_of. rewrite Hb. done. }
  assert (Hcount : (1 ≤ count_true ds)%nat).
  { clear -Htrue. induction ds as [|d ds IH]; [by apply elem_of_nil in Htrue|].
    apply elem_of_cons in Htrue as [<- | H]; simpl; [lia|].
    specialize (IH H). lia. }
  pose proof (drawn_range 0 (Z.of_nat (count_true ds) - 1) (rng w)) as Hd.
  set (end_ := drawn 0 (Z.of_nat (count_true ds) - 1) (rng w)) in *.
  destruct (nth_terminal_from_end ds (Z.to_nat end_)) as (e & He & Hafter); [lia|].
  assert (Helen : (e < length ds)%nat) by by eapply lookup_lt_Some.
  destruct (episode_start ds e Helen) as (s & Hse & Hfalse & Hprev).
  pose proof (done_flags_length _ _ _ _ Hds) as Hlen.
  assert (Hne : l ≠ []) by (destruct l; [simpl in Hlen; lia | done]).
  set (l' := take (e + 1 - s) (drop s l)).
  destruct (with_new_replay (consume w) l' VNone (vectorized b)) as [r w'] eqn:E.
  pose proof (with_new_replay_spec _ _ _ _ _ _ E) as (Hr & _ & _ & Hst & Hext & _).
  assert (Hl' : length l' = (e + 1 - s)%nat).
  { subst l'. rewrite length_take, length_drop. lia. }
  exists s, e, r, w', l'. split_and!; try done; try lia.
  - unfold ExperienceReplay.sample, ExperienceReplay.sample_body at 1.
    rewrite run_bind, (run_len _ _ _ Hs).
    assert (Hguard : ((Z.of_nat (length l) <? 1) || (1 <? 1))%Z = false).
    { apply orb_false_iff. split; [apply Z.ltb_ge; lia | done]. }
    rewrite Hguard. cbv iota.
    rewrite run_bind, (run_get_replay _ _ _ Hb), Hvec. cbv iota.
    change ((1 <? 1)%Z && negb contiguous) with false. cbv iota.
    rewrite run_bind.
    rewrite (run_episode_indices_one w self dev l ds e s); try done; [|lia].
    rewrite (run_fill_sample (consume w) self b l _ l'); [by rewrite E | done | done |].
    assert (Hwin : Forall2 (at_index l)
                     (py_range (Z.of_nat s) (Z.of_nat s + Z.of_nat (e + 1 - s)))
                     (take (Z.to_nat (Z.of_nat (e + 1 - s)))
                        (drop (Z.to_nat (Z.of_nat s)) l))).
    { apply window_at_index; lia. }
    rewrite !Nat2Z.id in Hwin.
    replace (Z.of_nat s + Z.of_nat (e + 1 - s))%Z with (Z.of_nat e + 1)%Z in Hwin by lia.
    eapply Forall2_impl; [exact Hwin|].
    intros i x. apply at_index_py_index.
  - rewrite last_lookup, Hl'. subst l'.
    rewrite lookup_take_lt by lia. rewrite lookup_drop. f_equal. lia.
Qed.

Lemma sample_one_episode_witness :
  ∃ (s e : nat) r w' l',
    run (ExperienceReplay.sample 1 1 false true) (ex_world [1%Z]) = Return r w'
    ∧ storage_of w' r = Some l'
    ∧ (s ≤ e < length ex_storage)%nat
    ∧ l' = take (e + 1 - s) (drop s ex_storage)
    ∧ length l' = (e + 1 - s)%nat
    ∧ last l' = ex_storage !! e
    ∧ [false; true; false; true; false] !! e = Some true
    ∧ (∀ j, (s ≤ j < e)%nat → [false; true; false; true; false] !! j = Some false)
    ∧ (s = 0%nat ∨ [false; true; false; true; false] !! (s - 1)%nat = Some true)
    ∧ Z.of_nat (count_true (drop (S e) [false; true; false; true; false]))
      = drawn 0 (Z.of_nat (count_true [false; true; false; true; false]) - 1)
          (rng (ex_world [1%Z]))
    ∧ (r ∉ dom (heap (ex_world [1%Z])))
    ∧ extends (ex_world [1%Z]) w'.
Proof.
  apply (sample_one_episode (ex_world [1%Z]) 1 ex_replay "cpu" ex_storage
           [false; true; false; true; false] false).
  - vm_compute. reflexivity.
  - reflexivity.
  - vm_compute. reflexivity.
  - vm_compute. reflexivity.
  - apply list_elem_of_further, list_elem_of_here.
Defined.

(** ** Concatenation *)

Lemma run_add (w : world) (self other : ref) (b o : Replay) (l1 l2 : list ref) :
  replay_of w self = Some b → replay_of w other = Some o →
  list_of w (_storage b) = Some l1 → list_of w (_storage o) = Some l2 →
  run (ExperienceReplay.__add__ self other) w =
  if bool_decide (vectorized b = vectorized o) then
    Return (with_new_replay w (l1 ++ l2) (device b) (vectorized b)).1
           (with_new_replay w (l1 ++ l2) (device b) (vectorized b)).2
  else Raise (AssertionError "Cannot add vectorized and non-vectorized replays.") w.
Proof.
  intros Hb Ho Hl1 Hl2. unfold ExperienceReplay.__add__.
  rewrite run_bind, (run_get_replay _ _ _ Hb), run_bind, (run_get_replay _ _ _ Ho).
  case_bool_decide; [|done].
  rewrite run_bind, (run_get_list _ _ _ Hl1), run_bind, (run_get_list _ _ _ Hl2).
  apply run_alloc_new.
Qed.

(** In-place extension never looks at the [vectorized] flags: it always
    succeeds, and the list of [self] then holds the records of [self]
    followed by those of [other]. *)
Lemma run_iadd (w : world) (self other : ref) (b o : Replay) (l1 l2 : list ref) :
  replay_of w self = Some b → replay_of w other = Some o →
  list_of w (_storage b) = Some l1 → list_of w (_storage o) = Some l2 →
  run (ExperienceReplay.__iadd__ self other) w =
  Return self (set_heap (insert (_storage b) (OList (l1 ++ l2))) w).
Proof.
  intros Hb Ho Hl1 Hl2. unfold ExperienceReplay.__iadd__.
  rewrite run_bind, (run_get_replay _ _ _ Hb), run_bind, (run_get_replay _ _ _ Ho).
  rewrite run_bind, (run_get_list _ _ _ Hl1), run_bind, (run_get_list _ _ _ Hl2).
  reflexivity.
Qed.

(** C5, at a replay that is not vectorized and a vectorized one: [+]
    raises the assertion error and changes nothing, while [+=] returns
    [self], whose storage has received the record of the other replay. *)
Theorem iadd_mixes_vectorized_flags :
  vectorized <$> replay_of ex_mixed_world 1 = Some false
  ∧ vectorized <$> replay_of ex_mixed_world 8 = Some true
  ∧ storage_of ex_mixed_world 1 = Some [2; 3; 4; 5; 6]
  ∧ storage_of ex_mixed_world 8 = Some [9]
  ∧ run (ExperienceReplay.__add__ 1 8) ex_mixed_world
    = Raise (AssertionError "Cannot add vectorized and non-vectorized replays.")
        ex_mixed_world
  ∧ ∃ w', run (ExperienceReplay.__iadd__ 1 8) ex_mixed_world = Return 1 w'
          ∧ storage_of w' 1 = Some [2; 3; 4; 5; 6; 9]
          ∧ vectorized <$> replay_of w' 1 = Some false.
Proof.
  split_and!; try by vm_compute.
  eexists. split_and!; [vm_compute; reflexivity | by vm_compute | by vm_compute].
Qed.

(** ** Batched field access *)

Lemma getattr_ref_cases (w : world) (x : ref) (name : string) :
  (∃ v, run (Transition.getattr_ref x name) w = Return v w)
  ∨ (∃ msg, run (Transition.getattr_ref x name) w = Raise (AttributeError msg) w).
Proof.
  unfold Transition.getattr_ref. cbn [run].
  destruct (heap w !! x) as [[d| |]|]; try (right; by eexists).
  unfold Transition.getattr. destruct (d !! name) as [v|].
  - left. by exists v.
  - destruct (Transition.class_attribute name) as [v|].
    + left. by exists v.
    + right. by eexists.
Qed.

(** The names for which [self.name()] is batched access. *)
Lemma call_attribute_reaches (self : ref) (name : string) :
  name ∉ ExperienceReplay.attribute_names → dunder name = false →
  ExperienceReplay.call_attribute self name
  = Some (ExperienceReplay._access_property self name).
Proof.
  intros Hname Hd. unfold ExperienceReplay.call_attribute.
  by rewrite bool_decide_eq_false_2, Hd by done.
Qed.

Lemma mapM_getattr_ref_raises (w : world) (name : string) (l : list ref) :
  (∃ x msg, x ∈ l
            ∧ run (Transition.getattr_ref x name) w = Raise (AttributeError msg) w) →
  ∃ msg, run (mapM (fun sars => Transition.getattr_ref sars name) l) w
         = Raise (AttributeError msg) w.
Proof.
  induction l as [|y l IH]; intros (x & msg & Hx & Hraise).
  - by apply elem_of_nil in Hx.
  - change (mapM ?f (y :: l)) with (v ← f y; k ← mapM f l; mret (v :: k)).
    rewrite run_bind.
    destruct (getattr_ref_cases w y name) as [[v Hy] | [msg' Hy]]; rewrite Hy.
    + apply elem_of_cons in Hx as [-> | Hx]; [congruence|].
      destruct IH as [msg' IH]; [by exists x, msg|].
      rewrite run_bind, IH. by exists msg'.
    + by exists msg'.
Qed.

(** C6, as the code has it.  Let [name] be a name that normal lookup
    does not find on the Buffer object (it is not one of its attributes
    or methods, nor a name of the object protocol), so that [replay.name()]
    is batched access to the field [name].  On a Buffer without records it
    fails, and the failure is the [IndexError] of reading [values[0]] in
    the empty list of values.  On a Buffer of records of which one lacks
    the field (reading the attribute off it raises [AttributeError]), it
    fails with the [AttributeError] that names the field.  Nothing is
    changed. *)
Theorem access_property_failures (w : world) (self : ref) (l : list ref)
    (records : list (gmap string value)) (name : string) :
  storage_of w self = Some l → records_of w l = Some records →
  name ∉ ExperienceReplay.attribute_names → dunder name = false →
  l = [] ∨ (∃ t msg, t ∈ records
                     ∧ Transition.getattr t name = Err (AttributeError msg)) →
  ∃ m, ExperienceReplay.call_attribute self name = Some m
       ∧ run m w
         = Raise (if decide (l = []) then IndexError
                  else AttributeError ("Attribute " +:+ name +:+ " not in replay.")) w.
Proof.
  intros (b & Hb & Hl)%storage_of_inv Hrecs Hname Hd Hcase.
  exists (ExperienceReplay._access_property self name).
  split; [by apply call_attribute_reaches|].
  unfold ExperienceReplay._access_property.
  rewrite run_bind. unfold try_except_AttributeError at 1. cbn [run].
  rewrite run_bind, (run_get_replay _ _ _ Hb), run_bind, (run_get_list _ _ _ Hl).
  destruct Hcase as [-> | (t & msg & Ht & Hmiss)].
  - reflexivity.
  - apply mapM_Some in Hrecs.
    apply list_elem_of_lookup in Ht as [i Hi].
    destruct (Forall2_lookup_r _ _ _ _ _ Hrecs Hi) as (x & Hx & Hxt).
    assert (Hraise : run (Transition.getattr_ref x name) w = Raise (AttributeError msg) w).
    { unfold Transition.getattr_ref. cbn [run]. unfold transition_of in Hxt.
      destruct (heap w !! x) as [[d| |]|]; try done.
      injection Hxt as ->. by rewrite Hmiss. }
    destruct (mapM_getattr_ref_raises w name l) as [msg' Hraise'].
    { exists x, msg. split; [by eapply list_elem_of_lookup_2 | done]. }
    rewrite Hraise'.
    destruct (decide (l = [])) as [-> | _]; [done | done].
Qed.

Lemma access_property_failures_witness :
  ∃ m, ExperienceReplay.call_attribute 1 "log_prob" = Some m
       ∧ run m (ex_world [])
         = Raise (if decide (ex_storage = []) then IndexError
                  else AttributeError ("Attribute " +:+ "log_prob" +:+ " not in replay."))
             (ex_world []).
Proof.
  apply (access_property_failures (ex_world []) 1 ex_storage
           [ex_record 10 0; ex_record 11 1; ex_record 12 0; ex_record 13 1;
            ex_record 14 0] "log_prob").
  - vm_compute. reflexivity.
  - vm_compute. reflexivity.
  - by_evaluation.
  - reflexivity.
  - right. exists (ex_record 10 0), "'Transition' object has no attribute 'log_prob'".
    split; [apply list_elem_of_here | vm_compute; reflexivity].
Defined.

(** C6 as stated fails: the code has no check for the empty Buffer.  The
    error there is the one raised by the access to the first element of
    the empty list of values. *)
Lemma access_property_empty_buffer :
  storage_of ex_empty_world 1 = Some []
  ∧ (∃ m, ExperienceReplay.call_attribute 1 "state" = Some m
          ∧ run m ex_empty_world = Raise IndexError ex_empty_world)
  ∧ py_index (@nil value) 0 = Err IndexError.
Proof.
  split_and!; [by vm_compute | | by vm_compute].
  eexists. split; [reflexivity | by vm_compute].
Qed.

(** ** Records *)

(** What a usable name is not. *)
Lemma names_ne (f : string) :
  field_name f → f ≠ "device" ∧ f ≠ "_fields" ∧ f ≠ "self".
Proof.
  intros [Hf _]. split_and!; intros ->; apply Hf; by_evaluation.
Qed.

Lemma field_name_not_reserved (f : string) :
  field_name f → f ∉ "_reserved_names" :: Transition._reserved_names.
Proof.
  intros [Hf _] Hin. apply Hf. unfold Transition._reserved_names in Hin.
  repeat (apply elem_of_cons in Hin as [-> | Hin]; [by_evaluation|]).
  by apply elem_of_nil in Hin.
Qed.

Lemma field_name_not_class (f : string) :
  field_name f → f ∉ "_reserved_names" :: Transition.method_names.
Proof.
  intros [Hf _] Hin. apply Hf. unfold Transition.method_names in Hin.
  repeat (apply elem_of_cons in Hin as [-> | Hin]; [by_evaluation|]).
  by apply elem_of_nil in Hin.
Qed.

Lemma core_fields_names : Forall field_name Transition.core_fields.
Proof.
  unfold Transition.core_fields.
  repeat (apply List.Forall_cons; [by_evaluation|]).
  apply List.Forall_nil.
Qed.

(** On a record that holds no attribute [_reserved_names],
    [self._reserved_names] is the tuple of the class. *)
Lemma setattr_unshadowed (self : gmap string value) (name : string) (v : value) :
  self !! "_reserved_names" = None →
  Transition.__setattr__ self name v
  = (self ← (if bool_decide (name ∉ Transition._reserved_names) then
               fields ← Transition.get_fields self;
               if bool_decide (name ∉ fields)
               then OK (<["_fields" := VNames (fields ++ [name])]> self)
               else OK self
             else OK self);
     OK (<[name := v]> self)).
Proof.
  intros H. unfold Transition.__setattr__. unfold Transition.getattr at 1.
  rewrite H. reflexivity.
Qed.

Lemma setattr_reserved (self : gmap string value) (name : string) (v : value) :
  self !! "_reserved_names" = None →
  name ∈ Transition._reserved_names →
  Transition.__setattr__ self name v = OK (<[name := v]> self).
Proof.
  intros Hcls H. rewrite setattr_unshadowed by done.
  by rewrite bool_decide_eq_false_2 by (intros Hn; by apply Hn).
Qed.

Lemma setattr_known (self : gmap string value) (l : list string) (name : string)
    (v : value) :
  self !! "_reserved_names" = None →
  self !! "_fields" = Some (VNames l) → name ∈ l →
  name ∉ Transition._reserved_names →
  Transition.__setattr__ self name v = OK (<[name := v]> self).
Proof.
  intros Hcls Hf Hin Hres. rewrite setattr_unshadowed by done.
  unfold Transition.get_fields, Transition.getattr.
  rewrite bool_decide_eq_true_2 by done. rewrite Hf. cbn [mbind result_bind].
  by rewrite bool_decide_eq_false_2 by (intros Hn; by apply Hn).
Qed.

(** Assigning an attribute of a new name appends the name to the fields. *)
Lemma setattr_new (self : gmap string value) (l : list string) (name : string)
    (v : value) :
  self !! "_reserved_names" = None →
  self !! "_fields" = Some (VNames l) → name ∉ l →
  name ∉ Transition._reserved_names →
  Transition.__setattr__ self name v
  = OK (<[name := v]> (<["_fields" := VNames (l ++ [name])]> self)).
Proof.
  intros Hcls Hf Hin Hres. rewrite setattr_unshadowed by done.
  unfold Transition.get_fields, Transition.getattr.
  rewrite bool_decide_eq_true_2 by done. rewrite Hf. cbn [mbind result_bind].
  by rewrite bool_decide_eq_true_2 by done.
Qed.

Lemma not_reserved_ne (name : string) :
  name ∉ Transition._reserved_names → name ≠ "_fields" ∧ name ≠ "device".
Proof.
  unfold Transition._reserved_names. intros H. split; intros ->; apply H.
  - apply list_elem_of_further, list_elem_of_here.
  - apply list_elem_of_here.
Qed.

Lemma insert_all_cons (k : string) (v : value) (kvs : list (string * value))
    (m : gmap string value) :
  insert_all ((k, v) :: kvs) m = insert_all kvs (<[k := v]> m).
Proof. reflexivity. Qed.

Lemma foldlM_setattr_known (self : gmap string value) (l : list string)
    (kvs : list (string * value)) :
  self !! "_reserved_names" = None →
  self !! "_fields" = Some (VNames l) →
  Forall (fun kv => kv.1 ∈ l ∧ kv.1 ∉ "_reserved_names" :: Transition._reserved_names)
    kvs →
  foldlM (fun self '(key, val) => Transition.__setattr__ self key val) self kvs
  = OK (insert_all kvs self).
Proof.
  intros Hcls Hf H. revert self Hcls Hf.
  induction H as [|[k v] kvs [Hin Hres] _ IH]; intros self Hcls Hf.
  - done.
  - apply not_elem_of_cons in Hres as [Hne Hres]. cbn [fst] in *.
    cbn [foldlM]. rewrite (setattr_known self l k v Hcls Hf Hin Hres).
    cbn [mbind result_bind]. rewrite insert_all_cons, IH; [done | |].
    + by rewrite lookup_insert_ne.
    + rewrite lookup_insert_ne; [done|]. by apply not_reserved_ne in Hres as [? ?].
Qed.

Lemma insert_all_lookup_notin (kvs : list (string * value)) (m : gmap string value)
    (k : string) :
  k ∉ kvs.*1 → insert_all kvs m !! k = m !! k.
Proof.
  revert m. induction kvs as [|[k' v'] kvs IH]; intros m Hk; [done|].
  rewrite fmap_cons in Hk. apply not_elem_of_cons in Hk as [Hne Hk].
  rewrite insert_all_cons, IH by done.
  by rewrite lookup_insert_ne.
Qed.

Lemma insert_all_lookup_in (kvs : list (string * value)) (m : gmap string value)
    (k : string) (v : value) :
  NoDup kvs.*1 → (k, v) ∈ kvs → insert_all kvs m !! k = Some v.
Proof.
  revert m. induction kvs as [|[k' v'] kvs IH]; intros m Hnd Hin.
  - by apply elem_of_nil in Hin.
  - rewrite fmap_cons in Hnd. apply NoDup_cons in Hnd as [Hk' Hnd].
    rewrite insert_all_cons.
    apply elem_of_cons in Hin as [[= -> ->] | Hin].
    + rewrite insert_all_lookup_notin by done. apply lookup_insert_eq.
    + by apply IH.
Qed.

Lemma core_fields_not_reserved :
  Forall (fun f => f ∉ Transition._reserved_names) Transition.core_fields.
Proof.
  unfold Transition.core_fields.
  repeat (apply List.Forall_cons; [by_evaluation|]).
  apply List.Forall_nil.
Qed.

(** What [__init__] builds, for auxiliary names that are new and none of
    the reserved ones. *)
Lemma init_ok (state action reward next_state done device : value)
    (infos : list (string * value)) :
  NoDup (Transition.core_fields ++ infos.*1) →
  Forall (fun f => f ∉ "_reserved_names" :: Transition._reserved_names) infos.*1 →
  Transition.__init__ state action reward next_state done device infos
  = OK (init_dict state action reward next_state done device infos).
Proof.
  intros Hnd Hres. unfold Transition.__init__.
  rewrite setattr_reserved by (done || apply list_elem_of_further, list_elem_of_here).
  cbn [mbind result_bind].
  assert (Hcore :
    foldlM (fun self '(key, val) => Transition.__setattr__ self key val)
      (<["_fields" := VNames Transition.core_fields]> ∅)
      (zip Transition.core_fields [state; action; reward; next_state; done])
    = OK (core_dict state action reward next_state done)).
  { vm_compute. reflexivity. }
  rewrite Hcore. cbn [mbind result_bind].
  assert (Hfields : Transition.get_fields (core_dict state action reward next_state done)
                    = OK Transition.core_fields) by (vm_compute; reflexivity).
  rewrite Hfields. cbn [mbind result_bind].
  assert (Hcls : core_dict state action reward next_state done !! "_reserved_names"
                 = None) by (vm_compute; reflexivity).
  rewrite setattr_reserved by (done || apply list_elem_of_further, list_elem_of_here).
  cbn [mbind result_bind].
  rewrite (foldlM_setattr_known _ (Transition.core_fields ++ infos.*1)).
  - cbn [mbind result_bind].
    rewrite setattr_reserved; [done | | apply list_elem_of_here].
    rewrite insert_all_lookup_notin.
    + by rewrite lookup_insert_ne.
    + intros Hin. rewrite Forall_forall in Hres. apply (Hres _ Hin).
      apply list_elem_of_here.
  - by rewrite lookup_insert_ne.
  - apply lookup_insert_eq.
  - apply Forall_forall. intros [k v] Hkv. cbn [fst]. split.
    + apply elem_of_app. right. apply list_elem_of_fmap. by exists (k, v).
    + rewrite Forall_forall in Hres. apply Hres.
      apply list_elem_of_fmap. by exists (k, v).
Qed.

Lemma wf_record_inv (t : gmap string value) :
  wf_record t →
  ∃ extras,
    t !! "_fields" = Some (VNames (Transition.core_fields ++ extras))
    ∧ NoDup (Transition.core_fields ++ extras)
    ∧ Forall field_name extras
    ∧ dom t = list_to_set ("_fields" :: "device" :: Transition.core_fields ++ extras).
Proof.
  unfold wf_record, record_fields.
  destruct (t !! "_fields") as [[| | |l| |]|]; try done.
  intros (Htake & Hnd & Hnames & Hdom). exists (drop 5 l).
  assert (Hl : Transition.core_fields ++ drop 5 l = l).
  { rewrite <- Htake. apply take_drop. }
  rewrite Hl. split_and!; try done.
  rewrite <- Hl in Hnames. by apply Forall_app in Hnames as [_ ?].
Qed.

Lemma wf_record_field (t : gmap string value) (l : list string) (f : string) :
  dom t = list_to_set ("_fields" :: "device" :: l) → f ∈ l → is_Some (t !! f).
Proof.
  intros Hdom Hf. apply elem_of_dom. rewrite Hdom.
  apply elem_of_list_to_set. by do 2 apply list_elem_of_further.
Qed.

Lemma dict_set_fresh (d : list (string * value)) (k : string) (v : value) :
  k ∉ d.*1 → dict_set d k v = d ++ [(k, v)].
Proof.
  induction d as [|[k' v'] d IH]; intros Hk; [done|].
  rewrite fmap_cons in Hk. apply not_elem_of_cons in Hk as [Hne Hk].
  cbn [dict_set]. destruct (decide (k' = k)) as [-> | _]; [done|].
  cbn [app]. by rewrite IH.
Qed.

(** The keywords that [_apply] collects, field after field. *)
Lemma apply_kwargs (d : gmap string value) (fn : tensor → tensor)
    (acc : list (string * value)) (fields : list string) :
  NoDup fields → (∀ f, f ∈ fields → f ∉ acc.*1) →
  (∀ f, f ∈ fields → is_Some (d !! f)) →
  foldlM (fun nt field =>
            value ← Transition.getattr d field;
            OK (dict_set nt field (map_value fn value)))
    acc fields
  = OK (acc ++ ((fun f => (f, map_value fn (default VNone (d !! f)))) <$> fields)).
Proof.
  intros Hnd. revert acc. induction Hnd as [|f fields Hf Hnd IH]; intros acc Hacc Hsome.
  - cbn [foldlM fmap list_fmap]. by rewrite app_nil_r.
  - cbn [foldlM].
    destruct (Hsome f) as [v Hv]; [apply list_elem_of_here|].
    assert (Hget : Transition.getattr d f = OK v).
    { unfold Transition.getattr. by rewrite Hv. }
    rewrite Hget. cbn [mbind result_bind]. rewrite dict_set_fresh by (apply Hacc, list_elem_of_here).
    rewrite IH.
    + rewrite fmap_cons, Hv. cbn [default]. by rewrite <- app_assoc.
    + intros f' Hf'. rewrite fmap_app. cbn [fmap list_fmap fst].
      intros [Hin | Hin%list_elem_of_singleton]%elem_of_app.
      * by apply (Hacc f'); [apply list_elem_of_further|].
      * by subst f'.
    + intros f' Hf'. by apply Hsome, list_elem_of_further.
Qed.

Lemma fst_tagged {B : Type} (g : string → B) (l : list string) :
  ((fun f => (f, g f)) <$> l).*1 = l.
Proof. induction l as [|x l IH]; [done|]. rewrite !fmap_cons. cbn [fst]. by rewrite IH. Qed.

Lemma filter_tagged_keep {B : Type} (g : string → B) (l bad : list string) :
  Forall (fun f => f ∉ bad) l →
  filter (fun p : string * B => p.1 ∉ bad) ((fun f => (f, g f)) <$> l)
  = (fun f => (f, g f)) <$> l.
Proof.
  induction 1 as [|x l Hx _ IH]; [done|].
  rewrite fmap_cons, filter_cons_True by done. by rewrite IH.
Qed.

(** [Transition] called on the keywords of a record: the device, the five
    core fields, then the other fields. *)
Lemma call_fields (g : string → value) (dev : value) (extras : list string) :
  NoDup (Transition.core_fields ++ extras) →
  Forall field_name extras →
  Transition.call
    (("device", dev) :: ((fun f => (f, g f)) <$> Transition.core_fields ++ extras))
  = OK (init_dict (g "state") (g "action") (g "reward") (g "next_state") (g "done")
          dev ((fun f => (f, g f)) <$> extras)).
Proof.
  intros Hnd Hnames.
  assert (Hne : Forall (fun f => f ≠ "device" ∧ f ≠ "_fields" ∧ f ≠ "self") extras).
  { eapply Forall_impl; [exact Hnames|]. intros f. apply names_ne. }
  apply NoDup_app in Hnd as (_ & Hdisj & Hnd).
  set (tail := (fun f => (f, g f)) <$> extras).
  set (prefix := ("device", dev) :: ((fun f => (f, g f)) <$> Transition.core_fields)).
  assert (Hkw : ("device", dev) :: ((fun f => (f, g f)) <$> Transition.core_fields ++ extras)
                = prefix ++ tail).
  { subst prefix tail. by rewrite fmap_app. }
  rewrite Hkw. unfold Transition.call.
  rewrite bool_decide_eq_false_2.
  2:{ rewrite fmap_app. subst tail. rewrite fst_tagged.
      intros [Hin | Hin]%elem_of_app.
      - revert Hin. by_evaluation.
      - rewrite Forall_forall in Hne. by destruct (Hne _ Hin) as (_ & _ & ?). }
  assert (Hreq : ∀ name, name ∈ "device" :: Transition.core_fields →
                 dict_get (prefix ++ tail) name = dict_get prefix name).
  { intros name Hname. subst prefix.
    repeat (apply elem_of_cons in Hname as [-> | Hname]; [vm_compute; reflexivity|]).
    by apply elem_of_nil in Hname. }
  unfold Transition.required.
  rewrite !Hreq by (by_evaluation).
  subst prefix. cbn [fmap list_fmap Transition.core_fields].
  assert (Hget : ∀ name v rest, dict_get ((name, v) :: rest) name = Some v).
  { intros. cbn [dict_get]. by rewrite decide_True. }
  change (dict_get _ "state") with (Some (g "state")).
  change (dict_get _ "action") with (Some (g "action")).
  change (dict_get _ "reward") with (Some (g "reward")).
  change (dict_get _ "next_state") with (Some (g "next_state")).
  change (dict_get _ "done") with (Some (g "done")).
  change (dict_get _ "device") with (Some dev).
  cbn [mbind result_bind default].
  rewrite filter_app.
  assert (Hpre : filter (fun p : string * value => p.1 ∉ "device" :: Transition.core_fields)
                   [("device", dev); ("state", g "state"); ("action", g "action");
                    ("reward", g "reward"); ("next_state", g "next_state");
                    ("done", g "done")] = []).
  { vm_compute. reflexivity. }
  rewrite Hpre. cbn [app]. subst tail.
  rewrite filter_tagged_keep.
  2:{ apply Forall_forall. intros f Hf [-> | Hin]%elem_of_cons.
      - rewrite Forall_forall in Hne. by destruct (Hne _ Hf) as (? & _).
      - by apply (Hdisj f). }
  apply init_ok.
  - rewrite fst_tagged. apply NoDup_app. split_and!; [|done|done].
    by_evaluation.
  - rewrite fst_tagged. eapply Forall_impl; [exact Hnames|].
    intros f. apply field_name_not_reserved.
Qed.

Lemma core_dict_lookup (s a r ns d : value) (k : string) :
  k ≠ "_fields" →
  core_dict s a r ns d !! k =
  if decide (k = "state") then Some s else
  if decide (k = "action") then Some a else
  if decide (k = "reward") then Some r else
  if decide (k = "next_state") then Some ns else
  if decide (k = "done") then Some d else None.
Proof.
  intros Hk. unfold core_dict. cbn [list_to_map foldr fst snd].
  rewrite lookup_insert_ne by done.
  repeat (rewrite lookup_insert; case_decide;
          [subst k; by rewrite decide_True | rewrite decide_False by congruence]).
  apply lookup_empty.
Qed.

(** The record built from the values of the fields of a well-formed
    record, each one changed by [F], is that record with [F] on every
    attribute and the device tag. *)
Lemma init_dict_mapped (t : gmap string value) (F : value → value)
    (dev : value) (extras : list string) :
  t !! "_fields" = Some (VNames (Transition.core_fields ++ extras)) →
  NoDup (Transition.core_fields ++ extras) →
  Forall field_name extras →
  dom t = list_to_set ("_fields" :: "device" :: Transition.core_fields ++ extras) →
  (∀ l, F (VNames l) = VNames l) →
  let g := fun f => F (default VNone (t !! f)) in
  init_dict (g "state") (g "action") (g "reward") (g "next_state") (g "done") dev
    ((fun f => (f, g f)) <$> extras)
  = <["device" := dev]> (F <$> t).
Proof.
  intros Hf Hnd Hnames Hdom HF g. apply map_eq. intros k.
  unfold init_dict. rewrite fst_tagged.
  destruct (decide (k = "device")) as [-> | Hdev].
  { by rewrite !lookup_insert_eq. }
  rewrite !(lookup_insert_ne _ "device") by done. rewrite lookup_fmap.
  assert (Hg : ∀ f, f ∈ Transition.core_fields ++ extras →
               F <$> t !! f = Some (g f)).
  { intros f Hin. destruct (wf_record_field t _ f Hdom Hin) as [v Hv].
    subst g. cbn beta. by rewrite Hv. }
  apply NoDup_app in Hnd as (_ & Hdisj & Hnd).
  destruct (decide (k ∈ extras)) as [Hin | Hnin].
  { rewrite (insert_all_lookup_in _ _ k (g k)).
    - symmetry. apply Hg, elem_of_app. by right.
    - by rewrite fst_tagged.
    - apply list_elem_of_fmap. by exists k. }
  rewrite insert_all_lookup_notin by (by rewrite fst_tagged).
  destruct (decide (k = "_fields")) as [-> | Hfields].
  { rewrite lookup_insert_eq, Hf. cbn. by rewrite HF. }
  rewrite lookup_insert_ne by done. rewrite core_dict_lookup by done.
  repeat (case_decide;
          [subst k; symmetry; apply Hg, elem_of_app; left;
           by_evaluation|]).
  assert (Hk : k ∉ dom t).
  { rewrite Hdom. rewrite elem_of_list_to_set.
    intros [-> | [-> | [Hin | Hin]%elem_of_app]%elem_of_cons]%elem_of_cons; try done.
    unfold Transition.core_fields in Hin.
    repeat (apply elem_of_cons in Hin as [-> | Hin]; [done|]).
    by apply elem_of_nil in Hin. }
  apply not_elem_of_dom in Hk. by rewrite Hk.
Qed.

Lemma init_dict_transferred (t : gmap string value) (fn : tensor → tensor)
    (dev : value) (extras : list string) :
  t !! "_fields" = Some (VNames (Transition.core_fields ++ extras)) →
  NoDup (Transition.core_fields ++ extras) →
  Forall field_name extras →
  dom t = list_to_set ("_fields" :: "device" :: Transition.core_fields ++ extras) →
  let g := fun f => map_value fn (default VNone (t !! f)) in
  init_dict (g "state") (g "action") (g "reward") (g "next_state") (g "done") dev
    ((fun f => (f, g f)) <$> extras)
  = transferred fn dev t.
Proof.
  intros Hf Hnd Hnames Hdom. by apply init_dict_mapped.
Qed.

Lemma run_alloc (o : obj) (w : world) :
  run (alloc o) w
  = Return (fresh (dom (heap w))) (set_heap (insert (fresh (dom (heap w))) o) w).
Proof. reflexivity. Qed.

(** [_apply] on a well-formed record creates one new object and changes
    no other. *)
Lemma run_apply (w : world) (self : ref) (t : gmap string value)
    (fn : tensor → tensor) (device : value) :
  transition_of w self = Some t → wf_record t →
  let dev := match device with VNone => default VNone (t !! "device") | _ => device end in
  run (Transition._apply self fn device) w
  = Return (fresh (dom (heap w)))
      (set_heap (insert (fresh (dom (heap w))) (OTransition (transferred fn dev t))) w).
Proof.
  intros Ht (extras & Hf & Hnd & Hnames & Hdom)%wf_record_inv dev.
  unfold Transition._apply.
  rewrite run_bind, (run_get_transition _ _ _ Ht), run_bind.
  assert (Hdevice : match device with
                    | VNone => Transition.getattr t "device"
                    | _ => OK device
                    end = OK dev).
  { subst dev. destruct device; try done.
    assert (Hdv : is_Some (t !! "device")).
    { apply elem_of_dom. rewrite Hdom. apply elem_of_list_to_set.
      apply list_elem_of_further, list_elem_of_here. }
    destruct Hdv as [v Hv]. unfold Transition.getattr. by rewrite Hv. }
  rewrite Hdevice, run_lift_OK, run_bind.
  assert (Hfields : Transition.get_fields t = OK (Transition.core_fields ++ extras)).
  { unfold Transition.get_fields, Transition.getattr. by rewrite Hf. }
  rewrite Hfields, run_lift_OK, run_bind.
  rewrite (apply_kwargs t fn [("device", dev)] (Transition.core_fields ++ extras) Hnd).
  - rewrite run_lift_OK. unfold Transition.new.
    cbn [app]. rewrite run_bind, call_fields by done.
    rewrite init_dict_transferred by done. rewrite run_lift_OK. apply run_alloc.
  - intros f Hin [-> | []%elem_of_nil]%elem_of_cons.
    apply elem_of_app in Hin as [Hin | Hin].
    + revert Hin. by_evaluation.
    + rewrite Forall_forall in Hnames. apply (Hnames _ Hin), list_elem_of_here.
  - intros f Hin. by apply (wf_record_field t _ f Hdom).
Qed.

Lemma transferred_fields (fn : tensor → tensor) (dev : value) (t : gmap string value) :
  record_fields (transferred fn dev t) = record_fields t.
Proof.
  unfold record_fields, transferred.
  rewrite lookup_insert_ne by done. rewrite lookup_fmap.
  by destruct (t !! "_fields") as [[]|].
Qed.

Lemma transferred_lookup (fn : tensor → tensor) (dev : value) (t : gmap string value)
    (f : string) :
  f ≠ "device" → transferred fn dev t !! f = map_value fn <$> t !! f.
Proof. intros Hf. unfold transferred. by rewrite lookup_insert_ne, lookup_fmap. Qed.

Lemma transferred_wf (fn : tensor → tensor) (dev : value) (t : gmap string value) :
  wf_record t → wf_record (transferred fn dev t).
Proof.
  unfold wf_record. rewrite transferred_fields.
  destruct (record_fields t) as [l|]; [|done].
  intros (Htake & Hnd & Hnames & Hdom). split_and!; try done.
  unfold transferred. rewrite dom_insert_L, dom_fmap_L, Hdom.
  apply set_eq. intros x. rewrite elem_of_union, elem_of_singleton.
  rewrite !elem_of_list_to_set, !elem_of_cons. tauto.
Qed.

(** A record built by [__init__] is well formed. *)
Lemma init_wf (state action reward next_state done device : value)
    (infos : list (string * value)) :
  NoDup (Transition.core_fields ++ infos.*1) →
  Forall field_name infos.*1 →
  wf_record (init_dict state action reward next_state done device infos).
Proof.
  intros Hnd Hnames.
  assert (Hdom : ∀ kvs (m : gmap string value),
            dom (insert_all kvs m) = dom m ∪ list_to_set kvs.*1).
  { induction kvs as [|[k v] kvs IH]; intros m.
    - cbn. by rewrite union_empty_r_L.
    - rewrite insert_all_cons, IH, dom_insert_L, fmap_cons. cbn [fst].
      rewrite list_to_set_cons. apply set_eq. intros x.
      rewrite !elem_of_union. tauto. }
  assert (Hfields : record_fields (init_dict state action reward next_state done device infos)
                    = Some (Transition.core_fields ++ infos.*1)).
  { unfold record_fields, init_dict. rewrite lookup_insert_ne by done.
    rewrite insert_all_lookup_notin.
    - by rewrite lookup_insert_eq.
    - intros Hin. rewrite Forall_forall in Hnames.
      apply (Hnames _ Hin), list_elem_of_further, list_elem_of_here. }
  unfold wf_record. rewrite Hfields. split_and!.
  - done.
  - done.
  - apply Forall_app. split; [|done].
    unfold Transition.core_fields.
    repeat (apply List.Forall_cons; [by_evaluation|]).
    apply List.Forall_nil.
  - unfold init_dict. rewrite dom_insert_L, Hdom, dom_insert_L.
    assert (Hcore : dom (core_dict state action reward next_state done)
                    = list_to_set ("_fields" :: Transition.core_fields)).
    { unfold core_dict. rewrite dom_list_to_map_L. reflexivity. }
    rewrite Hcore. apply set_eq. intros x.
    rewrite !elem_of_union, !elem_of_singleton, !elem_of_list_to_set.
    rewrite !(elem_of_cons _ x "_fields"), !(elem_of_cons _ x "device"), elem_of_app.
    tauto.
Qed.

(** A well-formed record holds nothing under the name of an attribute of
    its class: the methods and [_reserved_names] are those of the class. *)
Lemma wf_record_unshadowed (t : gmap string value) (name : string) :
  wf_record t → name ∈ "_reserved_names" :: Transition.method_names →
  t !! name = None.
Proof.
  intros (extras & _ & _ & Hnames & Hdom)%wf_record_inv Hname.
  apply not_elem_of_dom. rewrite Hdom. rewrite elem_of_list_to_set.
  intros Hin.
  apply elem_of_cons in Hin as [-> | Hin]; [revert Hname; by_evaluation|].
  apply elem_of_cons in Hin as [-> | Hin]; [revert Hname; by_evaluation|].
  apply elem_of_app in Hin as [Hin | Hin].
  - pose proof core_fields_names as Hcore. rewrite Forall_forall in Hcore.
    by apply (field_name_not_class name (Hcore _ Hin)).
  - rewrite Forall_forall in Hnames.
    by apply (field_name_not_class name (Hnames _ Hin)).
Qed.

Lemma run_call_method {A : Type} (w : world) (self : ref) (t : gmap string value)
    (name : string) (body : M A) :
  transition_of w self = Some t → t !! name = None →
  run (Transition.call_method self name body) w = run body w.
Proof.
  intros Ht Hname. unfold Transition.call_method.
  by rewrite run_bind, (run_get_transition _ _ _ Ht), Hname.
Qed.

(** A record that holds a value under the name of a method cannot be
    sent that method any more. *)
Lemma run_call_method_shadowed {A : Type} (w : world) (self : ref)
    (t : gmap string value) (name : string) (v : value) (body : M A) :
  transition_of w self = Some t → t !! name = Some v →
  run (Transition.call_method self name body) w = Raise TypeError w.
Proof.
  intros Ht Hname. unfold Transition.call_method.
  by rewrite run_bind, (run_get_transition _ _ _ Ht), Hname.
Qed.

(** [sars.to(device, dtype, non_blocking)] on a well-formed record. *)
Lemma run_to (w : world) (self : ref) (t : gmap string value)
    (device : option string) (dt : option dtype) (nb : bool) :
  transition_of w self = Some t → wf_record t →
  run (Transition.call_method self "to" (Transition.to self device dt nb)) w
  = run (Transition._apply self (to_fn device dt nb) (device_value device)) w.
Proof.
  intros Ht Hwf.
  rewrite (run_call_method w self t) by (done || (apply wf_record_unshadowed; [done | by_evaluation])).
  unfold Transition.to.
  by rewrite (run_call_method w self t) by (done || (apply wf_record_unshadowed; [done | by_evaluation])).
Qed.

(** The five operations on a well-formed record: the methods are those
    of the class, and each comes down to [_apply]. *)
Lemma run_record_transfer (w : world) (self : ref) (t : gmap string value)
    (op : transfer) :
  transition_of w self = Some t → wf_record t →
  run (run_transfer op self) w
  = Return (fresh (dom (heap w)))
      (set_heap (insert (fresh (dom (heap w)))
                   (OTransition (transferred (transfer_fn op)
                                   (transfer_tag op (default VNone (t !! "device"))) t)))
         w).
Proof.
  intros Ht Hwf.
  assert (Hcls : ∀ name, name ∈ "_reserved_names" :: Transition.method_names →
                         t !! name = None).
  { intros name. by apply wf_record_unshadowed. }
  destruct op as [[d|] dt nb | | index dt nb | | ]; cbn [run_transfer].
  - rewrite (run_to w self t) by done. exact (run_apply w self t _ _ Ht Hwf).
  - rewrite (run_to w self t) by done. exact (run_apply w self t _ _ Ht Hwf).
  - rewrite (run_call_method w self t) by (done || (apply Hcls; by_evaluation)).
    unfold Transition.cpu. rewrite (run_to w self t) by done.
    exact (run_apply w self t _ _ Ht Hwf).
  - rewrite (run_call_method w self t) by (done || (apply Hcls; by_evaluation)).
    unfold Transition.cuda. rewrite (run_to w self t) by done.
    exact (run_apply w self t _ _ Ht Hwf).
  - rewrite (run_call_method w self t) by (done || (apply Hcls; by_evaluation)).
    unfold Transition.half.
    rewrite (run_call_method w self t) by (done || (apply Hcls; by_evaluation)).
    exact (run_apply w self t _ _ Ht Hwf).
  - rewrite (run_call_method w self t) by (done || (apply Hcls; by_evaluation)).
    unfold Transition.double.
    rewrite (run_call_method w self t) by (done || (apply Hcls; by_evaluation)).
    exact (run_apply w self t _ _ Ht Hwf).
Qed.

(** C7, as the code has it.  On every well-formed record (its fields
    carry usable names: none is [device], [_fields] or [self], none is
    the name of a method of the class or [_reserved_names], which the
    field would hide, none is a name of the object protocol), each of the
    calls [to], [cpu], [cuda], [half] and [double] returns a record that
    is a new object; nothing that existed is changed, so the original
    still has every attribute it had; the new record has the same field
    names in the same order, its device tag is the transformed one, and
    each of its fields is the field of the original, transformed when it
    is a tensor. *)
Theorem transfer_builds_new_record (w : world) (self : ref) (t : gmap string value)
    (op : transfer) :
  transition_of w self = Some t → wf_record t →
  ∃ r' w' t',
    run (run_transfer op self) w = Return r' w'
    ∧ (r' ∉ dom (heap w))
    ∧ heap w' = <[r' := OTransition t']> (heap w)
    ∧ transition_of w' self = Some t
    ∧ extends w w'
    ∧ record_fields t' = record_fields t
    ∧ t' !! "device" = Some (transfer_tag op (default VNone (t !! "device")))
    ∧ (∀ f, f ≠ "device" → t' !! f = map_value (transfer_fn op) <$> t !! f)
    ∧ wf_record t'.
Proof.
  intros Ht Hwf.
  set (tag := transfer_tag op (default VNone (t !! "device"))).
  exists (fresh (dom (heap w))),
    (set_heap (insert (fresh (dom (heap w)))
                 (OTransition (transferred (transfer_fn op) tag t))) w),
    (transferred (transfer_fn op) tag t).
  split_and!.
  - by apply run_record_transfer.
  - apply is_fresh.
  - reflexivity.
  - eapply extends_transition_of; [apply extends_alloc | done].
  - apply extends_alloc.
  - apply transferred_fields.
  - unfold transferred. apply lookup_insert_eq.
  - intros f Hf. by apply transferred_lookup.
  - by apply transferred_wf.
Qed.

Lemma transfer_builds_new_record_witness :
  ∃ r' w' t',
    run (run_transfer (Cuda 1 (Some float64) false) 0) ex_info_world = Return r' w'
    ∧ (r' ∉ dom (heap ex_info_world))
    ∧ heap w' = <[r' := OTransition t']> (heap ex_info_world)
    ∧ transition_of w' 0 = Some ex_info_record
    ∧ extends ex_info_world w'
    ∧ record_fields t' = record_fields ex_info_record
    ∧ t' !! "device"
      = Some (transfer_tag (Cuda 1 (Some float64) false)
                (default VNone (ex_info_record !! "device")))
    ∧ (∀ f, f ≠ "device" →
         t' !! f = map_value (transfer_fn (Cuda 1 (Some float64) false))
                     <$> ex_info_record !! f)
    ∧ wf_record t'.
Proof.
  apply (transfer_builds_new_record ex_info_world 0 ex_info_record
           (Cuda 1 (Some float64) false)).
  - vm_compute. reflexivity.
  - by_evaluation.
Defined.

(** The record of that example is the one [__init__] builds from its
    values, and its copy on the second accelerator in double precision
    has the tensors moved and cast, the object as it was. *)
Example ex_info_record_built :
  Transition.__init__ (scalar 10) (scalar 0) (scalar 1) (scalar 11) (scalar 0) VNone
    [("log_prob", scalar 5); ("density", VObject 7)]
  = OK ex_info_record.
Proof. vm_compute. reflexivity. Qed.

Example ex_info_record_cuda :
  match run (Transition.cuda 0 1 (Some float64) false) ex_info_world with
  | Return r' w' =>
      (transition_of w' r' ≫= (fun t' => t' !! "log_prob"),
       transition_of w' r' ≫= (fun t' => t' !! "density"),
       transition_of w' r' ≫= (fun t' => t' !! "device"),
       transition_of w' 0)
  | Raise _ _ => (None, None, None, None)
  end
  = (Some (VTensor {| shape := [1; 1]; data := [5%Z]; dtype_of := float64;
                      tdevice := "cuda:1" |}),
     Some (VObject 7), Some (VDevice "cuda:1"), Some ex_info_record).
Proof. vm_compute. reflexivity. Qed.

(** A field named like a method hides the method: the record of the
    example, once it has an attribute [to], cannot be moved any more,
    although it still casts. *)
Example ex_shadowed_method :
  match run (Transition.setattr_ref 0 "to" (scalar 3)) ex_info_world with
  | Return _ w1 =>
      (match run (run_transfer Cpu 0) w1 with
       | Raise e _ => Some e
       | Return _ _ => None
       end,
       match run (run_transfer Half 0) w1 with
       | Raise e _ => Some e
       | Return _ _ => None
       end)
  | Raise _ _ => (None, None)
  end
  = (Some TypeError, None).
Proof. vm_compute. reflexivity. Qed.

(** C7 as stated fails in its last part: the field set of a record does
    change after construction.  On the record that [__init__] builds from
    the five core values, assigning the new attribute [log_prob] makes the
    field list one name longer. *)
Lemma setattr_extends_field_set :
  Transition.__init__ (scalar 10) (scalar 0) (scalar 1) (scalar 11) (scalar 0) VNone []
  = OK (ex_record 10 0)
  ∧ transition_of (ex_world []) 2 = Some (ex_record 10 0)
  ∧ record_fields (ex_record 10 0)
    = Some ["state"; "action"; "reward"; "next_state"; "done"]
  ∧ ∃ w', run (Transition.setattr_ref 2 "log_prob" (scalar 3)) (ex_world [])
          = Return () w'
          ∧ transition_of w' 2 ≫= record_fields
            = Some ["state"; "action"; "reward"; "next_state"; "done"; "log_prob"].
Proof.
  split_and!; try (vm_compute; reflexivity).
  eexists. split; vm_compute; reflexivity.
Qed.

(** ** Persistence *)

Lemma run_mapM_get_transition (w : world) (l : list ref)
    (records : list (gmap string value)) :
  records_of w l = Some records → run (mapM get_transition l) w = Return records w.
Proof.
  unfold records_of. intros H%mapM_Some.
  induction H as [|x d l records Hx _ IH]; [done|].
  change (mapM get_transition (x :: l))
    with (y ← get_transition x; k ← mapM get_transition l; mret (y :: k)).
  rewrite run_bind, (run_get_transition _ _ _ Hx), run_bind, IH. reflexivity.
Qed.

(** Loading creates one new object per record read. *)
Lemma run_mapM_alloc (records : list (gmap string value)) (w : world) :
  ∃ refs w',
    run (mapM (fun d => alloc (OTransition d)) records) w = Return refs w'
    ∧ extends w w'
    ∧ records_of w' refs = Some records
    ∧ Forall (fun r => r ∉ dom (heap w)) refs
    ∧ rng w' = rng w ∧ fs w' = fs w.
Proof.
  revert w. induction records as [|d records IH]; intros w.
  - exists [], w. split_and!; first [done | apply extends_refl].
  - set (r := fresh (dom (heap w))).
    set (w1 := set_heap (insert r (OTransition d)) w).
    destruct (IH w1) as (refs & w' & Hrun & Hext & Hrec & Hfresh & Hrng & Hfs).
    assert (Hext1 : extends w w1) by apply extends_alloc.
    exists (r :: refs), w'. split_and!.
    + change (mapM ?f (d :: records)) with (y ← f d; k ← mapM f records; mret (y :: k)).
      rewrite run_bind, run_alloc. fold r. fold w1. rewrite run_bind, Hrun. reflexivity.
    + by eapply extends_trans.
    + unfold records_of in *. apply mapM_Some. constructor.
      * apply (extends_transition_of w1); [done|].
        unfold transition_of, w1. cbn. by rewrite lookup_insert_eq.
      * by apply mapM_Some.
    + constructor; [apply is_fresh|].
      eapply Forall_impl; [exact Hfresh|]. intros x Hx Hin. apply Hx.
      unfold w1. cbn. rewrite dom_insert_L. apply elem_of_union. by right.
    + done.
    + done.
Qed.

(** C9. For a serializer and a reader that round-trip on the records of
    the Buffer, [save] to a path followed by [load] of that path into a
    Buffer gives that Buffer a sequence of records equal, record by record
    and field by field, to the sequence saved.  [save] writes the file and
    changes no object; [load] replaces the sequence of the target by new
    records, and leaves its [vectorized] flag and its device as they
    were. *)
Theorem save_load_roundtrip
    (th_dumps : list (gmap string value) → positive)
    (th_loads : positive → option (list (gmap string value)))
    (w : world) (self target : ref) (path : string)
    (l : list ref) (records : list (gmap string value)) (tb : Replay) :
  storage_of w self = Some l → records_of w l = Some records →
  replay_of w target = Some tb →
  th_loads (th_dumps records) = Some records →
  ∃ w1 w2 l2,
    run (ExperienceReplay.save th_dumps self path) w = Return () w1
    ∧ heap w1 = heap w
    ∧ run (ExperienceReplay.load th_loads target path) w1 = Return () w2
    ∧ storage_of w2 target = Some l2
    ∧ records_of w2 l2 = Some records
    ∧ Forall (fun r => r ∉ dom (heap w)) l2
    ∧ vectorized <$> replay_of w2 target = Some (vectorized tb)
    ∧ device <$> replay_of w2 target = Some (device tb).
Proof.
  intros Hs Hrec Htb Hcodec. pose proof Hs as (b & Hb & Hl)%storage_of_inv.
  set (w1 := {| heap := heap w; rng := rng w;
                fs := <[path := th_dumps records]> (fs w) |}).
  destruct (run_mapM_alloc records w1) as (refs & w2 & Hrun & Hext & Hrec2 & Hfresh & _).
  set (lref := fresh (dom (heap w2))).
  set (w3 := set_heap (insert lref (OList refs)) w2).
  assert (Hext3 : extends w2 w3) by apply extends_alloc.
  assert (Htb3 : replay_of w3 target = Some tb).
  { apply (extends_replay_of w2); [done|]. by apply (extends_replay_of w1). }
  set (w4 := set_heap (insert target
                         (OReplay {| _storage := lref; vectorized := vectorized tb;
                                     device := device tb |})) w3).
  assert (Hne : lref ≠ target).
  { apply fresh_ne. apply (replay_of_dom w2 target tb).
    by apply (extends_replay_of w1). }
  exists w1, w4, refs. split_and!.
  - unfold ExperienceReplay.save.
    rewrite run_bind, (run_get_replay _ _ _ Hb), run_bind, (run_get_list _ _ _ Hl).
    rewrite run_bind, (run_mapM_get_transition _ _ _ Hrec). reflexivity.
  - reflexivity.
  - unfold ExperienceReplay.load. rewrite run_bind. cbn [run].
    unfold w1 at 1. cbn [fs]. rewrite lookup_insert_eq. rewrite Hcodec.
    rewrite run_bind, run_ret, run_bind, Hrun, run_bind, run_alloc.
    fold lref. fold w3. unfold ExperienceReplay.set_storage.
    rewrite run_bind, (run_get_replay _ _ _ Htb3). reflexivity.
  - unfold storage_of, replay_of, list_of, w4, w3. cbn.
    rewrite lookup_insert_eq. cbn.
    rewrite lookup_insert_ne by done. by rewrite lookup_insert_eq.
  - unfold records_of in *. apply mapM_Some.
    apply mapM_Some in Hrec2.
    eapply Forall2_impl; [exact Hrec2|]. intros x d Hx.
    assert (Hxdom : x ∈ dom (heap w2)).
    { apply elem_of_dom. unfold transition_of in Hx.
      destruct (heap w2 !! x); [by eexists | done]. }
    unfold transition_of, w4, w3. cbn.
    rewrite lookup_insert_ne.
    + rewrite lookup_insert_ne; [exact Hx|]. by apply fresh_ne.
    + intros <-. unfold transition_of in Hx.
      apply (extends_replay_of w1 w2) in Htb; [|done].
      unfold replay_of in Htb. by destruct (heap w2 !! target) as [[]|].
  - exact Hfresh.
  - unfold replay_of, w4. cbn. by rewrite lookup_insert_eq.
  - unfold replay_of, w4. cbn. by rewrite lookup_insert_eq.
Qed.

Lemma save_load_roundtrip_witness :
  ∃ w1 w2 l2,
    run (ExperienceReplay.save bits_dumps 8 "replay.pt") ex_mixed_world = Return () w1
    ∧ heap w1 = heap ex_mixed_world
    ∧ run (ExperienceReplay.load bits_loads 1 "replay.pt") w1 = Return () w2
    ∧ storage_of w2 1 = Some l2
    ∧ records_of w2 l2 = Some [ex_vector_record]
    ∧ Forall (fun r => r ∉ dom (heap ex_mixed_world)) l2
    ∧ vectorized <$> replay_of w2 1 = Some (vectorized ex_replay)
    ∧ device <$> replay_of w2 1 = Some (device ex_replay).
Proof.
  apply (save_load_roundtrip bits_dumps bits_loads ex_mixed_world 8 1 "replay.pt" [9]).
  - vm_compute. reflexivity.
  - vm_compute. reflexivity.
  - vm_compute. reflexivity.
  - vm_compute. reflexivity.
Defined.

(** ** Flattening *)

Lemma dict_get_notin (d : list (string * value)) (k : string) :
  k ∉ d.*1 → dict_get d k = None.
Proof.
  induction d as [|[k' v'] d IH]; intros Hk; [done|].
  rewrite fmap_cons in Hk. apply not_elem_of_cons in Hk as [Hne Hk].
  cbn [dict_get]. rewrite decide_False by done. by apply IH.
Qed.

Lemma filter_keep {A : Type} (P : A → Prop) `{!∀ x, Decision (P x)} (l : list A) :
  Forall P l → filter P l = l.
Proof.
  induction 1 as [|x l Hx _ IH]; [done|].
  rewrite filter_cons_True by done. by rewrite IH.
Qed.

(** [Transition] called on the five core values and on [infos], without
    a device. *)
Lemma call_core (s a r ns d : value) (infos : list (string * value)) :
  NoDup (Transition.core_fields ++ infos.*1) →
  Forall field_name infos.*1 →
  Transition.call
    ([("state", s); ("action", a); ("reward", r); ("next_state", ns); ("done", d)]
     ++ infos)
  = OK (init_dict s a r ns d VNone infos).
Proof.
  intros Hnd Hnames.
  pose proof Hnd as (_ & Hdisj & _)%NoDup_app.
  assert (Hne : Forall (fun f => f ≠ "device" ∧ f ≠ "_fields" ∧ f ≠ "self") infos.*1).
  { eapply Forall_impl; [exact Hnames|]. intros f. apply names_ne. }
  unfold Transition.call.
  rewrite bool_decide_eq_false_2.
  2:{ rewrite fmap_app. intros [Hin | Hin]%elem_of_app.
      - revert Hin. by_evaluation.
      - rewrite Forall_forall in Hne. by destruct (Hne _ Hin) as (_ & _ & ?). }
  unfold Transition.required.
  change (dict_get _ "state") with (Some s).
  change (dict_get _ "action") with (Some a).
  change (dict_get _ "reward") with (Some r).
  change (dict_get _ "next_state") with (Some ns).
  change (dict_get _ "done") with (Some d).
  cbn [mbind result_bind].
  assert (Hdev : dict_get
                   ([("state", s); ("action", a); ("reward", r); ("next_state", ns);
                     ("done", d)] ++ infos) "device" = None).
  { change (dict_get _ "device") with (dict_get infos "device").
    apply dict_get_notin. intros Hin. rewrite Forall_forall in Hne.
    by destruct (Hne _ Hin) as (? & _). }
  rewrite Hdev. cbn [default]. rewrite filter_app.
  assert (Hpre : filter (fun p : string * value => p.1 ∉ "device" :: Transition.core_fields)
                   [("state", s); ("action", a); ("reward", r); ("next_state", ns);
                    ("done", d)] = []).
  { vm_compute. reflexivity. }
  rewrite Hpre. cbn [app].
  rewrite filter_keep.
  2:{ apply Forall_forall. intros [k v] Hkv. cbn [fst].
      assert (Hk : k ∈ infos.*1) by (apply list_elem_of_fmap; by exists (k, v)).
      intros [-> | Hin]%elem_of_cons.
      - rewrite Forall_forall in Hne. by destruct (Hne _ Hk) as (? & _).
      - by apply (Hdisj k). }
  apply init_ok; [done|].
  eapply Forall_impl; [exact Hnames|].
  intros f. apply field_name_not_reserved.
Qed.



Lemma append_world_spec (w : world) (lst : ref) (acc : list ref)
    (t1 t2 : gmap string value) (r2 : ref) (w' : world) :
  append_world w lst acc t1 t2 = (r2, w') → list_of w lst = Some acc →
  (r2 ∉ dom (heap w))
  ∧ list_of w' lst = Some (acc ++ [r2])
  ∧ transition_of w' r2 = Some t2
  ∧ extends_except lst w w'
  ∧ rng w' = rng w ∧ fs w' = fs w.
Proof.
  unfold append_world. intros [= <- <-] Hlst. cbn.
  set (r1 := fresh (dom (heap w))).
  set (r2 := fresh (dom (<[r1:=OTransition t1]> (heap w)))).
  assert (Hr1 : r1 ∉ dom (heap w)) by apply is_fresh.
  assert (Hr2 : r2 ∉ dom (<[r1:=OTransition t1]> (heap w))) by apply is_fresh.
  rewrite dom_insert_L in Hr2. apply not_elem_of_union in Hr2 as [Hr21 Hr2].
  assert (Hlst2 : lst ≠ r2).
  { intros ->. by apply Hr2, (list_of_dom w _ acc). }
  split_and!; try done.
  - unfold list_of. cbn. by rewrite lookup_insert_eq.
  - unfold transition_of. cbn. rewrite lookup_insert_ne by done.
    by rewrite lookup_insert_eq.
  - intros x Hx Hne. cbn. rewrite lookup_insert_ne by done.
    rewrite !lookup_insert_ne; [done | congruence | congruence].
Qed.









Lemma replay_list_ne (w : world) (x s : ref) (b : Replay) (l : list ref) :
  replay_of w x = Some b → list_of w s = Some l → x ≠ s.
Proof.
  unfold replay_of, list_of. intros Hx Hs ->.
  by destruct (heap w !! s) as [[]|].
Qed.



Lemma extends_except_replay (s : ref) (w w' : world) (x : ref) (b : Replay)
    (l : list ref) :
  extends_except s w w' → list_of w s = Some l →
  replay_of w x = Some b → replay_of w' x = Some b.
Proof.
  intros Hext Hs Hx. unfold replay_of. rewrite Hext; [done | |].
  - by eapply replay_of_dom.
  - by eapply replay_list_ne.
Qed.



Section flatten_loops.
Variables (flat : ref) (fb : Replay) (envs : nat).
Hypothesis Hvec : vectorized fb = false.
Hypothesis Hdev : device fb = VNone.


End flatten_loops.








(** ** Further properties: indexing, slicing, iteration *)

(** X1. [replay[i]] is the record at index [i] for [0 <= i < len], the
    record at [len + i] for [-len <= i < 0], and an [IndexError] for every
    other [i]; nothing is changed. *)
Theorem getitem_int_bounds (w : world) (self : ref) (l : list ref) (i : Z) :
  storage_of w self = Some l →
  let n := Z.of_nat (length l) in
  if ((- n <=? i) && (i <? n))%Z then
    ∃ x, l !! Z.to_nat (i mod n) = Some x
         ∧ run (ExperienceReplay.__getitem__ self (KInt i)) w = Return x w
  else run (ExperienceReplay.__getitem__ self (KInt i)) w = Raise IndexError w.
Proof.
  intros (b & Hb & Hl)%storage_of_inv n.
  unfold ExperienceReplay.__getitem__.
  rewrite run_bind, (run_get_replay _ _ _ Hb), run_bind, (run_get_list _ _ _ Hl).
  unfold py_index. fold n.
  destruct ((- n <=? i) && (i <? n))%Z eqn:Hin.
  - apply andb_true_iff in Hin as [Hlo%Z.leb_le Hhi%Z.ltb_lt].
    set (j := if (i <? 0)%Z then (i + n)%Z else i).
    assert (Hj : j = (i mod n)%Z ∧ (0 ≤ j < n)%Z).
    { subst j. destruct (Z.ltb_spec i 0).
      - split; [|lia]. apply Z.mod_unique with (q := (-1)%Z); lia.
      - split; [|lia]. symmetry. apply Z.mod_small. lia. }
    destruct Hj as [Hj Hrange]. rewrite <- Hj.
    destruct (lookup_lt_is_Some_2 l (Z.to_nat j)) as [x Hx]; [lia|].
    exists x. split; [done|].
    rewrite (proj2 (Z.leb_le 0 j)) by lia.
    rewrite (proj2 (Z.ltb_lt j n)) by lia. cbn [andb]. by rewrite Hx.
  - set (j := if (i <? 0)%Z then (i + n)%Z else i).
    assert (Hout : ((0 <=? j) && (j <? n))%Z = false).
    { apply andb_false_iff in Hin. apply andb_false_iff. subst j.
      destruct (Z.ltb_spec i 0).
      - left. apply Z.leb_gt. destruct Hin as [Hin%Z.leb_gt | Hin%Z.ltb_ge]; lia.
      - right. apply Z.ltb_ge. destruct Hin as [Hin%Z.leb_gt | Hin%Z.ltb_ge]; lia. }
    by rewrite Hout.
Qed.

Lemma getitem_int_bounds_witness :
  ∃ x, ex_storage !! Z.to_nat (-1 mod 5) = Some x
       ∧ run (ExperienceReplay.__getitem__ 1 (KInt (-1))) (ex_world []) = Return x (ex_world []).
Proof.
  apply (getitem_int_bounds (ex_world []) 1 ex_storage (-1)).
  vm_compute. reflexivity.
Defined.

Lemma py_slice_last {A : Type} (l : list A) (k : Z) :
  (1 ≤ k)%Z → py_slice l (Some (- k)%Z) None = drop (length l - Z.to_nat k) l.
Proof.
  intros Hk. unfold py_slice, slice_bound.
  rewrite (proj2 (Z.ltb_lt (- k) 0)) by lia.
  set (n := Z.of_nat (length l)).
  replace (Z.to_nat (Z.max (- k + n) 0)) with (length l - Z.to_nat k)%nat by lia.
  apply take_ge. rewrite length_drop. lia.
Qed.

(** X2. [replay[-k:]], for [k >= 1], is a new replay over a new list that
    holds the last [k] records of the source, in order (all of them when
    there are fewer), with the device and the [vectorized] flag of the
    source; the source is left as it was. *)
Theorem getitem_last_records (w : world) (self : ref) (b : Replay) (l : list ref) (k : Z) :
  replay_of w self = Some b → list_of w (_storage b) = Some l → (1 ≤ k)%Z →
  ∃ r w' b',
    run (ExperienceReplay.__getitem__ self (KSlice (Some (- k)%Z) None)) w = Return r w'
    ∧ replay_of w' r = Some b'
    ∧ list_of w' (_storage b') = Some (drop (length l - Z.to_nat k) l)
    ∧ device b' = device b ∧ vectorized b' = vectorized b
    ∧ (r ∉ dom (heap w)) ∧ (_storage b' ∉ dom (heap w))
    ∧ extends w w'.
Proof.
  intros Hb Hl Hk.
  destruct (with_new_replay w (drop (length l - Z.to_nat k) l) (device b) (vectorized b))
    as [r w'] eqn:E.
  pose proof (with_new_replay_spec _ _ _ _ _ _ E) as (Hr & Hb' & Hs & Hst & Hext & _).
  eexists r, w', _. split_and!; [| exact Hb' | | done | done | done | done | done].
  - unfold ExperienceReplay.__getitem__.
    rewrite run_bind, (run_get_replay _ _ _ Hb), run_bind, (run_get_list _ _ _ Hl).
    rewrite py_slice_last by done. rewrite run_alloc_new, E. done.
  - unfold storage_of in Hst. by rewrite Hb' in Hst.
Qed.

Lemma getitem_last_records_witness :
  ∃ r w' b',
    run (ExperienceReplay.__getitem__ 1 (KSlice (Some (- 2)%Z) None)) (ex_world [])
    = Return r w'
    ∧ replay_of w' r = Some b'
    ∧ list_of w' (_storage b') = Some (drop (length ex_storage - Z.to_nat 2) ex_storage)
    ∧ device b' = device ex_replay ∧ vectorized b' = vectorized ex_replay
    ∧ (r ∉ dom (heap (ex_world []))) ∧ (_storage b' ∉ dom (heap (ex_world [])))
    ∧ extends (ex_world []) w'.
Proof.
  apply (getitem_last_records (ex_world []) 1 ex_replay ex_storage 2).
  - vm_compute. reflexivity.
  - vm_compute. reflexivity.
  - lia.
Defined.

(** X3. Iterating a replay yields its records in storage order, each one
    once, and changes nothing. *)
Theorem iter_yields_storage (w : world) (self : ref) (l : list ref) :
  storage_of w self = Some l →
  run (ExperienceReplay.__iter__ self) w = Return l w.
Proof.
  intros Hs. unfold ExperienceReplay.__iter__.
  rewrite run_bind, (run_len _ _ _ Hs).
  apply (run_mapM_getitem w self l); [done|].
  pose proof (window_Forall2 l 0 (Z.of_nat (length l))) as H.
  rewrite Z.add_0_l, Nat2Z.id in H. change (Z.to_nat 0) with 0%nat in H.
  rewrite drop_0, firstn_all in H. apply H; lia.
Qed.

Lemma iter_yields_storage_witness :
  run (ExperienceReplay.__iter__ 1) (ex_world [7%Z]) = Return ex_storage (ex_world [7%Z]).
Proof.
  apply (iter_yields_storage (ex_world [7%Z]) 1 ex_storage).
  vm_compute. reflexivity.
Defined.

(** ** Further properties: concatenation and emptying *)

(** X4. [a + b] on two replays with the same [vectorized] flag is a new
    replay over a new list that holds the records of [a] followed by those
    of [b], with the device and the flag of [a]; both operands are left as
    they were.  With different flags it raises the assertion error and
    changes nothing. *)
Theorem add_concatenates (w : world) (self other : ref) (b o : Replay)
    (l1 l2 : list ref) :
  replay_of w self = Some b → replay_of w other = Some o →
  list_of w (_storage b) = Some l1 → list_of w (_storage o) = Some l2 →
  if bool_decide (vectorized b = vectorized o) then
    ∃ r w' b',
      run (ExperienceReplay.__add__ self other) w = Return r w'
      ∧ replay_of w' r = Some b'
      ∧ list_of w' (_storage b') = Some (l1 ++ l2)
      ∧ device b' = device b ∧ vectorized b' = vectorized b
      ∧ (r ∉ dom (heap w)) ∧ (_storage b' ∉ dom (heap w))
      ∧ extends w w'
  else
    run (ExperienceReplay.__add__ self other) w
    = Raise (AssertionError "Cannot add vectorized and non-vectorized replays.") w.
Proof.
  intros Hb Ho Hl1 Hl2. rewrite (run_add w self other b o l1 l2) by done.
  case_bool_decide; [|done].
  destruct (with_new_replay w (l1 ++ l2) (device b) (vectorized b)) as [r w'] eqn:E.
  pose proof (with_new_replay_spec _ _ _ _ _ _ E) as (Hr & Hb' & Hs & Hst & Hext & _).
  eexists r, w', _. split_and!; [done | exact Hb' | | done | done | done | done | done].
  unfold storage_of in Hst. by rewrite Hb' in Hst.
Qed.

Lemma add_concatenates_witness :
  ∃ r w' b',
    run (ExperienceReplay.__add__ 1 7) ex_alias_world = Return r w'
    ∧ replay_of w' r = Some b'
    ∧ list_of w' (_storage b') = Some (ex_storage ++ ex_storage)
    ∧ device b' = device ex_replay ∧ vectorized b' = vectorized ex_replay
    ∧ (r ∉ dom (heap ex_alias_world)) ∧ (_storage b' ∉ dom (heap ex_alias_world))
    ∧ extends ex_alias_world w'.
Proof.
  apply (add_concatenates ex_alias_world 1 7 ex_replay ex_replay ex_storage ex_storage).
  - vm_compute. reflexivity.
  - vm_compute. reflexivity.
  - vm_compute. reflexivity.
  - vm_compute. reflexivity.
Defined.

(** X5. [a += b] writes into the list object of [a]: afterwards that list
    holds the records of [a] followed by those of [b], so [a] and every
    other replay built over the same list (a replay created from
    [a._storage], and [b] itself when it shares it) have the longer
    storage; no new object is created and no other object changes. *)
Theorem iadd_in_place (w : world) (self other : ref) (b o : Replay)
    (l1 l2 : list ref) :
  replay_of w self = Some b → replay_of w other = Some o →
  list_of w (_storage b) = Some l1 → list_of w (_storage o) = Some l2 →
  ∃ w',
    run (ExperienceReplay.__iadd__ self other) w = Return self w'
    ∧ storage_of w' self = Some (l1 ++ l2)
    ∧ (∀ third tb, replay_of w third = Some tb → _storage tb = _storage b →
                   storage_of w' third = Some (l1 ++ l2))
    ∧ dom (heap w') = dom (heap w)
    ∧ (∀ x, x ≠ _storage b → heap w' !! x = heap w !! x).
Proof.
  intros Hb Ho Hl1 Hl2.
  exists (set_heap (insert (_storage b) (OList (l1 ++ l2))) w).
  assert (Hne : ∀ third tb, replay_of w third = Some tb → third ≠ _storage b).
  { intros third tb Ht ->. unfold replay_of, list_of in *.
    destruct (heap w !! _storage b) as [[]|]; done. }
  assert (Hshared : ∀ third tb, replay_of w third = Some tb → _storage tb = _storage b →
            storage_of (set_heap (insert (_storage b) (OList (l1 ++ l2))) w) third
            = Some (l1 ++ l2)).
  { intros third tb Ht Heq. unfold storage_of, replay_of, list_of. simpl.
    rewrite lookup_insert_ne by (intros E; by apply (Hne third tb)).
    unfold replay_of in Ht. destruct (heap w !! third) as [[]|]; try done.
    injection Ht as ->. simpl. rewrite Heq. by rewrite lookup_insert_eq. }
  split_and!.
  - by apply run_iadd with o.
  - by apply Hshared with b.
  - exact Hshared.
  - simpl. rewrite dom_insert_L.
    assert (Hin : _storage b ∈ dom (heap w)) by by eapply list_of_dom.
    apply set_eq. intros x. rewrite elem_of_union, elem_of_singleton.
    split; [intros [-> | Hx]; done | by right].
  - intros x Hx. simpl. by rewrite lookup_insert_ne.
Qed.

Lemma iadd_in_place_witness :
  ∃ w',
    run (ExperienceReplay.__iadd__ 1 1) ex_alias_world = Return 1%nat w'
    ∧ storage_of w' 1 = Some (ex_storage ++ ex_storage)
    ∧ (∀ third tb, replay_of ex_alias_world third = Some tb →
                   _storage tb = _storage ex_replay →
                   storage_of w' third = Some (ex_storage ++ ex_storage))
    ∧ dom (heap w') = dom (heap ex_alias_world)
    ∧ (∀ x, x ≠ _storage ex_replay → heap w' !! x = heap ex_alias_world !! x).
Proof.
  apply (iadd_in_place ex_alias_world 1 1 ex_replay ex_replay ex_storage ex_storage).
  - vm_compute. reflexivity.
  - vm_compute. reflexivity.
  - vm_compute. reflexivity.
  - vm_compute. reflexivity.
Defined.

(** X6. [empty] gives the replay a new empty list and keeps its device
    and its [vectorized] flag; the list it held is not cleared, so every
    other replay, those built over that list included, keeps its records. *)
Theorem empty_rebinds_storage (w : world) (self : ref) (b : Replay) (l : list ref) :
  replay_of w self = Some b → list_of w (_storage b) = Some l →
  ∃ w' b',
    run (ExperienceReplay.empty self) w = Return () w'
    ∧ replay_of w' self = Some b'
    ∧ storage_of w' self = Some []
    ∧ device b' = device b ∧ vectorized b' = vectorized b
    ∧ (_storage b' ∉ dom (heap w))
    ∧ list_of w' (_storage b) = Some l
    ∧ (∀ x, x ∈ dom (heap w) → x ≠ self → heap w' !! x = heap w !! x).
Proof.
  intros Hb Hl.
  set (s := fresh (dom (heap w))).
  assert (Hs : s ∉ dom (heap w)) by apply is_fresh.
  assert (Hself : self ∈ dom (heap w)) by by eapply replay_of_dom.
  assert (Hst : _storage b ∈ dom (heap w)) by by eapply list_of_dom.
  assert (Hne : s ≠ self) by (intros E; by rewrite E in Hs).
  assert (Hne' : _storage b ≠ self).
  { intros E. rewrite E in Hl. unfold replay_of, list_of in *.
    destruct (heap w !! self) as [[]|]; done. }
  assert (Hne'' : _storage b ≠ s) by (intros E; by rewrite E in Hst).
  eexists _, {| _storage := s; vectorized := vectorized b; device := device b |}.
  split_and!.
  - unfold ExperienceReplay.empty, ExperienceReplay.set_storage.
    rewrite run_bind, run_alloc. fold s. rewrite run_bind.
    rewrite (run_get_replay _ _ b); [reflexivity|].
    unfold replay_of in *. simpl. by rewrite lookup_insert_ne by done.
  - unfold replay_of. simpl. by rewrite lookup_insert_eq.
  - unfold storage_of, replay_of, list_of. simpl. rewrite lookup_insert_eq. simpl.
    by rewrite lookup_insert_ne, lookup_insert_eq by done.
  - done.
  - done.
  - done.
  - unfold list_of. simpl. by rewrite !lookup_insert_ne by done.
  - intros x Hx Hxs. simpl. rewrite !lookup_insert_ne; [done | | done].
    intros E. by rewrite <- E in Hx.
Qed.

Lemma empty_rebinds_storage_witness :
  ∃ w' b',
    run (ExperienceReplay.empty 1) ex_alias_world = Return () w'
    ∧ replay_of w' 1 = Some b'
    ∧ storage_of w' 1 = Some []
    ∧ device b' = device ex_replay ∧ vectorized b' = vectorized ex_replay
    ∧ (_storage b' ∉ dom (heap ex_alias_world))
    ∧ list_of w' (_storage ex_replay) = Some ex_storage
    ∧ (∀ x, x ∈ dom (heap ex_alias_world) → x ≠ 1%nat →
            heap w' !! x = heap ex_alias_world !! x).
Proof.
  apply (empty_rebinds_storage ex_alias_world 1 ex_replay ex_storage).
  - vm_compute. reflexivity.
  - vm_compute. reflexivity.
Defined.

(** ** Further properties: sampling episodes *)

(** The second loop of the episode branch in general: it collects the
    indices from [s + m - 1] down to [s] when fewer than [size] terminal
    rows are met on the way and the row before [s], if any, is the
    terminal row that completes the count. *)
Lemma fill_indices_window (dt : dtype) (dev : string) (ds : list bool)
    (size : Z) (s m : nat) (count : Z) (acc : list Z) :
  (s + m ≤ length ds)%nat →
  (Z.of_nat (count_true (take m (drop s ds))) + count < size)%Z →
  (s = 0%nat
   ∨ (ds !! (s - 1)%nat = Some true
      ∧ (size ≤ Z.of_nat (count_true (take m (drop s ds))) + count + 1)%Z)) →
  ExperienceReplay.fill_indices (stacked_flags dt dev ds)
    (reverse (py_range 0 (Z.of_nat (s + m)))) size count acc
  = OK (py_range (Z.of_nat s) (Z.of_nat (s + m)) ++ acc).
Proof.
  revert count acc. induction m as [|m IH]; intros count acc Hlen Hlt Hprev.
  - rewrite Nat.add_0_r, py_range_nil. rewrite take_0 in Hlt, Hprev.
    cbn [count_true] in Hlt, Hprev.
    destruct Hprev as [-> | [Hprev Hsize]]; [done|].
    destruct s as [|s]; [done|]. rewrite reverse_py_range_S.
    cbn [ExperienceReplay.fill_indices].
    rewrite (stacked_getitem dt dev ds (Z.of_nat s) true); [| lia |].
    + cbn [mbind result_bind]. rewrite tensor_bool_flag_row. cbn [mbind result_bind].
      by rewrite (proj2 (Z.geb_le (count + 1) size)) by lia.
    + rewrite Nat2Z.id. by replace (S s - 1)%nat with s in Hprev by lia.
  - destruct (lookup_lt_is_Some_2 ds (s + m)) as [d Hd]; [lia|].
    assert (Htake : take (S m) (drop s ds) = take m (drop s ds) ++ [d]).
    { apply take_S_r. by rewrite lookup_drop. }
    rewrite Htake, count_true_app in Hlt, Hprev. cbn [count_true] in Hlt, Hprev.
    replace (s + S m)%nat with (S (s + m)) by lia. rewrite reverse_py_range_S.
    cbn [ExperienceReplay.fill_indices].
    rewrite (stacked_getitem dt dev ds (Z.of_nat (s + m)) d);
      [| lia | by rewrite Nat2Z.id].
    cbn [mbind result_bind]. rewrite tensor_bool_flag_row. cbn [mbind result_bind].
    replace (Z.of_nat (S (s + m))) with (Z.of_nat (s + m) + 1)%Z by lia.
    rewrite py_range_snoc by lia. rewrite <- app_assoc. cbn [app].
    destruct d.
    + assert (Hg : (count + 1 >=? size)%Z = false).
      { destruct (Z.geb_spec (count + 1) size); [lia | done]. }
      rewrite Hg. apply IH; [lia | lia |].
      destruct Hprev as [-> | [Hprev Hsize]]; [by left | right; split; [done | lia]].
    + apply IH; [lia | lia |].
      destruct Hprev as [-> | [Hprev Hsize]]; [by left | right; split; [done | lia]].
Qed.

(** Walking down from [e], the window that stops just after the
    [(k + 1)]-th terminal record met, or at the first record. *)
Lemma window_start (ds : list bool) (e k : nat) :
  (e ≤ length ds)%nat →
  ∃ s, (s ≤ e)%nat
       ∧ (count_true (take (e - s) (drop s ds)) ≤ k)%nat
       ∧ (s = 0%nat
          ∨ (ds !! (s - 1)%nat = Some true
             ∧ count_true (take (e - s) (drop s ds)) = k)).
Proof.
  intros He.
  assert (Hgen : ∀ n m, (m + n = e)%nat →
            (count_true (take m (drop (e - m) ds)) ≤ k)%nat →
            ∃ s, (s ≤ e)%nat
                 ∧ (count_true (take (e - s) (drop s ds)) ≤ k)%nat
                 ∧ (s = 0%nat
                    ∨ (ds !! (s - 1)%nat = Some true
                       ∧ count_true (take (e - s) (drop s ds)) = k))).
  { induction n as [|n IH]; intros m Hm Hc.
    - exists 0%nat. replace m with e in Hc by lia.
      rewrite Nat.sub_diag in Hc. rewrite Nat.sub_0_r.
      split_and!; [lia | done | by left].
    - destruct (lookup_lt_is_Some_2 ds (e - m - 1)) as [d Hd]; [lia|].
      destruct (decide (d = true ∧ count_true (take m (drop (e - m) ds)) = k))
        as [[-> Hk] | Hno].
      + exists (e - m)%nat. replace (e - (e - m))%nat with m by lia.
        split_and!; [lia | done | by right].
      + apply (IH (S m)); [lia|].
        replace (e - S m)%nat with (e - m - 1)%nat by lia.
        rewrite (drop_S _ _ _ Hd). replace (S (e - m - 1)) with (e - m)%nat by lia.
        cbn [take count_true]. destruct d; [|simpl; lia].
        assert (count_true (take m (drop (e - m) ds)) ≠ k) by (intros E; by apply Hno).
        lia. }
  apply (Hgen e 0%nat); [lia|]. simpl. lia.
Qed.

Lemma count_true_split (ds : list bool) (e : nat) :
  ds !! e = Some true →
  count_true ds = (count_true (take e ds) + 1 + count_true (drop (S e) ds))%nat.
Proof.
  intros He. rewrite <- (take_drop e ds) at 1.
  rewrite count_true_app, (drop_S _ _ _ He). simpl. lia.
Qed.

(** The window of [size] episodes that the episode branch selects. *)
Lemma episode_window_exists (ds : list bool) (size : Z) (tape : list Z) :
  (1 ≤ size)%Z → (2 * size - 1 ≤ Z.of_nat (count_true ds))%Z →
  ∃ s e,
    (s ≤ e < length ds)%nat
    ∧ ds !! e = Some true
    ∧ Z.of_nat (count_true (drop (S e) ds))
      = drawn (size - 1) (Z.of_nat (count_true ds) - size) tape
    ∧ count_true (take (e - s) (drop s ds)) = Z.to_nat (size - 1)
    ∧ (s = 0%nat ∨ ds !! (s - 1)%nat = Some true).
Proof.
  intros Hsize Hnum.
  pose proof (drawn_range (size - 1) (Z.of_nat (count_true ds) - size) tape) as Hd.
  set (end_ := drawn (size - 1) (Z.of_nat (count_true ds) - size) tape) in *.
  destruct (nth_terminal_from_end ds (Z.to_nat end_)) as (e & He & Hafter); [lia|].
  assert (Helen : (e < length ds)%nat) by by eapply lookup_lt_Some.
  pose proof (count_true_split ds e He) as Hsplit.
  destruct (window_start ds e (Z.to_nat (size - 1))) as (s & Hse & Hle & Hprev); [lia|].
  exists s, e. split_and!; [lia | lia | done | lia | |].
  - destruct Hprev as [-> | [_ Heq]]; [|done].
    rewrite Nat.sub_0_r, drop_0 in Hle |- *. lia.
  - destruct Hprev as [-> | [Hprev _]]; [by left | by right].
Qed.

Lemma run_episode_indices (w : world) (self : ref) (dev : string)
    (l : list ref) (ds : list bool) (size : Z) (e s : nat) :
  storage_of w self = Some l → done_flags w dev l = Some ds →
  (1 ≤ size)%Z → (2 * size - 1 ≤ Z.of_nat (count_true ds))%Z →
  ds !! e = Some true →
  Z.of_nat (count_true (drop (S e) ds))
  = drawn (size - 1) (Z.of_nat (count_true ds) - size) (rng w) →
  (s ≤ e)%nat →
  count_true (take (e - s) (drop s ds)) = Z.to_nat (size - 1) →
  (s = 0%nat ∨ ds !! (s - 1)%nat = Some true) →
  run (ExperienceReplay.episode_indices self size) w
  = Return (py_range (Z.of_nat s) (Z.of_nat e + 1)) (consume w).
Proof.
  intros Hs Hds Hsize Hnum He Hend Hse Hcount Hprev.
  assert (Helen : (e < length ds)%nat) by by eapply lookup_lt_Some.
  assert (Hne : l ≠ []).
  { rewrite (done_flags_length _ _ _ _ Hds) in Helen.
    destruct l; [simpl in Helen; lia | done]. }
  destruct (run_access_done w self dev l ds Hs Hne Hds) as [dt Hacc].
  destruct (run_access_done (consume w) self dev l ds Hs Hne Hds) as [dt' Hacc'].
  unfold ExperienceReplay.episode_indices, ExperienceReplay.__getattr__.
  rewrite run_bind, Hacc, run_bind, tensor_sum_flags.
  rewrite run_randint by lia.
  rewrite run_bind, Hacc', run_bind, tensor_iter_flags, run_lift_OK, run_bind.
  rewrite (find_end_idx_spec dt' dev ds _ 0 e He) by lia.
  rewrite run_lift_OK.
  replace e with (s + (e - s))%nat at 1 by lia.
  rewrite (fill_indices_window dt' dev ds size s (e - s) 0 [Z.of_nat e]).
  - rewrite run_lift_OK. f_equal.
    replace (s + (e - s))%nat with e by lia.
    by rewrite py_range_snoc by lia.
  - lia.
  - lia.
  - destruct Hprev as [-> | Hprev]; [by left | right; split; [done | lia]].
Qed.

(** One level of the body of [sample] on the branch that collects
    contiguous episodes; it makes no call of [self.sample]. *)
Lemma run_sample_body_episodes (rec : ref → Z → bool → bool → M ref)
    (w : world) (self : ref) (b : Replay) (dev : string)
    (l : list ref) (ds : list bool) (size : Z) (contiguous : bool) (e s : nat) :
  replay_of w self = Some b → vectorized b = false →
  list_of w (_storage b) = Some l →
  done_flags w dev l = Some ds →
  (1 ≤ size)%Z → contiguous = true ∨ size = 1%Z →
  (2 * size - 1 ≤ Z.of_nat (count_true ds))%Z →
  ds !! e = Some true →
  Z.of_nat (count_true (drop (S e) ds))
  = drawn (size - 1) (Z.of_nat (count_true ds) - size) (rng w) →
  (s ≤ e)%nat →
  count_true (take (e - s) (drop s ds)) = Z.to_nat (size - 1) →
  (s = 0%nat ∨ ds !! (s - 1)%nat = Some true) →
  run (ExperienceReplay.sample_body rec self size contiguous true) w
  = Return (with_new_replay (consume w) (window l (s, e)) VNone false).1
           (with_new_replay (consume w) (window l (s, e)) VNone false).2.
Proof.
  intros Hb Hvec Hl Hds Hsize Hmode Hnum He Hend Hse Hcount Hprev.
  assert (Hs : storage_of w self = Some l).
  { unfold storage_of. rewrite Hb. done. }
  pose proof (done_flags_length _ _ _ _ Hds) as Hlen.
  assert (Helen : (e < length ds)%nat) by by eapply lookup_lt_Some.
  unfold ExperienceReplay.sample_body.
  rewrite run_bind, (run_len _ _ _ Hs).
  assert (Hguard : ((Z.of_nat (length l) <? 1) || (size <? 1))%Z = false).
  { apply orb_false_iff. split; apply Z.ltb_ge; lia. }
  rewrite Hguard. cbv iota.
  rewrite run_bind, (run_get_replay _ _ _ Hb), Hvec. cbv iota.
  assert (Hbranch : ((1 <? size)%Z && negb contiguous) = false).
  { destruct Hmode as [-> | ->]; [apply andb_false_r | done]. }
  rewrite Hbranch. cbv iota.
  rewrite run_bind.
  rewrite (run_episode_indices w self dev l ds size e s) by done.
  rewrite (run_fill_sample (consume w) self b l _ (window l (s, e))); [| done | done |].
  - by rewrite Hvec.
  - assert (Hwin : Forall2 (at_index l)
                     (py_range (Z.of_nat s) (Z.of_nat s + Z.of_nat (e + 1 - s)))
                     (take (Z.to_nat (Z.of_nat (e + 1 - s)))
                        (drop (Z.to_nat (Z.of_nat s)) l))).
    { apply window_at_index; lia. }
    rewrite !Nat2Z.id in Hwin.
    replace (Z.of_nat s + Z.of_nat (e + 1 - s))%Z with (Z.of_nat e + 1)%Z in Hwin by lia.
    eapply Forall2_impl; [exact Hwin|].
    intros i x. apply at_index_py_index.
Qed.

Lemma episodes_window_intro (ds : list bool) (k s e : nat) :
  (s ≤ e)%nat → ds !! e = Some true →
  count_true (take (e - s) (drop s ds)) = k →
  (s = 0%nat ∨ ds !! (s - 1)%nat = Some true) →
  episodes_window ds (S k) (s, e).
Proof.
  intros Hse He Hc Hprev. unfold episodes_window, window. cbn [fst snd].
  split_and!; [done | done | | done].
  replace (e + 1 - s)%nat with (S (e - s)) by lia.
  rewrite (take_S_r _ _ true).
  - rewrite count_true_app, Hc. simpl. lia.
  - rewrite lookup_drop. by replace (s + (e - s))%nat with e by lia.
Qed.

(** X7. On a replay that is not vectorized, whose records carry terminal
    flags of which at least [2 * size - 1] are set,
    [sample(size, contiguous=True, episodes=True)] (and, for [size = 1],
    whatever [contiguous] is) returns a new replay made of the records
    from index [s] to index [e] of the storage, in order: [size]
    consecutive completed episodes.  The number of terminal records after
    [e] is the number drawn in [[size - 1, num_episodes - size]]: the
    sample never ends with one of the last [size - 1] episodes of the
    storage. *)
Theorem sample_contiguous_episodes (w : world) (self : ref) (b : Replay)
    (dev : string) (l : list ref) (ds : list bool) (size : Z) (contiguous : bool) :
  replay_of w self = Some b → vectorized b = false →
  list_of w (_storage b) = Some l →
  done_flags w dev l = Some ds →
  (1 ≤ size)%Z → contiguous = true ∨ size = 1%Z →
  (2 * size - 1 ≤ Z.of_nat (count_true ds))%Z →
  ∃ (s e : nat) r w',
    run (ExperienceReplay.sample self size contiguous true) w = Return r w'
    ∧ storage_of w' r = Some (window l (s, e))
    ∧ (e < length l)%nat
    ∧ episodes_window ds (Z.to_nat size) (s, e)
    ∧ (size - 1 ≤ Z.of_nat (count_true (drop (S e) ds))
       ≤ Z.of_nat (count_true ds) - size)%Z
    ∧ Z.of_nat (count_true (drop (S e) ds))
      = drawn (size - 1) (Z.of_nat (count_true ds) - size) (rng w)
    ∧ (r ∉ dom (heap w))
    ∧ extends w w'.
Proof.
  intros Hb Hvec Hl Hds Hsize Hmode Hnum.
  destruct (episode_window_exists ds size (rng w) Hsize Hnum)
    as (s & e & Hse & He & Hend & Hcount & Hprev).
  pose proof (done_flags_length _ _ _ _ Hds) as Hlen.
  destruct (with_new_replay (consume w) (window l (s, e)) VNone false) as [r w'] eqn:E.
  pose proof (with_new_replay_spec _ _ _ _ _ _ E) as (Hr & _ & _ & Hst & Hext & _).
  exists s, e, r, w'. split_and!; [| done | lia | | | | done | done | done].
  - unfold ExperienceReplay.sample.
    rewrite (run_sample_body_episodes _ w self b dev l ds size contiguous e s)
      by (done || lia).
    by rewrite E.
  - replace (Z.to_nat size) with (S (Z.to_nat (size - 1))) by lia.
    apply episodes_window_intro; [lia | done | done | done].
  - rewrite Hend.
    pose proof (drawn_range (size - 1) (Z.of_nat (count_true ds) - size) (rng w)). lia.
  - rewrite Hend.
    pose proof (drawn_range (size - 1) (Z.of_nat (count_true ds) - size) (rng w)). lia.
Qed.

Lemma sample_contiguous_episodes_witness :
  ∃ (s e : nat) r w',
    run (ExperienceReplay.sample 1 2 true true) (ex_episodes_world [5%Z]) = Return r w'
    ∧ storage_of w' r = Some (window ex_storage (s, e))
    ∧ (e < length ex_storage)%nat
    ∧ episodes_window [false; true; false; true; true] (Z.to_nat 2) (s, e)
    ∧ (2 - 1 ≤ Z.of_nat (count_true (drop (S e) [false; true; false; true; true]))
       ≤ Z.of_nat (count_true [false; true; false; true; true]) - 2)%Z
    ∧ Z.of_nat (count_true (drop (S e) [false; true; false; true; true]))
      = drawn (2 - 1) (Z.of_nat (count_true [false; true; false; true; true]) - 2)
          (rng (ex_episodes_world [5%Z]))
    ∧ (r ∉ dom (heap (ex_episodes_world [5%Z])))
    ∧ extends (ex_episodes_world [5%Z]) w'.
Proof.
  apply (sample_contiguous_episodes (ex_episodes_world [5%Z]) 1 ex_replay "cpu"
           ex_storage [false; true; false; true; true] 2 true).
  - vm_compute. reflexivity.
  - reflexivity.
  - vm_compute. reflexivity.
  - vm_compute. reflexivity.
  - lia.
  - by left.
  - vm_compute. discriminate.
Defined.

(** X8. With fewer than [2 * size - 1] terminal records in a replay that
    is not vectorized and not empty, sampling [size >= 1] contiguous
    episodes fails: [random.randint] is called on an empty range and
    raises [ValueError], although the storage may hold [size] completed
    episodes.  Nothing is changed and no number is drawn. *)
Theorem sample_episodes_empty_range (w : world) (self : ref) (b : Replay)
    (dev : string) (l : list ref) (ds : list bool) (size : Z) (contiguous : bool) :
  replay_of w self = Some b → vectorized b = false →
  list_of w (_storage b) = Some l → l ≠ [] →
  done_flags w dev l = Some ds →
  (1 ≤ size)%Z → contiguous = true ∨ size = 1%Z →
  (Z.of_nat (count_true ds) < 2 * size - 1)%Z →
  run (ExperienceReplay.sample self size contiguous true) w = Raise ValueError w.
Proof.
  intros Hb Hvec Hl Hne Hds Hsize Hmode Hnum.
  assert (Hs : storage_of w self = Some l).
  { unfold storage_of. rewrite Hb. done. }
  unfold ExperienceReplay.sample, ExperienceReplay.sample_body at 1.
  rewrite run_bind, (run_len _ _ _ Hs).
  assert (Hguard : ((Z.of_nat (length l) <? 1) || (size <? 1))%Z = false).
  { apply orb_false_iff. split; apply Z.ltb_ge; [|lia].
    destruct l; [done | simpl; lia]. }
  rewrite Hguard. cbv iota.
  rewrite run_bind, (run_get_replay _ _ _ Hb), Hvec. cbv iota.
  assert (Hbranch : ((1 <? size)%Z && negb contiguous) = false).
  { destruct Hmode as [-> | ->]; [apply andb_false_r | done]. }
  rewrite Hbranch. cbv iota.
  destruct (run_access_done w self dev l ds Hs Hne Hds) as [dt Hacc].
  rewrite run_bind. unfold ExperienceReplay.episode_indices, ExperienceReplay.__getattr__.
  rewrite run_bind, Hacc, run_bind, tensor_sum_flags.
  by rewrite run_randint_empty by lia.
Qed.

Lemma sample_episodes_empty_range_witness :
  run (ExperienceReplay.sample 1 2 true true) (ex_world [5%Z])
  = Raise ValueError (ex_world [5%Z]).
Proof.
  apply (sample_episodes_empty_range (ex_world [5%Z]) 1 ex_replay "cpu"
           ex_storage [false; true; false; true; false] 2 true).
  - vm_compute. reflexivity.
  - reflexivity.
  - vm_compute. reflexivity.
  - unfold ex_storage. discriminate.
  - vm_compute. reflexivity.
  - lia.
  - by left.
  - vm_compute. reflexivity.
Defined.

(** X9. Sampling episodes from a vectorized replay that is not empty, for
    a [size] of 1 or more, is refused with the assertion error, whatever
    [contiguous] is; nothing is changed and no number is drawn. *)
Theorem sample_episodes_vectorized (w : world) (self : ref) (b : Replay)
    (l : list ref) (size : Z) (contiguous : bool) :
  replay_of w self = Some b → vectorized b = true →
  list_of w (_storage b) = Some l → l ≠ [] → (1 ≤ size)%Z →
  run (ExperienceReplay.sample self size contiguous true) w
  = Raise (AssertionError "Cannot sample episodes from vectorized replay yet.") w.
Proof.
  intros Hb Hvec Hl Hne Hsize.
  assert (Hs : storage_of w self = Some l).
  { unfold storage_of. rewrite Hb. done. }
  unfold ExperienceReplay.sample, ExperienceReplay.sample_body at 1.
  rewrite run_bind, (run_len _ _ _ Hs).
  assert (Hguard : ((Z.of_nat (length l) <? 1) || (size <? 1))%Z = false).
  { apply orb_false_iff. split; apply Z.ltb_ge; [|lia].
    destruct l; [done | simpl; lia]. }
  rewrite Hguard. cbv iota.
  by rewrite run_bind, (run_get_replay _ _ _ Hb), Hvec.
Qed.

Lemma sample_episodes_vectorized_witness :
  run (ExperienceReplay.sample 8 1 false true) ex_mixed_world
  = Raise (AssertionError "Cannot sample episodes from vectorized replay yet.")
      ex_mixed_world.
Proof.
  apply (sample_episodes_vectorized ex_mixed_world 8 ex_vector_replay [9%nat] 1 false).
  - vm_compute. reflexivity.
  - reflexivity.
  - vm_compute. reflexivity.
  - discriminate.
  - lia.
Defined.

Lemma extends_dom (w w' : world) (x : ref) :
  extends w w' → x ∈ dom (heap w) → x ∈ dom (heap w').
Proof.
  intros Hext Hx. apply elem_of_dom. rewrite Hext by done. by apply elem_of_dom.
Qed.

Lemma extends_done_flags (w w' : world) (dev : string) (l : list ref) (ds : list bool) :
  extends w w' → done_flags w dev l = Some ds → done_flags w' dev l = Some ds.
Proof.
  intros Hext H. unfold done_flags in *. apply mapM_Some. apply mapM_Some in H.
  eapply Forall2_impl; [exact H|]. intros x d. unfold done_flag.
  destruct (transition_of w x) as [rec|] eqn:Hrec; [|done].
  by rewrite (extends_transition_of _ _ _ _ Hext Hrec).
Qed.

Lemma extends_consume (w : world) : extends w (consume w).
Proof. by intros x _. Qed.

Lemma drop_tail {A : Type} (n : nat) (l : list A) : drop n (tail l) = drop (S n) l.
Proof. destruct l; simpl; [by rewrite drop_nil | done]. Qed.

(** The list comprehension of the branch that samples several episodes
    one by one: every call returns a new replay holding one completed
    episode, chosen by the next number of the generator. *)
Lemma run_mapM_sample_one (rec : ref → Z → bool → bool → M ref)
    (self : ref) (b : Replay) (dev : string) (l : list ref) (ds : list bool)
    (xs : list Z) (w : world) :
  replay_of w self = Some b → vectorized b = false →
  list_of w (_storage b) = Some l →
  done_flags w dev l = Some ds →
  (1 ≤ count_true ds)%nat →
  ∃ rs wins w',
    run (mapM (fun _ : Z => ExperienceReplay.sample_body rec self 1 false true) xs) w
    = Return rs w'
    ∧ extends w w'
    ∧ rng w' = drop (length xs) (rng w)
    ∧ Forall (fun win => episodes_window ds 1 win ∧ (win.2 < length l)%nat) wins
    ∧ Forall2 (fun win d => Z.of_nat (count_true (drop (S win.2) ds)) = d) wins
        (draws 0 (Z.of_nat (count_true ds) - 1) (length xs) (rng w))
    ∧ Forall2 (fun r win =>
                 ∃ rb, replay_of w' r = Some rb
                       ∧ list_of w' (_storage rb) = Some (window l win)
                       ∧ vectorized rb = false) rs wins.
Proof.
  intros Hb Hvec Hl Hds Hcount. revert w Hb Hl Hds.
  induction xs as [|x xs IH]; intros w Hb Hl Hds.
  - exists [], [], w. split_and!; [done | apply extends_refl | done | done | | done].
    cbn [length draws]. constructor.
  - change (mapM ?f (x :: xs)) with (y ← f x; k ← mapM f xs; mret (y :: k)).
    destruct (episode_window_exists ds 1 (rng w)) as (s & e & Hse & He & Hend & Hc & Hprev);
      [lia | lia |].
    pose proof (done_flags_length _ _ _ _ Hds) as Hlen.
    destruct (with_new_replay (consume w) (window l (s, e)) VNone false) as [r w1] eqn:E.
    pose proof (with_new_replay_spec _ _ _ _ _ _ E) as (Hr & Hrb & _ & Hst & Hext & Hrng & _).
    assert (Hext1 : extends w w1).
    { eapply extends_trans; [apply extends_consume | exact Hext]. }
    destruct (IH w1) as (rs & wins & w' & Hrun & Hext' & Hrng' & Hwins & Hdraws & Hrs).
    { by eapply extends_replay_of. }
    { by eapply extends_list_of. }
    { by eapply extends_done_flags. }
    exists (r :: rs), ((s, e) :: wins), w'. split_and!.
    + rewrite run_bind.
      rewrite (run_sample_body_episodes rec w self b dev l ds 1 false e s);
        [| done | done | done | done | lia | by right | lia | done | done | lia | done | done].
      rewrite E. cbn [fst snd]. by rewrite run_bind, Hrun.
    + by eapply extends_trans.
    + rewrite Hrng', Hrng. cbn [length]. apply drop_tail.
    + constructor; [|done]. split; [|cbn [snd]; lia].
      apply (episodes_window_intro ds 0); [lia | done | done | done].
    + cbn [length draws]. constructor; [done|].
      by rewrite Hrng in Hdraws.
    + constructor; [|done].
      eexists. split; [eapply extends_replay_of; [exact Hext' | exact Hrb]|].
      split; [|done]. cbn [_storage].
      eapply extends_list_of; [exact Hext'|].
      unfold storage_of in Hst. by rewrite Hrb in Hst.
Qed.

(** [sum(samples, replay)]: the concatenation, from the left, of replays
    that are not vectorized. *)
Lemma run_foldlM_add (rs : list ref) (lists : list (list ref)) (w : world)
    (acc : ref) (ab : Replay) (la : list ref) :
  replay_of w acc = Some ab → list_of w (_storage ab) = Some la →
  vectorized ab = false →
  Forall2 (fun r li =>
             ∃ rb, replay_of w r = Some rb
                   ∧ list_of w (_storage rb) = Some li
                   ∧ vectorized rb = false) rs lists →
  ∃ r w' rb,
    run (foldlM ExperienceReplay.__add__ acc rs) w = Return r w'
    ∧ replay_of w' r = Some rb
    ∧ list_of w' (_storage rb) = Some (la ++ concat lists)
    ∧ vectorized rb = false ∧ device rb = device ab
    ∧ extends w w' ∧ rng w' = rng w
    ∧ (r = acc ∨ r ∉ dom (heap w)).
Proof.
  intros Hab Hla Hvec H. revert lists w acc ab la Hab Hla Hvec H.
  induction rs as [|x rs IH]; intros lists w acc ab la Hab Hla Hvec H.
  - apply Forall2_nil_inv_l in H as ->. exists acc, w, ab.
    cbn [concat]. rewrite app_nil_r.
    split_and!; try done. by left.
  - apply Forall2_cons_inv_l in H as (li & lists' & (xb & Hxb & Hxl & Hxv) & Hrest & ->).
    cbn [foldlM]. rewrite run_bind.
    rewrite (run_add w acc x ab xb la li) by done.
    rewrite bool_decide_eq_true_2 by congruence.
    destruct (with_new_replay w (la ++ li) (device ab) (vectorized ab)) as [r1 w1] eqn:E.
    pose proof (with_new_replay_spec _ _ _ _ _ _ E)
      as (Hr1 & Hrb1 & _ & Hst1 & Hext1 & Hrng1 & _).
    cbn [fst snd].
    destruct (IH lists' w1 r1 _ (la ++ li) Hrb1) as (r & w' & rb & Hrun & Hrb & Hl & Hv & Hd & Hext & Hrng & Hnew).
    { unfold storage_of in Hst1. by rewrite Hrb1 in Hst1. }
    { done. }
    { eapply Forall2_impl; [exact Hrest|]. intros y ly (yb & Hyb & Hyl & Hyv).
      exists yb. split_and!; [by eapply extends_replay_of | by eapply extends_list_of | done]. }
    exists r, w', rb. cbn [concat]. rewrite app_assoc.
    split_and!; try done.
    + by eapply extends_trans.
    + congruence.
    + right. destruct Hnew as [-> | Hnew]; [done|].
      intros Hin. apply Hnew. by eapply extends_dom.
Qed.

(** X10. On a replay that is not vectorized, whose records carry
    terminal flags of which at least one is set,
    [sample(size, episodes=True)] for [size >= 2] (and not contiguous)
    returns a new replay, not vectorized and with no device, whose
    storage is the concatenation, in sampling order, of [size] windows of
    the storage, each one completed episode; the episode of the [i]-th
    window is the one with as many terminal records after it as the
    [i]-th number drawn in [[0, num_episodes - 1]], so the same episode
    can come more than once.  The source is left as it was. *)
Theorem sample_episodes_one_by_one (w : world) (self : ref) (b : Replay)
    (dev : string) (l : list ref) (ds : list bool) (size : Z) :
  replay_of w self = Some b → vectorized b = false →
  list_of w (_storage b) = Some l →
  done_flags w dev l = Some ds →
  (1 ≤ count_true ds)%nat → (2 ≤ size)%Z →
  ∃ wins r w' rb,
    run (ExperienceReplay.sample self size false true) w = Return r w'
    ∧ length wins = Z.to_nat size
    ∧ Forall (fun win => episodes_window ds 1 win ∧ (win.2 < length l)%nat) wins
    ∧ Forall2 (fun win d => Z.of_nat (count_true (drop (S win.2) ds)) = d) wins
        (draws 0 (Z.of_nat (count_true ds) - 1) (Z.to_nat size) (rng w))
    ∧ replay_of w' r = Some rb
    ∧ list_of w' (_storage rb) = Some (concat (window l <$> wins))
    ∧ vectorized rb = false ∧ device rb = VNone
    ∧ (r ∉ dom (heap w))
    ∧ extends w w'.
Proof.
  intros Hb Hvec Hl Hds Hcount Hsize.
  assert (Hs : storage_of w self = Some l).
  { unfold storage_of. rewrite Hb. done. }
  pose proof (done_flags_length _ _ _ _ Hds) as Hlen.
  assert (Hne : l ≠ []).
  { destruct ds; [simpl in Hcount; lia|]. destruct l; [done | done]. }
  destruct (with_new_replay w [] VNone false) as [r0 w0] eqn:E0.
  pose proof (with_new_replay_spec _ _ _ _ _ _ E0)
    as (Hr0 & Hrb0 & _ & Hst0 & Hext0 & Hrng0 & _).
  destruct (run_mapM_sample_one (fun _ _ _ _ => raise RuntimeError) self b dev l ds
              (py_range 0 size) w0)
    as (rs & wins & w1 & Hrun & Hext1 & Hrng1 & Hwins & Hdraws & Hrs);
    [by eapply extends_replay_of | done | by eapply extends_list_of
     | by eapply extends_done_flags | done |].
  rewrite py_range_length in Hrng1, Hdraws.
  replace (Z.to_nat (size - 0)) with (Z.to_nat size) in Hrng1, Hdraws by lia.
  pose proof (extends_replay_of _ _ _ _ Hext1 Hrb0) as Hrb1.
  destruct (run_foldlM_add rs (window l <$> wins) w1 r0 _ [] Hrb1)
    as (r & w' & rb & Hfold & Hrb & Hlist & Hv & Hd & Hext & Hrng & Hnew).
  { eapply extends_list_of; [exact Hext1|].
    unfold storage_of in Hst0. by rewrite Hrb0 in Hst0. }
  { done. }
  { apply Forall2_fmap_r. exact Hrs. }
  exists wins, r, w', rb. split_and!.
  - unfold ExperienceReplay.sample, ExperienceReplay.sample_body at 1.
    rewrite run_bind, (run_len _ _ _ Hs).
    assert (Hguard : ((Z.of_nat (length l) <? 1) || (size <? 1))%Z = false).
    { apply orb_false_iff. split; apply Z.ltb_ge; [|lia].
      destruct l; [done | simpl; lia]. }
    rewrite Hguard. cbv iota.
    rewrite run_bind, (run_get_replay _ _ _ Hb), Hvec. cbv iota.
    assert (Hbranch : ((1 <? size)%Z && negb false) = true).
    { apply andb_true_iff. split; [apply Z.ltb_lt; lia | done]. }
    rewrite Hbranch. cbv iota.
    rewrite run_bind, run_new_None, E0. cbn [fst snd].
    rewrite run_bind, Hrun. exact Hfold.
  - apply Forall2_length in Hdraws. by rewrite draws_length in Hdraws.
  - done.
  - by rewrite Hrng0 in Hdraws.
  - done.
  - done.
  - done.
  - done.
  - destruct Hnew as [-> | Hnew]; [done|].
    intros Hin. apply Hnew. eapply extends_dom; [|exact Hin].
    by eapply extends_trans.
  - eapply extends_trans; [exact Hext0|]. by eapply extends_trans.
Qed.

Lemma sample_episodes_one_by_one_witness :
  ∃ wins r w' rb,
    run (ExperienceReplay.sample 1 2 false true) (ex_world [0%Z; 1%Z]) = Return r w'
    ∧ length wins = Z.to_nat 2
    ∧ Forall (fun win => episodes_window [false; true; false; true; false] 1 win
                         ∧ (win.2 < length ex_storage)%nat) wins
    ∧ Forall2 (fun win d =>
                 Z.of_nat (count_true (drop (S win.2) [false; true; false; true; false]))
                 = d) wins
        (draws 0 (Z.of_nat (count_true [false; true; false; true; false]) - 1)
           (Z.to_nat 2) (rng (ex_world [0%Z; 1%Z])))
    ∧ replay_of w' r = Some rb
    ∧ list_of w' (_storage rb) = Some (concat (window ex_storage <$> wins))
    ∧ vectorized rb = false ∧ device rb = VNone
    ∧ (r ∉ dom (heap (ex_world [0%Z; 1%Z])))
    ∧ extends (ex_world [0%Z; 1%Z]) w'.
Proof.
  apply (sample_episodes_one_by_one (ex_world [0%Z; 1%Z]) 1 ex_replay "cpu" ex_storage
           [false; true; false; true; false] 2).
  - vm_compute. reflexivity.
  - reflexivity.
  - vm_compute. reflexivity.
  - vm_compute. reflexivity.
  - simpl. lia.
  - lia.
Defined.

(** ** Further properties: transfers of a replay *)

(** The list comprehension of a transfer: one new record per stored
    record, in order. *)
Lemma run_mapM_transfer (op : transfer)
    (l : list ref) (records : list (gmap string value)) (w : world) :
  Forall2 (fun x t => transition_of w x = Some t) l records →
  Forall wf_record records →
  ∃ l' w',
    run (mapM (run_transfer op) l) w = Return l' w'
    ∧ Forall2 (fun x t => transition_of w' x = Some t) l'
        (transfer_record op <$> records)
    ∧ Forall (fun x => x ∉ dom (heap w)) l'
    ∧ extends w w'.
Proof.
  intros H Hwf. revert l w H.
  induction Hwf as [|t records Ht Hwf IH]; intros l w H.
  - apply Forall2_nil_inv_r in H as ->. exists [], w.
    split_and!; [done | constructor | constructor | apply extends_refl].
  - apply Forall2_cons_inv_r in H as (x & l0 & Hx & Hrest & ->).
    set (r1 := fresh (dom (heap w))).
    set (w1 := set_heap (insert r1 (OTransition (transfer_record op t))) w).
    assert (Hext1 : extends w w1) by apply extends_alloc.
    destruct (IH l0 w1) as (l' & w' & Hrun & Hrecs & Hfresh & Hext).
    { eapply Forall2_impl; [exact Hrest|]. intros y ty Hy.
      by eapply extends_transition_of. }
    exists (r1 :: l'), w'. split_and!.
    + change (mapM ?f (x :: l0)) with (y ← f x; k ← mapM f l0; mret (y :: k)).
      rewrite run_bind, (run_record_transfer w x t op Hx Ht).
      fold (transfer_record op t). fold r1. fold w1. by rewrite run_bind, Hrun.
    + rewrite fmap_cons. constructor; [|done].
      eapply extends_transition_of; [exact Hext|].
      unfold transition_of, w1. cbn. by rewrite lookup_insert_eq.
    + constructor; [apply is_fresh|].
      eapply Forall_impl; [exact Hfresh|]. intros y Hy Hin. apply Hy.
      by eapply extends_dom.
    + by eapply extends_trans.
Qed.

(** X11. [to], [cpu], [cuda], [half] and [double] on a replay of
    well-formed records (their fields carry usable names, so that no
    field hides a method of the record) return a new replay over a new
    list of new records, one per stored record and in the same order,
    each the transfer of the stored one; the [vectorized] flag is that of
    the source.  The replay that [to] returns carries the device it was
    given, [None] when none was given, whatever the device of the source
    was, whereas [half] and [double] keep the device of the source.
    Nothing that existed is changed: the source and its records are as
    they were. *)
Theorem replay_transfer_spec (w : world) (self : ref) (b : Replay) (l : list ref)
    (records : list (gmap string value)) (op : transfer) :
  replay_of w self = Some b → list_of w (_storage b) = Some l →
  records_of w l = Some records → Forall wf_record records →
  ∃ r w' rb l',
    run (replay_transfer op self) w = Return r w'
    ∧ replay_of w' r = Some rb
    ∧ list_of w' (_storage rb) = Some l'
    ∧ records_of w' l' = Some (transfer_record op <$> records)
    ∧ length l' = length l
    ∧ vectorized rb = vectorized b
    ∧ device rb = replay_tag op (device b)
    ∧ (r ∉ dom (heap w)) ∧ (_storage rb ∉ dom (heap w))
    ∧ Forall (fun x => x ∉ dom (heap w)) l'
    ∧ extends w w'.
Proof.
  intros Hb Hl Hrecs Hwf.
  apply mapM_Some in Hrecs.
  (* the call that the replay makes on each record *)
  set (op' := match op with
              | Cpu => To (Some "cpu") None false
              | Cuda index dt nb => To (Some ("cuda:" +:+ pretty index)) dt nb
              | _ => op
              end).
  assert (Hsame : ∀ t, transfer_record op' t = transfer_record op t).
  { intros t. subst op'. by destruct op. }
  destruct (run_mapM_transfer op' l records w Hrecs Hwf)
    as (l' & w1 & Hrun & Hrecs' & Hfresh & Hext1).
  destruct (with_new_replay w1 l' (replay_tag op (device b)) (vectorized b))
    as [r w'] eqn:E.
  pose proof (with_new_replay_spec _ _ _ _ _ _ E) as (Hr & Hrb & Hs & Hst & Hext & _).
  eexists r, w', _, l'. split_and!; [| exact Hrb | | | | done | done | | |  | ].
  - assert (Hrun' : ∀ dv,
              run (b ← get_replay self;
                   l ← get_list (_storage b);
                   storage ← mapM (run_transfer op') l;
                   storage ← alloc (OList storage);
                   ExperienceReplay.new (Some storage) (dv b) (vectorized b)) w
              = Return (with_new_replay w1 l' (dv b) (vectorized b)).1
                       (with_new_replay w1 l' (dv b) (vectorized b)).2).
    { intros dv.
      rewrite run_bind, (run_get_replay _ _ _ Hb), run_bind, (run_get_list _ _ _ Hl).
      rewrite run_bind, Hrun. apply run_alloc_new. }
    destruct op as [d dt nb | | index dt nb | | ]; cbn [replay_tag] in E.
    + pose proof (Hrun' (fun _ => device_value d)) as H'. cbv beta in H'.
      rewrite E in H'. exact H'.
    + pose proof (Hrun' (fun _ => VDevice "cpu")) as H'. cbv beta in H'.
      rewrite E in H'. exact H'.
    + pose proof (Hrun' (fun _ => VDevice ("cuda:" +:+ pretty index))) as H'.
      cbv beta in H'. rewrite E in H'. exact H'.
    + pose proof (Hrun' device) as H'. rewrite E in H'. exact H'.
    + pose proof (Hrun' device) as H'. rewrite E in H'. exact H'.
  - unfold storage_of in Hst. by rewrite Hrb in Hst.
  - apply mapM_Some.
    assert (Heq : transfer_record op <$> records = transfer_record op' <$> records).
    { apply list_fmap_ext. intros i t _. by rewrite Hsame. }
    rewrite Heq. eapply Forall2_impl; [exact Hrecs'|]. intros x t Hx.
    by eapply extends_transition_of.
  - rewrite (Forall2_length _ _ _ Hrecs'), length_fmap.
    symmetry. by eapply Forall2_length.
  - intros Hin. apply Hr. by eapply extends_dom.
  - cbn [_storage]. intros Hin. apply Hs. by eapply extends_dom.
  - done.
  - by eapply extends_trans.
Qed.

Lemma replay_transfer_spec_witness :
  ∃ r w' rb l',
    run (replay_transfer (To (Some "cuda:0") (Some float64) false) 8) ex_mixed_world
    = Return r w'
    ∧ replay_of w' r = Some rb
    ∧ list_of w' (_storage rb) = Some l'
    ∧ records_of w' l'
      = Some (transfer_record (To (Some "cuda:0") (Some float64) false)
                <$> [ex_vector_record])
    ∧ length l' = length [9%nat]
    ∧ vectorized rb = vectorized ex_vector_replay
    ∧ device rb
      = replay_tag (To (Some "cuda:0") (Some float64) false) (device ex_vector_replay)
    ∧ (r ∉ dom (heap ex_mixed_world)) ∧ (_storage rb ∉ dom (heap ex_mixed_world))
    ∧ Forall (fun x => x ∉ dom (heap ex_mixed_world)) l'
    ∧ extends ex_mixed_world w'.
Proof.
  apply (replay_transfer_spec ex_mixed_world 8 ex_vector_replay [9%nat]
           [ex_vector_record]).
  - vm_compute. reflexivity.
  - vm_compute. reflexivity.
  - vm_compute. reflexivity.
  - apply List.Forall_cons; [by_evaluation | apply List.Forall_nil].
Defined.

(** ** Further facts on records *)

Lemma init_dict_fields (s a r ns d dev : value) (infos : list (string * value)) :
  NoDup (Transition.core_fields ++ infos.*1) →
  Forall field_name infos.*1 →
  record_fields (init_dict s a r ns d dev infos)
  = Some (Transition.core_fields ++ infos.*1).
Proof.
  intros Hnd Hnames.
  pose proof (init_wf s a r ns d dev infos Hnd Hnames) as Hwf.
  assert (Hres : Forall (fun f => f ∉ Transition._reserved_names) infos.*1).
  { eapply Forall_impl; [exact Hnames|]. intros f Hf Hin. apply Hf.
    apply elem_of_cons in Hin as [-> | Hin]; [apply list_elem_of_here|].
    apply elem_of_cons in Hin as [-> | Hin];
      [apply list_elem_of_further, list_elem_of_here | by apply elem_of_nil in Hin]. }
  unfold record_fields, init_dict.
  rewrite lookup_insert_ne by done.
  rewrite insert_all_lookup_notin.
  - by rewrite lookup_insert_eq.
  - intros Hin. rewrite Forall_forall in Hres. apply (Hres _ Hin).
    apply list_elem_of_further, list_elem_of_here.
Qed.

Lemma init_dict_lookup_core (s a r ns d dev : value) (infos : list (string * value))
    (k : string) :
  NoDup (Transition.core_fields ++ infos.*1) → k ∈ Transition.core_fields →
  init_dict s a r ns d dev infos !! k = core_dict s a r ns d !! k.
Proof.
  intros (_ & Hdisj & _)%NoDup_app Hk. unfold init_dict.
  assert (Hne : k ≠ "_fields" ∧ k ≠ "device").
  { pose proof core_fields_not_reserved as Hres. rewrite Forall_forall in Hres.
    by apply not_reserved_ne, Hres. }
  destruct Hne as [Hfields Hdev].
  rewrite lookup_insert_ne by done.
  rewrite insert_all_lookup_notin by (by apply Hdisj).
  by rewrite lookup_insert_ne.
Qed.

Lemma init_dict_lookup_info (s a r ns d dev : value) (infos : list (string * value))
    (k : string) (v : value) :
  NoDup (Transition.core_fields ++ infos.*1) →
  Forall field_name infos.*1 →
  (k, v) ∈ infos →
  k ≠ "device" ∧ init_dict s a r ns d dev infos !! k = Some v.
Proof.
  intros (_ & _ & Hnd)%NoDup_app Hnames Hin.
  assert (Hk : k ≠ "device").
  { rewrite Forall_forall in Hnames. intros ->.
    apply (Hnames "device"); [|apply list_elem_of_here].
    apply list_elem_of_fmap. by exists ("device", v). }
  split; [done|]. unfold init_dict.
  rewrite lookup_insert_ne by done. by apply insert_all_lookup_in.
Qed.

(** ** Further properties: appending *)

(** [append], whatever the replay: [a'], [r'] and [d'] are the action,
    the reward and the flag once reshaped, or as they were given when the
    replay is not vectorized. *)
Lemma run_append (w : world) (self : ref) (b : Replay) (acc : list ref)
    (dev : option string) (s a r ns d a' r' d' : value)
    (infos : list (string * value)) :
  replay_of w self = Some b → parse_device (device b) = OK dev →
  list_of w (_storage b) = Some acc →
  NoDup (Transition.core_fields ++ infos.*1) →
  Forall field_name infos.*1 →
  (if vectorized b then
     ∃ n, shape0 s = OK n ∧ reshape_rows n a = OK a'
          ∧ reshape_rows n r = OK r' ∧ reshape_rows n d = OK d'
   else a' = a ∧ r' = r ∧ d' = d) →
  let t1 := init_dict s a' r' ns d' VNone infos in
  run (ExperienceReplay.append self s a r ns d infos) w
  = Return () (append_world w (_storage b) acc t1
                 (transferred (to_fn dev None false) (device b) t1)).2.
Proof.
  intros Hb Hdev Hacc Hnd Hnames Hrows t1.
  unfold ExperienceReplay.append.
  assert (Hinfos : (fun '(key, v) => (key, if _istensorable v then totensor v else v))
                     <$> infos = infos).
  { clear. induction infos as [|[k v] infos IH]; [done|].
    rewrite fmap_cons, IH. unfold totensor. by destruct (_istensorable v). }
  rewrite Hinfos. unfold totensor.
  rewrite run_bind, (run_get_replay _ _ _ Hb), run_bind.
  assert (Hpre : run (if vectorized b
                      then num_envs ← lift (shape0 s);
                           action ← lift (reshape_rows num_envs a);
                           reward ← lift (reshape_rows num_envs r);
                           done ← lift (reshape_rows num_envs d);
                           mret (action, reward, done)
                      else mret (a, r, d)) w
                 = Return (a', r', d') w).
  { destruct (vectorized b).
    - destruct Hrows as (n & Hn & Ha & Hr & Hd).
      rewrite run_bind, Hn, run_lift_OK, run_bind, Ha, run_lift_OK.
      by rewrite run_bind, Hr, run_lift_OK, run_bind, Hd, run_lift_OK.
    - by destruct Hrows as (-> & -> & ->). }
  rewrite Hpre. rewrite run_bind.
  unfold Transition.new at 1. rewrite run_bind, call_core by done.
  rewrite run_lift_OK, run_alloc.
  set (r1 := fresh (dom (heap w))).
  set (w1 := set_heap (insert r1 (OTransition (init_dict s a' r' ns d' VNone infos))) w).
  rewrite run_bind, Hdev, run_lift_OK, run_bind.
  assert (Ht1 : transition_of w1 r1 = Some t1).
  { unfold transition_of, w1. cbn. by rewrite lookup_insert_eq. }
  assert (Hwf1 : wf_record t1) by (by apply init_wf).
  rewrite (run_to w1 r1 t1) by done.
  rewrite (run_apply w1 r1 t1 _ _ Ht1 Hwf1).
  assert (Hdev1 : default VNone (t1 !! "device") = VNone).
  { subst t1. unfold init_dict. by rewrite lookup_insert_eq. }
  assert (Htag : match device_value dev with
                 | VNone => default VNone (t1 !! "device")
                 | _ => device_value dev
                 end = device b).
  { rewrite Hdev1. destruct (device b); try done; injection Hdev as <-; done. }
  rewrite Htag. unfold ExperienceReplay.list_append.
  rewrite run_bind, (run_get_list _ _ acc); [reflexivity|].
  unfold list_of. cbn.
  assert (Hin : _storage b ∈ dom (heap w)) by (by eapply list_of_dom).
  rewrite !lookup_insert_ne.
  - exact Hacc.
  - by apply fresh_ne.
  - apply fresh_ne. cbn. rewrite dom_insert_L. apply elem_of_union. by right.
Qed.

(** What [append] stores, [a'], [r'] and [d'] being the action, the
    reward and the flag it passes to the record. *)
Lemma append_record_spec (w : world) (self : ref) (b : Replay) (acc : list ref)
    (dev : option string) (s a r ns d a' r' d' : value)
    (infos : list (string * value)) :
  replay_of w self = Some b → parse_device (device b) = OK dev →
  list_of w (_storage b) = Some acc →
  NoDup (Transition.core_fields ++ infos.*1) →
  Forall field_name infos.*1 →
  (if vectorized b then
     ∃ n, shape0 s = OK n ∧ reshape_rows n a = OK a'
          ∧ reshape_rows n r = OK r' ∧ reshape_rows n d = OK d'
   else a' = a ∧ r' = r ∧ d' = d) →
  let fn := to_fn dev None false in
  ∃ x w' t,
    run (ExperienceReplay.append self s a r ns d infos) w = Return () w'
    ∧ storage_of w' self = Some (acc ++ [x])
    ∧ (x ∉ dom (heap w))
    ∧ transition_of w' x = Some t
    ∧ record_fields t = Some (Transition.core_fields ++ infos.*1)
    ∧ wf_record t
    ∧ t !! "device" = Some (device b)
    ∧ t !! "state" = Some (map_value fn s)
    ∧ t !! "action" = Some (map_value fn a')
    ∧ t !! "reward" = Some (map_value fn r')
    ∧ t !! "next_state" = Some (map_value fn ns)
    ∧ t !! "done" = Some (map_value fn d')
    ∧ (∀ k v, (k, v) ∈ infos → t !! k = Some (map_value fn v))
    ∧ extends_except (_storage b) w w'.
Proof.
  intros Hb Hdev Hacc Hnd Hnames Hrows fn.
  set (t1 := init_dict s a' r' ns d' VNone infos).
  set (t2 := transferred fn (device b) t1).
  destruct (append_world w (_storage b) acc t1 t2) as [x w'] eqn:E.
  pose proof (append_world_spec _ _ _ _ _ _ _ E Hacc) as (Hx & Hl' & Ht & Hext & _).
  assert (Hcore : ∀ k, k ∈ Transition.core_fields →
            t2 !! k = map_value fn <$> core_dict s a' r' ns d' !! k).
  { intros k Hk. unfold t2, t1.
    assert (Hne : k ≠ "device").
    { pose proof core_fields_not_reserved as Hres. rewrite Forall_forall in Hres.
      by apply (not_reserved_ne k), Hres. }
    rewrite transferred_lookup by done.
    by rewrite init_dict_lookup_core. }
  exists x, w', t2. split_and!.
  - rewrite (run_append w self b acc dev s a r ns d a' r' d' infos) by done.
    fold t1. fold fn. fold t2. by rewrite E.
  - unfold storage_of.
    rewrite (extends_except_replay _ _ _ _ _ _ Hext Hacc Hb). exact Hl'.
  - done.
  - done.
  - unfold t2. rewrite transferred_fields. by apply init_dict_fields.
  - apply transferred_wf. by apply init_wf.
  - unfold t2, transferred. by rewrite lookup_insert_eq.
  - by rewrite Hcore by (unfold Transition.core_fields; set_solver).
  - by rewrite Hcore by (unfold Transition.core_fields; set_solver).
  - by rewrite Hcore by (unfold Transition.core_fields; set_solver).
  - by rewrite Hcore by (unfold Transition.core_fields; set_solver).
  - by rewrite Hcore by (unfold Transition.core_fields; set_solver).
  - intros k v Hin.
    destruct (init_dict_lookup_info s a' r' ns d' VNone infos k v Hnd Hnames Hin)
      as [Hk Hv].
    unfold t2. rewrite transferred_lookup by done. fold t1 in Hv. by rewrite Hv.
  - done.
Qed.

(** X12. [append] on a replay that is not vectorized, given the five
    tensors and auxiliary values under distinct usable names that are not
    core names (usable: not [device], [_fields] or [self], not the name
    of a method of [Transition] or [_reserved_names], which the new
    record would hold in place of the method that [append] calls on it,
    not a name of the object protocol), none of these values being a
    list: the storage gets one new record at its end, and nothing else of
    it changes.  The fields of the record
    are the five core names followed by the auxiliary names in the order
    given; each field holds the value given, moved to the device of the
    replay when it is a tensor and as it is otherwise, and the device tag
    of the record is the device of the replay. *)
Theorem append_stores_record (w : world) (self : ref) (b : Replay) (acc : list ref)
    (dev : option string) (st a r ns d : tensor) (infos : list (string * value)) :
  replay_of w self = Some b → vectorized b = false →
  parse_device (device b) = OK dev →
  list_of w (_storage b) = Some acc →
  NoDup (Transition.core_fields ++ infos.*1) →
  Forall field_name infos.*1 →
  Forall (fun v => is_list v = false) infos.*2 →
  let fn := to_fn dev None false in
  ∃ x w' t,
    run (ExperienceReplay.append self (VTensor st) (VTensor a) (VTensor r)
           (VTensor ns) (VTensor d) infos) w = Return () w'
    ∧ storage_of w' self = Some (acc ++ [x])
    ∧ (x ∉ dom (heap w))
    ∧ transition_of w' x = Some t
    ∧ record_fields t = Some (Transition.core_fields ++ infos.*1)
    ∧ wf_record t
    ∧ t !! "device" = Some (device b)
    ∧ t !! "state" = Some (VTensor (fn st))
    ∧ t !! "action" = Some (VTensor (fn a))
    ∧ t !! "reward" = Some (VTensor (fn r))
    ∧ t !! "next_state" = Some (VTensor (fn ns))
    ∧ t !! "done" = Some (VTensor (fn d))
    ∧ (∀ k v, (k, v) ∈ infos → t !! k = Some (map_value fn v))
    ∧ extends_except (_storage b) w w'.
Proof.
  intros Hb Hvec Hdev Hacc Hnd Hnames _ fn.
  apply (append_record_spec w self b acc dev (VTensor st) (VTensor a) (VTensor r)
           (VTensor ns) (VTensor d) (VTensor a) (VTensor r) (VTensor d) infos);
    try done.
  by rewrite Hvec.
Qed.

Lemma append_stores_record_witness :
  ∃ x w' t,
    run (ExperienceReplay.append 1 (VTensor (ex_cell 10)) (VTensor (ex_cell 0))
           (VTensor (ex_cell 1)) (VTensor (ex_cell 11)) (VTensor (ex_cell 0))
           [("log_prob", VTensor (ex_cell 5)); ("density", VObject 7)]) ex_cuda_world
    = Return () w'
    ∧ storage_of w' 1 = Some ([] ++ [x])
    ∧ (x ∉ dom (heap ex_cuda_world))
    ∧ transition_of w' x = Some t
    ∧ record_fields t
      = Some (Transition.core_fields
              ++ [("log_prob", VTensor (ex_cell 5)); ("density", VObject 7)].*1)
    ∧ wf_record t
    ∧ t !! "device" = Some (device ex_cuda_replay)
    ∧ t !! "state" = Some (VTensor (to_fn (Some "cuda:0") None false (ex_cell 10)))
    ∧ t !! "action" = Some (VTensor (to_fn (Some "cuda:0") None false (ex_cell 0)))
    ∧ t !! "reward" = Some (VTensor (to_fn (Some "cuda:0") None false (ex_cell 1)))
    ∧ t !! "next_state" = Some (VTensor (to_fn (Some "cuda:0") None false (ex_cell 11)))
    ∧ t !! "done" = Some (VTensor (to_fn (Some "cuda:0") None false (ex_cell 0)))
    ∧ (∀ k v, (k, v) ∈ [("log_prob", VTensor (ex_cell 5)); ("density", VObject 7)] →
              t !! k = Some (map_value (to_fn (Some "cuda:0") None false) v))
    ∧ extends_except (_storage ex_cuda_replay) ex_cuda_world w'.
Proof.
  apply (append_stores_record ex_cuda_world 1 ex_cuda_replay [] (Some "cuda:0")
           (ex_cell 10) (ex_cell 0) (ex_cell 1) (ex_cell 11) (ex_cell 0)
           [("log_prob", VTensor (ex_cell 5)); ("density", VObject 7)]).
  - vm_compute. reflexivity.
  - reflexivity.
  - reflexivity.
  - vm_compute. reflexivity.
  - by_evaluation.
  - by_evaluation.
  - by_evaluation.
Defined.

Lemma reshape_rows_as_rows (n : nat) (t : tensor) :
  n ≠ 0%nat → (prod_shape (shape t) `mod` n = 0)%nat →
  reshape_rows n (VTensor t) = OK (VTensor (as_rows n t)).
Proof.
  intros Hn Hmod. unfold reshape_rows, as_rows.
  by rewrite bool_decide_eq_true_2.
Qed.

(** X13. [append] on a vectorized replay, given the five tensors and
    auxiliary values, none of them a list, under distinct usable names
    that are not core names, reads the number of environments [n] off the leading axis of the
    state, and stores the action, the reward and the flag reshaped to [n]
    rows, the state and the next state as they are given: the storage
    gets one new record at its end, with these fields moved to the device
    of the replay.  The condition is that of [reshape]: [n] is not zero
    and divides the number of cells of the action, of the reward and of
    the flag. *)
Theorem append_vectorized_rows (w : world) (self : ref) (b : Replay) (acc : list ref)
    (dev : option string) (st a r ns d : tensor) (n : nat)
    (infos : list (string * value)) :
  replay_of w self = Some b → vectorized b = true →
  parse_device (device b) = OK dev →
  list_of w (_storage b) = Some acc →
  NoDup (Transition.core_fields ++ infos.*1) →
  Forall field_name infos.*1 →
  Forall (fun v => is_list v = false) infos.*2 →
  head (shape st) = Some n → n ≠ 0%nat →
  Forall (fun t => prod_shape (shape t) `mod` n = 0)%nat [a; r; d] →
  let fn := to_fn dev None false in
  ∃ x w' t,
    run (ExperienceReplay.append self (VTensor st) (VTensor a) (VTensor r)
           (VTensor ns) (VTensor d) infos) w = Return () w'
    ∧ storage_of w' self = Some (acc ++ [x])
    ∧ (x ∉ dom (heap w))
    ∧ transition_of w' x = Some t
    ∧ record_fields t = Some (Transition.core_fields ++ infos.*1)
    ∧ wf_record t
    ∧ t !! "device" = Some (device b)
    ∧ t !! "state" = Some (VTensor (fn st))
    ∧ t !! "action" = Some (VTensor (fn (as_rows n a)))
    ∧ t !! "reward" = Some (VTensor (fn (as_rows n r)))
    ∧ t !! "next_state" = Some (VTensor (fn ns))
    ∧ t !! "done" = Some (VTensor (fn (as_rows n d)))
    ∧ (∀ k v, (k, v) ∈ infos → t !! k = Some (map_value fn v))
    ∧ extends_except (_storage b) w w'.
Proof.
  intros Hb Hvec Hdev Hacc Hnd Hnames _ Hn Hn0 Hdiv fn.
  apply Forall_cons in Hdiv as [Ha Hdiv]. apply Forall_cons in Hdiv as [Hr Hdiv].
  apply Forall_cons in Hdiv as [Hd _].
  apply (append_record_spec w self b acc dev (VTensor st) (VTensor a) (VTensor r)
           (VTensor ns) (VTensor d) (VTensor (as_rows n a)) (VTensor (as_rows n r))
           (VTensor (as_rows n d)) infos);
    try done.
  rewrite Hvec. exists n. split_and!.
  - unfold shape0. by destruct (shape st) as [|m rest]; [|injection Hn as ->].
  - by apply reshape_rows_as_rows.
  - by apply reshape_rows_as_rows.
  - by apply reshape_rows_as_rows.
Qed.

Lemma append_vectorized_rows_witness :
  ∃ x w' t,
    run (ExperienceReplay.append 1 (VTensor (ex_pair 20 30)) (VTensor (ex_flat_pair 0 1))
           (VTensor (ex_flat_pair 1 1)) (VTensor (ex_pair 21 31))
           (VTensor (ex_flat_pair 0 1)) (@nil (string * value))) ex_vector_empty_world
    = Return () w'
    ∧ storage_of w' 1 = Some ([] ++ [x])
    ∧ (x ∉ dom (heap ex_vector_empty_world))
    ∧ transition_of w' x = Some t
    ∧ record_fields t = Some (Transition.core_fields ++ (@nil (string * value)).*1)
    ∧ wf_record t
    ∧ t !! "device" = Some VNone
    ∧ t !! "state" = Some (VTensor (to_fn None None false (ex_pair 20 30)))
    ∧ t !! "action" = Some (VTensor (to_fn None None false (as_rows 2 (ex_flat_pair 0 1))))
    ∧ t !! "reward" = Some (VTensor (to_fn None None false (as_rows 2 (ex_flat_pair 1 1))))
    ∧ t !! "next_state" = Some (VTensor (to_fn None None false (ex_pair 21 31)))
    ∧ t !! "done" = Some (VTensor (to_fn None None false (as_rows 2 (ex_flat_pair 0 1))))
    ∧ (∀ k v, (k, v) ∈ @nil (string * value) → t !! k = Some (map_value (to_fn None None false) v))
    ∧ extends_except 0%nat ex_vector_empty_world w'.
Proof.
  apply (append_vectorized_rows ex_vector_empty_world 1
           {| _storage := 0; vectorized := true; device := VNone |} [] None
           (ex_pair 20 30) (ex_flat_pair 0 1) (ex_flat_pair 1 1) (ex_pair 21 31)
           (ex_flat_pair 0 1) 2 []).
  - vm_compute. reflexivity.
  - reflexivity.
  - reflexivity.
  - vm_compute. reflexivity.
  - by_evaluation.
  - by_evaluation.
  - by_evaluation.
  - reflexivity.
  - lia.
  - by_evaluation.
Defined.



(** ** Further properties: building and extending a record *)

Lemma names_not_reserved (l : list string) :
  Forall field_name l →
  Forall (fun f => f ∉ "_reserved_names" :: Transition._reserved_names) l.
Proof.
  intros H. eapply Forall_impl; [exact H|]. intros f. apply field_name_not_reserved.
Qed.

(** X15. [Transition(state, action, reward, next_state, done, device,
    **infos)], the auxiliary names being distinct, usable (not [device],
    [_fields] or [self], not the name of a method of the class or
    [_reserved_names], not a name of the object protocol) and none of
    them a core name: the record has the five core fields followed by the
    auxiliary names in the order given, every attribute holds the value
    passed for it, and [device] holds the device. *)
Theorem init_builds_record (s a r ns d dev : value) (infos : list (string * value)) :
  NoDup (Transition.core_fields ++ infos.*1) →
  Forall field_name infos.*1 →
  ∃ t,
    Transition.__init__ s a r ns d dev infos = OK t
    ∧ wf_record t
    ∧ record_fields t = Some (Transition.core_fields ++ infos.*1)
    ∧ t !! "state" = Some s ∧ t !! "action" = Some a ∧ t !! "reward" = Some r
    ∧ t !! "next_state" = Some ns ∧ t !! "done" = Some d
    ∧ t !! "device" = Some dev
    ∧ (∀ k v, (k, v) ∈ infos → t !! k = Some v).
Proof.
  intros Hnd Hnames. exists (init_dict s a r ns d dev infos).
  assert (Hcore : ∀ k, k ∈ Transition.core_fields →
            init_dict s a r ns d dev infos !! k = core_dict s a r ns d !! k).
  { intros k Hk. by apply init_dict_lookup_core. }
  split_and!.
  - apply init_ok; [done | by apply names_not_reserved].
  - by apply init_wf.
  - by apply init_dict_fields.
  - by rewrite Hcore by (unfold Transition.core_fields; set_solver).
  - by rewrite Hcore by (unfold Transition.core_fields; set_solver).
  - by rewrite Hcore by (unfold Transition.core_fields; set_solver).
  - by rewrite Hcore by (unfold Transition.core_fields; set_solver).
  - by rewrite Hcore by (unfold Transition.core_fields; set_solver).
  - unfold init_dict. by rewrite lookup_insert_eq.
  - intros k v Hin. by apply (init_dict_lookup_info s a r ns d dev infos k v).
Qed.

Lemma init_builds_record_witness :
  ∃ t,
    Transition.__init__ (scalar 10) (scalar 0) (scalar 1) (scalar 11) (scalar 0)
      (VDevice "cpu") [("log_prob", scalar 5); ("density", VObject 7)] = OK t
    ∧ wf_record t
    ∧ record_fields t
      = Some (Transition.core_fields
              ++ [("log_prob", scalar 5); ("density", VObject 7)].*1)
    ∧ t !! "state" = Some (scalar 10) ∧ t !! "action" = Some (scalar 0)
    ∧ t !! "reward" = Some (scalar 1)
    ∧ t !! "next_state" = Some (scalar 11) ∧ t !! "done" = Some (scalar 0)
    ∧ t !! "device" = Some (VDevice "cpu")
    ∧ (∀ k v, (k, v) ∈ [("log_prob", scalar 5); ("density", VObject 7)] →
              t !! k = Some v).
Proof.
  apply (init_builds_record (scalar 10) (scalar 0) (scalar 1) (scalar 11) (scalar 0)
           (VDevice "cpu") [("log_prob", scalar 5); ("density", VObject 7)]).
  - by_evaluation.
  - by_evaluation.
Defined.

(** X16. Assigning an attribute of a well-formed record, under a usable
    name (not [device], [_fields] or [self], not the name of a method of
    the class or [_reserved_names], not a name of the object protocol),
    keeps the record well formed: the attribute holds the value, the name
    of a field that exists is not added a second time, a new name is
    appended at the end of the fields, and every other attribute is as it
    was. *)
Theorem setattr_keeps_record (t : gmap string value) (l : list string)
    (name : string) (v : value) :
  wf_record t → record_fields t = Some l →
  field_name name →
  ∃ t',
    Transition.__setattr__ t name v = OK t'
    ∧ wf_record t'
    ∧ t' !! name = Some v
    ∧ record_fields t' = Some (if bool_decide (name ∈ l) then l else l ++ [name])
    ∧ (∀ k, k ≠ name → k ≠ "_fields" → t' !! k = t !! k).
Proof.
  intros Hwf Hl Hname.
  assert (Hf : t !! "_fields" = Some (VNames l)).
  { unfold record_fields in Hl. by destruct (t !! "_fields") as [[]|]; simplify_eq. }
  assert (Hcls : t !! "_reserved_names" = None).
  { apply wf_record_unshadowed; [done | by_evaluation]. }
  unfold wf_record in Hwf. rewrite Hl in Hwf.
  destruct Hwf as (Htake & Hnd & Hnames & Hdom).
  destruct (names_ne name Hname) as (Hdev & Hfields & Hself).
  assert (Hres : name ∉ Transition._reserved_names).
  { intros Hin. apply (field_name_not_reserved name Hname).
    by apply list_elem_of_further. }
  case_bool_decide as Hin.
  - exists (<[name := v]> t). split_and!.
    + by apply (setattr_known t l).
    + unfold wf_record, record_fields. rewrite lookup_insert_ne by done. rewrite Hf.
      split_and!; try done.
      rewrite dom_insert_L, Hdom. apply set_eq. intros x.
      rewrite elem_of_union, elem_of_singleton, !elem_of_list_to_set, !elem_of_cons.
      split; [intros [-> | H]; [by do 2 right | done] | by right].
    + apply lookup_insert_eq.
    + unfold record_fields. rewrite lookup_insert_ne by done. by rewrite Hf.
    + intros k Hk _. by rewrite lookup_insert_ne.
  - exists (<[name := v]> (<["_fields" := VNames (l ++ [name])]> t)). split_and!.
    + by apply (setattr_new t l).
    + unfold wf_record, record_fields.
      rewrite lookup_insert_ne by done. rewrite lookup_insert_eq.
      split_and!.
      * assert (Hlen : (5 ≤ length l)%nat).
        { destruct (decide (5 ≤ length l)%nat) as [H5 | H5]; [done|].
          rewrite take_ge in Htake by lia. rewrite Htake. cbn. lia. }
        by rewrite take_app_le.
      * apply NoDup_app. split_and!; [done | | apply NoDup_singleton].
        intros x Hx ->%list_elem_of_singleton. done.
      * apply Forall_app. split; [done|]. by apply Forall_singleton.
      * rewrite !dom_insert_L, Hdom. apply set_eq. intros x.
        rewrite !elem_of_union, !elem_of_singleton, !elem_of_list_to_set.
        rewrite !elem_of_cons, elem_of_app, !elem_of_cons, elem_of_nil.
        tauto.
    + apply lookup_insert_eq.
    + unfold record_fields. rewrite lookup_insert_ne by done.
      by rewrite lookup_insert_eq.
    + intros k Hk Hk'. by rewrite !lookup_insert_ne.
Qed.

Lemma setattr_keeps_record_witness :
  ∃ t',
    Transition.__setattr__ (ex_record 10 0) "log_prob" (scalar 3) = OK t'
    ∧ wf_record t'
    ∧ t' !! "log_prob" = Some (scalar 3)
    ∧ record_fields t'
      = Some (if bool_decide ("log_prob" ∈ Transition.core_fields)
              then Transition.core_fields else Transition.core_fields ++ ["log_prob"])
    ∧ (∀ k, k ≠ "log_prob" → k ≠ "_fields" → t' !! k = ex_record 10 0 !! k).
Proof.
  apply (setattr_keeps_record (ex_record 10 0) Transition.core_fields "log_prob"
           (scalar 3)).
  - by_evaluation.
  - vm_compute. reflexivity.
  - by_evaluation.
Defined.

(** ** Further properties: batched access *)

Lemma prod_shape_cons (n : nat) (s : list nat) :
  prod_shape (n :: s) = (n * prod_shape s)%nat.
Proof. reflexivity. Qed.

Lemma prod_strip_ones (s : list nat) : prod_shape (strip_ones s) = prod_shape s.
Proof.
  induction s as [|n s IH]; [done|].
  destruct n as [|[|n]]; try done.
  destruct s as [|m s]; [done|].
  change (strip_ones (1 :: m :: s)) with (strip_ones (m :: s)).
  rewrite IH, (prod_shape_cons 1). lia.
Qed.

Lemma run_mapM_getattr (w : world) (name : string) (l : list ref) (ts : list tensor) :
  field_tensors w name l = Some ts →
  run (mapM (fun sars => Transition.getattr_ref sars name) l) w
  = Return (VTensor <$> ts) w.
Proof.
  unfold field_tensors. intros H%mapM_Some.
  induction H as [|x t l ts Hx _ IH]; [done|].
  change (mapM ?f (x :: l)) with (y ← f x; k ← mapM f l; mret (y :: k)).
  destruct (transition_of w x) as [rec|] eqn:Hrec; [|done]. cbn in Hx.
  destruct (rec !! name) as [v|] eqn:Hv; [|done]. cbn in Hx.
  destruct v; try done. injection Hx as ->.
  rewrite run_bind, (run_getattr_ref _ _ _ _ _ Hrec Hv), run_bind, IH.
  reflexivity.
Qed.

(** [th.cat] of tensors of one shape on one device. *)
Lemma th_cat_same_shape (t0 : tensor) (ts : list tensor) (h : nat) (tl : list nat)
    (dev : string) :
  Forall (fun t => shape t = h :: tl ∧ tdevice t = dev) (t0 :: ts) →
  th_cat (VTensor <$> t0 :: ts)
  = OK {| shape := (length (t0 :: ts) * h)%nat :: tl;
          data := concat (data <$> t0 :: ts);
          dtype_of := dtype_of t0; tdevice := dev |}.
Proof.
  intros H. unfold th_cat. rewrite mapM_as_tensor. cbn [mbind result_bind].
  pose proof H as [[Hs0 Hd0] _]%Forall_cons. rewrite Hs0.
  assert (Hall : forallb (fun t => bool_decide (tail (shape t) = tl ∧ shape t ≠ []
                                                ∧ tdevice t = tdevice t0)) (t0 :: ts)
                 = true).
  { clear Hs0. induction H as [|t l [Hs Hd] _ IH]; [done|].
    cbn [forallb]. rewrite IH, andb_true_r.
    apply bool_decide_eq_true. rewrite Hs, Hd, Hd0. done. }
  rewrite Hall.
  assert (Hsum : foldr Nat.add 0%nat ((fun t => hd 0%nat (shape t)) <$> t0 :: ts)
                 = (length (t0 :: ts) * h)%nat).
  { clear Hall Hs0 Hd0. induction H as [|t l [Hs _] _ IH]; [done|].
    rewrite fmap_cons. cbn [foldr length]. rewrite IH, Hs. cbn [hd]. lia. }
  by rewrite Hsum, Hd0.
Qed.

(** X17. Let [name] be a name that normal lookup does not find on the
    replay object (not one of its attributes or methods, nor a name of
    the object protocol), so that [replay.name()] is batched access.
    When every record of the replay holds a tensor under [name], all of
    one shape (with at least one axis) and on one device, and the replay
    is not empty, the call succeeds and changes nothing: the tensor
    returned has a leading axis of the size of the storage, as many cells
    per record as the tensors have, the cells of the records in storage
    order, and is on that device. *)
Theorem access_property_batch (w : world) (self : ref) (l : list ref)
    (name : string) (ts : list tensor) (h : nat) (tl : list nat) (dev : string) :
  storage_of w self = Some l → l ≠ [] →
  name ∉ ExperienceReplay.attribute_names → dunder name = false →
  field_tensors w name l = Some ts →
  Forall (fun t => shape t = h :: tl ∧ tdevice t = dev) ts →
  ∃ m t rest,
    ExperienceReplay.call_attribute self name = Some m
    ∧ run m w = Return t w
    ∧ shape t = length l :: rest
    ∧ prod_shape rest = prod_shape (h :: tl)
    ∧ data t = concat (data <$> ts)
    ∧ tdevice t = dev.
Proof.
  intros (b & Hb & Hl)%storage_of_inv Hne Hname Hdunder Hts Hshapes.
  pose proof (run_mapM_getattr _ _ _ _ Hts) as Hrun.
  assert (Hlen : length ts = length l).
  { symmetry. by eapply length_mapM. }
  destruct ts as [|t0 ts]; [by destruct l|].
  pose proof Hshapes as [[Hs0 Hd0] _]%Forall_cons.
  pose proof (th_cat_same_shape t0 ts h tl dev Hshapes) as Hcat.
  eexists (ExperienceReplay._access_property self name), _, (strip_ones (h :: tl)).
  split_and!.
  - by apply call_attribute_reaches.
  - unfold ExperienceReplay._access_property.
    rewrite run_bind.
    unfold try_except_AttributeError at 1. cbn [run].
    rewrite run_bind, (run_get_replay _ _ _ Hb), run_bind, (run_get_list _ _ _ Hl), Hrun.
    assert (Hv0 : py_index (VTensor <$> t0 :: ts) 0 = OK (VTensor t0)) by done.
    assert (Hmin : _min_size (VTensor t0) = OK (strip_ones (h :: tl))).
    { unfold _min_size. by rewrite Hs0. }
    rewrite run_bind, Hv0, run_lift_OK, run_bind, Hmin, run_lift_OK.
    rewrite run_bind, Hcat, run_lift_OK.
    unfold tensor_view. cbn [shape data dtype_of tdevice].
    rewrite bool_decide_eq_true_2; [apply run_lift_OK|].
    rewrite length_fmap, !prod_shape_cons, prod_strip_ones, prod_shape_cons. lia.
  - cbn [shape]. by rewrite length_fmap, Hlen.
  - apply prod_strip_ones.
  - done.
  - done.
Qed.

Lemma access_property_batch_witness :
  ∃ m t rest,
    ExperienceReplay.call_attribute 1 "state" = Some m
    ∧ run m (ex_world []) = Return t (ex_world [])
    ∧ shape t = length ex_storage :: rest
    ∧ prod_shape rest = prod_shape [1%nat; 1%nat]
    ∧ data t = concat (data <$> [ex_cell 10; ex_cell 11; ex_cell 12; ex_cell 13;
                                  ex_cell 14])
    ∧ tdevice t = "cpu".
Proof.
  apply (access_property_batch (ex_world []) 1 ex_storage "state"
           [ex_cell 10; ex_cell 11; ex_cell 12; ex_cell 13; ex_cell 14] 1 [1%nat] "cpu").
  - vm_compute. reflexivity.
  - unfold ex_storage. discriminate.
  - by_evaluation.
  - reflexivity.
  - vm_compute. reflexivity.
  - by_evaluation.
Defined.
